(** * Story Mode: the arc progression engine of [index.js]

    A shallow embedding of the phase calculator ([getPhaseInfo]), the
    template renderer and injection composer ([buildPhaseInjection],
    [buildFullInjection]), the per-chat state store ([getChatStoryState],
    [saveChatStoryState]) and the event handlers ([GENERATION_STARTED],
    [MESSAGE_SWIPED], [MESSAGE_RECEIVED], [CHAT_CHANGED]), followed by the
    properties of the specification that were checked against them.

    Conventions.
    - Step counters and arc lengths are ECMAScript numbers holding integers;
      they are modelled by [Z], which is exact on the safe-integer range.
      Every place where the source leaves the integers ([arcLength * 0.33],
      [positionInPhase / totalInPhase]) is computed in IEEE-754 binary64,
      through the executable specification [SpecFloat] of the library.
    - Strings are sequences of 8-bit code units ([string]).
    - A handler runs to completion before the next signal is delivered; the
      answers of the host's [generateRaw], which may reject, are an argument
      of the handler.  The host's [saveMetadata] and [addOneMessage] are
      taken to succeed; what they were given is recorded in the state. *)

From Stdlib Require Import ZArith Bool List String Ascii Lia DecimalString.
From Stdlib Require Import Floats.SpecFloat.
Import ListNotations.

Open Scope string_scope.
Open Scope Z_scope.

(** ** ECMAScript numbers *)

Module JsNumber.

Definition number : Type := spec_float.

Definition prec : Z := 53.
Definition emax : Z := 1024.

(** The double nearest to an integer (exact below [2^53]). *)
Definition ofZ (z : Z) : number := binary_normalize prec emax z 0 false.

Definition mul : number -> number -> number := SFmul prec emax.
Definition div : number -> number -> number := SFdiv prec emax.

(** A decimal literal [n/d], e.g. [0.33] is [literal 33 100]: the double
    nearest to the quotient, which is what correctly rounded division
    returns. *)
Definition literal (n d : Z) : number := div (ofZ n) (ofZ d).

(** The values [Math.round] can return: an integer, [NaN], or an
    infinity. *)
Inductive integral : Type :=
| Int (z : Z)
| NotANumber
| Infinity (negative : bool).

Definition signed (s : bool) (m : positive) : Z :=
  if s then Z.neg m else Z.pos m.

(** [Math.floor] on a finite double, as an integer.  The products
    [arcLength * 0.33] and [arcLength * 0.66] of [getPhaseInfo] are finite
    for every integer a double can hold; the other cases are mapped to 0. *)
Definition floorZ (x : number) : Z :=
  match x with
  | S754_finite s m e =>
      if 0 <=? e then signed s m * 2 ^ e else signed s m / 2 ^ (- e)
  | _ => 0
  end.

(** [Math.round]: the nearest integer, ties towards [+∞], that is
    [floor (x + 1/2)] computed exactly. *)
Definition round (x : number) : integral :=
  match x with
  | S754_zero _ => Int 0
  | S754_nan => NotANumber
  | S754_infinity s => Infinity s
  | S754_finite s m e =>
      if 0 <=? e then Int (signed s m * 2 ^ e)
      else Int ((2 * signed s m + 2 ^ (- e)) / 2 ^ (- e + 1))
  end.

(** [Number::toString] on an integer: its decimal digits, which is what
    ECMAScript prints below [10^21]. *)
Definition decimal (z : Z) : string := NilZero.string_of_int (Z.to_int z).

Definition toString (x : integral) : string :=
  match x with
  | Int z => decimal z
  | NotANumber => "NaN"
  | Infinity false => "Infinity"
  | Infinity true => "-Infinity"
  end.

(** [Math.round((a / b) * 100)], the expression shared by
    [getPhaseInfo] (phase percentage) and [buildPhaseInjection] (arc
    percentage). *)
Definition roundPercent (a b : Z) : integral :=
  round (mul (div (ofZ a) (ofZ b)) (ofZ 100)).

End JsNumber.

(** ** Strings *)

Definition nl : string := String (ascii_of_nat 10) EmptyString.

(** JavaScript truthiness of a string and of a possibly missing string. *)
Definition truthy (s : string) : bool := negb (String.eqb s "").

Definition orEmpty (o : option string) : string :=
  match o with
  | Some s => s
  | None => ""
  end.

(** [s.replace(/pat/g, rep)] for a pattern without regular-expression
    operators and a replacement without [$]: a left-to-right scan over
    non-overlapping matches.  [skip] counts the characters of the current
    match that remain to be consumed. *)
Fixpoint replaceFrom (pat rep : string) (skip : nat) (s : string) : string :=
  match s with
  | EmptyString => EmptyString
  | String c s' =>
      match skip with
      | S k => replaceFrom pat rep k s'
      | O =>
          if String.prefix pat s
          then rep ++ replaceFrom pat rep (String.length pat - 1) s'
          else String c (replaceFrom pat rep 0 s')
      end
  end.

Definition replaceAll (pat rep s : string) : string := replaceFrom pat rep 0 s.

(** [parts.join(sep)]. *)
Fixpoint join (sep : string) (parts : list string) : string :=
  match parts with
  | [] => ""
  | [p] => p
  | p :: rest => p ++ sep ++ join sep rest
  end.

(** ** PhaseCalculator: [getPhaseInfo] *)

Inductive Phase : Type := setup | confrontation | resolution.

Definition phaseName (p : Phase) : string :=
  match p with
  | setup => "setup"
  | confrontation => "confrontation"
  | resolution => "resolution"
  end.

Record PhaseInfo : Type := {
  phase : Phase;
  positionInPhase : Z;
  totalInPhase : Z;
  percentInPhase : JsNumber.integral;
  phaseStart : Z;
  phaseEnd : Z
}.

Definition getPhaseInfo (currentStep arcLength : Z) : PhaseInfo :=
  (* !arcLength || arcLength <= 0: fall back to the default 30 *)
  let arcLength := if arcLength <=? 0 then 30 else arcLength in
  let setupEnd :=
    JsNumber.floorZ (JsNumber.mul (JsNumber.ofZ arcLength) (JsNumber.literal 33 100)) in
  let confrontationEnd :=
    JsNumber.floorZ (JsNumber.mul (JsNumber.ofZ arcLength) (JsNumber.literal 66 100)) in
  let '(phase, phaseStart, phaseEnd, positionInPhase) :=
    if currentStep <=? setupEnd then
      (setup, 1, setupEnd, currentStep)
    else if currentStep <=? confrontationEnd then
      (confrontation, setupEnd + 1, confrontationEnd, currentStep - setupEnd)
    else
      (resolution, confrontationEnd + 1, arcLength, currentStep - confrontationEnd) in
  let totalInPhase := phaseEnd - phaseStart + 1 in
  let percentInPhase := JsNumber.roundPercent positionInPhase totalInPhase in
  {| phase := phase;
     positionInPhase := positionInPhase;
     totalInPhase := totalInPhase;
     percentInPhase := percentInPhase;
     phaseStart := phaseStart;
     phaseEnd := phaseEnd |}.

(** ** Data model *)

(** [extension_prompt_types] and [extension_prompt_roles] of the host. *)
Inductive PromptType : Type := NONE | IN_PROMPT | IN_CHAT | BEFORE_PROMPT.
Inductive PromptRole : Type := SYSTEM | USER | ASSISTANT.

(** A story type of the catalog.  [phasePrompts] is the optional object
    indexed by the phase name; [storyPrompt] and its entries may be
    missing.  [progressTemplate] may be missing as well: the import asks
    for [id] and [name] only, and the edit form reads it as
    [type.progressTemplate || ''].  [None] stands for a template that is not
    a string. *)
Record StoryType : Type := {
  storyTypeId : string;
  storyTypeName : string;
  storyPrompt : option string;
  progressTemplate : option string;
  phasePrompts : option (Phase -> option string)
}.

Record AuthorStyle : Type := {
  authorStyleId : string;
  authorStyleName : string;
  authorPrompt : string;
  nsfwPrompt : option string
}.

(** [extension_settings[MODULE_NAME]]. *)
Module Settings.
Record t : Type := {
  enabled : bool;
  storyArcEnabled : bool;
  selectedStoryType : string;
  selectedAuthorStyle : string;
  arcLength : Z;
  currentStep : Z;
  authorStyleEnabled : bool;
  nsfwEnabled : bool;
  epilogueEnabled : bool;
  summaryEnabled : bool;
  summaryMessageCount : Z;
  debugMode : bool;
  position : PromptType;
  depth : Z;
  role : PromptRole;
  summaryWords : option Z;
  summaryMaxTokens : option Z
}.
End Settings.

Definition defaultSettings : Settings.t := {|
  Settings.enabled := false;
  Settings.storyArcEnabled := false;
  Settings.selectedStoryType := "";
  Settings.selectedAuthorStyle := "";
  Settings.arcLength := 30;
  Settings.currentStep := 0;
  Settings.authorStyleEnabled := false;
  Settings.nsfwEnabled := false;
  Settings.epilogueEnabled := false;
  Settings.summaryEnabled := false;
  Settings.summaryMessageCount := 0;
  Settings.debugMode := false;
  Settings.position := IN_CHAT;
  Settings.depth := 4;
  Settings.role := SYSTEM;
  Settings.summaryWords := None;
  Settings.summaryMaxTokens := None
|}.

(** [chatMetadata[MODULE_NAME]]: the per-chat arc state. *)
Module ChatState.
Record t : Type := {
  currentStep : Z;
  arcStarted : bool;
  epilogueShown : bool;
  summaryShown : bool;
  selectedStoryType : string;
  selectedAuthorStyle : string;
  arcLength : Z
}.

Definition set_currentStep (n : Z) (s : t) : t :=
  {| currentStep := n;
     arcStarted := arcStarted s;
     epilogueShown := epilogueShown s;
     summaryShown := summaryShown s;
     selectedStoryType := selectedStoryType s;
     selectedAuthorStyle := selectedAuthorStyle s;
     arcLength := arcLength s |}.

Definition set_epilogueShown (b : bool) (s : t) : t :=
  {| currentStep := currentStep s;
     arcStarted := arcStarted s;
     epilogueShown := b;
     summaryShown := summaryShown s;
     selectedStoryType := selectedStoryType s;
     selectedAuthorStyle := selectedAuthorStyle s;
     arcLength := arcLength s |}.

Definition set_summaryShown (b : bool) (s : t) : t :=
  {| currentStep := currentStep s;
     arcStarted := arcStarted s;
     epilogueShown := epilogueShown s;
     summaryShown := b;
     selectedStoryType := selectedStoryType s;
     selectedAuthorStyle := selectedAuthorStyle s;
     arcLength := arcLength s |}.
End ChatState.

(** A chat message, with the fields the extension reads or writes
    ([send_date], a wall-clock stamp, is left out). *)
Record Message : Type := {
  is_user : bool;
  mes : string;
  is_system : bool;
  name : string;
  force_avatar : option string
}.

(** What [setExtensionPrompt] last installed under [MODULE_NAME]. *)
Record ExtensionPrompt : Type := {
  promptText : string;
  promptPosition : PromptType;
  promptDepth : Z;
  promptRole : option PromptRole
}.

(** The module-level variables of [index.js] together with the host state
    the extension reads and writes. *)
Record World : Type := {
  settings : Settings.t;
  storyTypes : list StoryType;
  authorStyles : list AuthorStyle;
  isRegenerating : bool;
  isLoadingChat : bool;
  chat : list Message;
  chatMetadata : option ChatState.t;
  (* snapshots handed to [saveMetadata], most recent first *)
  savedMetadata : list ChatState.t;
  (* messages rendered through [addOneMessage], in order *)
  rendered : list Message;
  extensionPrompt : option ExtensionPrompt;
  (* pending [setTimeout] callbacks of [onChatChanged] *)
  loadingTimers : nat
}.

Definition set_isRegenerating (b : bool) (w : World) : World :=
  {| settings := settings w; storyTypes := storyTypes w;
     authorStyles := authorStyles w; isRegenerating := b;
     isLoadingChat := isLoadingChat w; chat := chat w;
     chatMetadata := chatMetadata w; savedMetadata := savedMetadata w;
     rendered := rendered w; extensionPrompt := extensionPrompt w;
     loadingTimers := loadingTimers w |}.

Definition set_isLoadingChat (b : bool) (w : World) : World :=
  {| settings := settings w; storyTypes := storyTypes w;
     authorStyles := authorStyles w; isRegenerating := isRegenerating w;
     isLoadingChat := b; chat := chat w;
     chatMetadata := chatMetadata w; savedMetadata := savedMetadata w;
     rendered := rendered w; extensionPrompt := extensionPrompt w;
     loadingTimers := loadingTimers w |}.

Definition set_chat (c : list Message) (w : World) : World :=
  {| settings := settings w; storyTypes := storyTypes w;
     authorStyles := authorStyles w; isRegenerating := isRegenerating w;
     isLoadingChat := isLoadingChat w; chat := c;
     chatMetadata := chatMetadata w; savedMetadata := savedMetadata w;
     rendered := rendered w; extensionPrompt := extensionPrompt w;
     loadingTimers := loadingTimers w |}.

Definition set_chatMetadata (m : option ChatState.t) (w : World) : World :=
  {| settings := settings w; storyTypes := storyTypes w;
     authorStyles := authorStyles w; isRegenerating := isRegenerating w;
     isLoadingChat := isLoadingChat w; chat := chat w;
     chatMetadata := m; savedMetadata := savedMetadata w;
     rendered := rendered w; extensionPrompt := extensionPrompt w;
     loadingTimers := loadingTimers w |}.

Definition set_savedMetadata (l : list ChatState.t) (w : World) : World :=
  {| settings := settings w; storyTypes := storyTypes w;
     authorStyles := authorStyles w; isRegenerating := isRegenerating w;
     isLoadingChat := isLoadingChat w; chat := chat w;
     chatMetadata := chatMetadata w; savedMetadata := l;
     rendered := rendered w; extensionPrompt := extensionPrompt w;
     loadingTimers := loadingTimers w |}.

Definition set_rendered (l : list Message) (w : World) : World :=
  {| settings := settings w; storyTypes := storyTypes w;
     authorStyles := authorStyles w; isRegenerating := isRegenerating w;
     isLoadingChat := isLoadingChat w; chat := chat w;
     chatMetadata := chatMetadata w; savedMetadata := savedMetadata w;
     rendered := l; extensionPrompt := extensionPrompt w;
     loadingTimers := loadingTimers w |}.

Definition set_extensionPrompt (p : option ExtensionPrompt) (w : World) : World :=
  {| settings := settings w; storyTypes := storyTypes w;
     authorStyles := authorStyles w; isRegenerating := isRegenerating w;
     isLoadingChat := isLoadingChat w; chat := chat w;
     chatMetadata := chatMetadata w; savedMetadata := savedMetadata w;
     rendered := rendered w; extensionPrompt := p;
     loadingTimers := loadingTimers w |}.

Definition set_loadingTimers (n : nat) (w : World) : World :=
  {| settings := settings w; storyTypes := storyTypes w;
     authorStyles := authorStyles w; isRegenerating := isRegenerating w;
     isLoadingChat := isLoadingChat w; chat := chat w;
     chatMetadata := chatMetadata w; savedMetadata := savedMetadata w;
     rendered := rendered w; extensionPrompt := extensionPrompt w;
     loadingTimers := n |}.

(** ** Handlers as state transformers that may throw

    A function of [index.js] that reads or writes the module state is a
    computation [M A]: it either returns a value with the new state, or
    throws, leaving the state it had reached. *)

Inductive Res (A : Type) : Type :=
| Ok (a : A) (w : World)
| Threw (w : World).

Arguments Ok {A} a w.
Arguments Threw {A} w.

Definition M (A : Type) : Type := World -> Res A.

Definition ret {A : Type} (a : A) : M A := fun w => Ok a w.

Definition bind {A B : Type} (m : M A) (k : A -> M B) : M B :=
  fun w =>
    match m w with
    | Ok a w' => k a w'
    | Threw w' => Threw w'
    end.

Definition throw {A : Type} : M A := fun w => Threw w.

Definition gets {A : Type} (f : World -> A) : M A := fun w => Ok (f w) w.

Definition modify (f : World -> World) : M unit := fun w => Ok tt (f w).

(** [try { m } catch (error) { handler }] *)
Definition tryCatch {A : Type} (m handler : M A) : M A :=
  fun w =>
    match m w with
    | Ok a w' => Ok a w'
    | Threw w' => handler w'
    end.

Notation "x <- m ;; k" := (bind m (fun x => k))
  (at level 100, m at next level, right associativity).
Notation "m ;; k" := (bind m (fun _ => k))
  (at level 100, right associativity).

Definition when (b : bool) (m : M unit) : M unit := if b then m else ret tt.

Definition worldOf {A : Type} (r : Res A) : World :=
  match r with
  | Ok _ w => w
  | Threw w => w
  end.

Definition valueOf {A : Type} (r : Res A) : option A :=
  match r with
  | Ok a _ => Some a
  | Threw _ => None
  end.

Definition threw {A : Type} (r : Res A) : bool :=
  match r with
  | Ok _ _ => false
  | Threw _ => true
  end.

(** ** ArcStateStore: [getChatStoryState], [saveChatStoryState] *)

(** The state a chat without [story_mode] metadata is given on first
    access: [settings.arcLength || 30] replaces a zero default. *)
Definition initialChatState (settings : Settings.t) : ChatState.t :=
  {| ChatState.currentStep := 0;
     ChatState.arcStarted := false;
     ChatState.epilogueShown := false;
     ChatState.summaryShown := false;
     ChatState.selectedStoryType := Settings.selectedStoryType settings;
     ChatState.selectedAuthorStyle := Settings.selectedAuthorStyle settings;
     ChatState.arcLength :=
       if Settings.arcLength settings =? 0 then 30 else Settings.arcLength settings |}.

Definition getChatStoryState : M ChatState.t :=
  fun w =>
    match chatMetadata w with
    | Some state => Ok state w
    | None =>
        let state := initialChatState (settings w) in
        Ok state (set_chatMetadata (Some state) w)
    end.

(** [chatMetadata[MODULE_NAME] = state; await saveMetadata()].  The
    [CHAT_METADATA_UPDATED] notification has no listener in this module. *)
Definition saveChatStoryState (state : ChatState.t) : M unit :=
  modify (set_chatMetadata (Some state)) ;;
  modify (fun w => set_savedMetadata (state :: savedMetadata w) w).

(** The object [getChatStoryState] returns is the one stored in the
    metadata: an assignment to one of its fields is a write to the store. *)
Definition assignChatState (f : ChatState.t -> ChatState.t) : M ChatState.t :=
  state <- getChatStoryState ;;
  modify (set_chatMetadata (Some (f state))) ;;
  ret (f state).

(** ** TemplateRenderer and InjectionComposer *)

Definition dq : string := String (ascii_of_nat 34) EmptyString.

Definition pipe {A B : Type} (x : A) (f : A -> B) : B := f x.
Notation "x |> f" := (pipe x f) (at level 45, left associativity, only parsing).

Definition buildStoryBlueprint (storyType : StoryType) : string :=
  orEmpty (storyPrompt storyType).

(** The chain of nine global replacements of [buildPhaseInjection], on
    the template [storyType.progressTemplate] holds. *)
Definition progressText (template : string) (phaseInfo : PhaseInfo)
    (chatState : ChatState.t) : string :=
  let nextStep := ChatState.currentStep chatState + 1 in
  template
    |> replaceAll "{currentStep}" (JsNumber.decimal nextStep)
    |> replaceAll "{arcLength}" (JsNumber.decimal (ChatState.arcLength chatState))
    |> replaceAll "{arcPercent}"
         (JsNumber.toString (JsNumber.roundPercent nextStep (ChatState.arcLength chatState)))
    |> replaceAll "{phase}" (phaseName (phase phaseInfo))
    |> replaceAll "{positionInPhase}" (JsNumber.decimal (positionInPhase phaseInfo))
    |> replaceAll "{totalInPhase}" (JsNumber.decimal (totalInPhase phaseInfo))
    |> replaceAll "{phasePercent}" (JsNumber.toString (percentInPhase phaseInfo))
    |> replaceAll "{phaseStart}" (JsNumber.decimal (phaseStart phaseInfo))
    |> replaceAll "{phaseEnd}" (JsNumber.decimal (phaseEnd phaseInfo)).

(** [storyType.phasePrompts?.[phaseInfo.phase] || ''] *)
Definition phaseGuidance (storyType : StoryType) (p : Phase) : string :=
  match phasePrompts storyType with
  | Some prompts => orEmpty (prompts p)
  | None => ""
  end.

Definition debugNote (nextStep arcLength : Z) (p : Phase) : string :=
  nl ++ nl ++
  "[IMPORTANT: At the end of your response, include a debug note in this exact format: "
  ++ dq ++ "(OOC: Step " ++ JsNumber.decimal nextStep ++ "/"
  ++ JsNumber.decimal arcLength ++ ", Phase: " ++ phaseName p ++ ")" ++ dq ++ "]".

(** [buildPhaseInjection] calls [replace] on [storyType.progressTemplate]
    without a check: on an entry without a template that is a [TypeError],
    here [None]. *)
Definition buildPhaseInjection (settings : Settings.t) (storyType : StoryType)
    (phaseInfo : PhaseInfo) (chatState : ChatState.t) : option string :=
  let nextStep := ChatState.currentStep chatState + 1 in
  match progressTemplate storyType with
  | None => None
  | Some template =>
      let output :=
        progressText template phaseInfo chatState ++ nl ++ nl
        ++ phaseGuidance storyType (phase phaseInfo) in
      Some (if Settings.debugMode settings
            then output
                 ++ debugNote nextStep (ChatState.arcLength chatState) (phase phaseInfo)
            else output)
  end.

(** The [<story>] part that [buildFullInjection] pushes, when it does;
    [None] when [buildPhaseInjection] throws. *)
Definition storyPart (settings : Settings.t) (chatState : ChatState.t)
    (catalog : list StoryType) (isPreview : bool) : option (list string) :=
  if Settings.storyArcEnabled settings && truthy (ChatState.selectedStoryType chatState)
  then
    match find (fun t => String.eqb (storyTypeId t) (ChatState.selectedStoryType chatState))
               catalog with
    | Some storyType =>
        if (ChatState.currentStep chatState <? ChatState.arcLength chatState) || isPreview
        then
          let nextStep := ChatState.currentStep chatState + 1 in
          let phaseInfo := getPhaseInfo nextStep (ChatState.arcLength chatState) in
          match buildPhaseInjection settings storyType phaseInfo chatState with
          | Some phaseText =>
              let storyContent :=
                buildStoryBlueprint storyType ++ nl ++ nl ++ phaseText in
              Some ["<story>" ++ nl ++ storyContent ++ nl ++ "</story>"]
          | None => None
          end
        else Some []
    | None => Some []
    end
  else Some [].

(** The [<style>] part that [buildFullInjection] pushes, when it does. *)
Definition stylePart (settings : Settings.t) (chatState : ChatState.t)
    (catalog : list AuthorStyle) : list string :=
  if Settings.authorStyleEnabled settings && truthy (ChatState.selectedAuthorStyle chatState)
  then
    match find (fun s => String.eqb (authorStyleId s) (ChatState.selectedAuthorStyle chatState))
               catalog with
    | Some authorStyle =>
        let styleContent :=
          if Settings.nsfwEnabled settings && truthy (orEmpty (nsfwPrompt authorStyle))
          then authorPrompt authorStyle ++ nl ++ nl ++ orEmpty (nsfwPrompt authorStyle)
          else authorPrompt authorStyle in
        ["<style>" ++ nl ++ styleContent ++ nl ++ "</style>"]
    | None => []
    end
  else [].

Definition buildFullInjection (isPreview : bool) : M string :=
  settings <- gets settings ;;
  chatState <- getChatStoryState ;;
  if negb (Settings.enabled settings) then ret ""
  else
    storyTypes <- gets storyTypes ;;
    authorStyles <- gets authorStyles ;;
    match storyPart settings chatState storyTypes isPreview with
    | None => throw
    | Some story =>
        let parts := (story ++ stylePart settings chatState authorStyles)%list in
        ret (join (nl ++ nl) parts)
    end.

Definition setExtensionPrompt (text : string) (position : PromptType) (depth : Z)
    (role : option PromptRole) : M unit :=
  modify (set_extensionPrompt
            (Some {| promptText := text; promptPosition := position;
                     promptDepth := depth; promptRole := role |})).

Definition updateStoryPrompt : M unit :=
  settings <- gets settings ;;
  if negb (Settings.enabled settings) then setExtensionPrompt "" NONE 0 None
  else
    promptText <- buildFullInjection false ;;
    if negb (truthy promptText) then setExtensionPrompt "" NONE 0 None
    else
      setExtensionPrompt promptText (Settings.position settings)
        (Settings.depth settings) (Some (Settings.role settings)).

(** [updateStatusDisplay] only writes to the page; what it does to the
    module state is its call of [getChatStoryState]. *)
Definition updateStatusDisplay : M unit :=
  _ <- getChatStoryState ;; ret tt.

(** ** Host collaborators *)

(** [String.prototype.trim] over 8-bit code units: tab, line feed, vertical
    tab, form feed, carriage return, space and no-break space. *)
Definition isWhitespace (c : ascii) : bool :=
  let n := nat_of_ascii c in
  ((9 <=? n) && (n <=? 13))%nat || (n =? 32)%nat || (n =? 160)%nat.

Fixpoint trimStart (s : string) : string :=
  match s with
  | EmptyString => EmptyString
  | String c s' => if isWhitespace c then trimStart s' else s
  end.

Fixpoint trimEnd (s : string) : string :=
  match s with
  | EmptyString => EmptyString
  | String c s' =>
      let r := trimEnd s' in
      if String.eqb r "" && isWhitespace c then "" else String c r
  end.

Definition trim (s : string) : string := trimEnd (trimStart s).

(** [l.slice(start)]: a negative [start] counts from the end. *)
Definition sliceFrom {A : Type} (start : Z) (l : list A) : list A :=
  let len := Z.of_nat (List.length l) in
  let k := if start <? 0 then Z.max (len + start) 0 else Z.min start len in
  skipn (Z.to_nat k) l.

(** [s.replace(pat, rep)] with a string pattern: the first occurrence only. *)
Fixpoint replaceFirst (pat rep s : string) : string :=
  if String.prefix pat s then rep ++ substring (String.length pat) (String.length s) s
  else
    match s with
    | EmptyString => EmptyString
    | String c s' => String c (replaceFirst pat rep s')
    end.

(** The argument and the outcome of the host's [generateRaw]: the promise
    rejects, or resolves to a string or to nothing. *)
Record GenerateRequest : Type := {
  prompt : string;
  systemPrompt : string;
  responseLength : option Z
}.

Inductive GenerateResult : Type :=
| Rejects
| Resolves (text : option string).

Definition Generator : Type := GenerateRequest -> GenerateResult.

Definition generateRaw (host : Generator) (request : GenerateRequest)
  : M (option string) :=
  match host request with
  | Rejects => throw
  | Resolves text => ret text
  end.

(** The payload of [MESSAGE_RECEIVED]: [data && data.is_user] is false when
    the payload is missing or carries no such field. *)
Inductive EventData : Type :=
| NoData
| Data (data_is_user : bool).

Definition dataIsUser (data : EventData) : bool :=
  match data with
  | NoData => false
  | Data b => b
  end.

(** ** Post-arc generation *)

(** The message object [pushStoryMessage] builds. *)
Definition storyMessage (messageText : string) : Message :=
  {| is_user := false;
     mes := messageText;
     is_system := false;
     name := "Story Mode";
     force_avatar := Some "img/quill.png" |}.

Definition pushStoryMessage (messageText : string) : M unit :=
  let message := storyMessage messageText in
  modify (fun w => set_chat (chat w ++ [message])%list w) ;;
  modify (fun w => set_rendered (rendered w ++ [message])%list w).

Definition nonSystemMessages (chat : list Message) : list Message :=
  filter (fun m => negb (is_system m) && truthy (mes m)) chat.

Definition epilogueSystemPrompt : string :=
  "You are wrapping up a completed story arc. The story has reached its conclusion at the planned arc length. Write an epilogue that:" ++ nl
  ++ "- Wraps up loose threads" ++ nl
  ++ "- Brings the narrative to a satisfying close" ++ nl
  ++ "- Provides closure for character arcs" ++ nl
  ++ "- Sets the tone for what comes after" ++ nl
  ++ nl
  ++ "IMPORTANT: Start your response with the heading " ++ dq ++ "**Epilogue**" ++ dq
  ++ " on its own line, followed by a blank line, then write the epilogue content.".

Definition generateEpilogueForStory (host : Generator) : M string :=
  chat <- gets chat ;;
  let recentMessages :=
    join (nl ++ nl) (map mes (sliceFrom (-20) (nonSystemMessages chat))) in
  if negb (truthy (trim recentMessages)) then ret ""
  else
    let userPrompt :=
      "Based on the recent story context below, write an epilogue that wraps up this story arc:"
      ++ nl ++ nl ++ recentMessages in
    tryCatch
      (epilogue <- generateRaw host
                     {| prompt := userPrompt;
                        systemPrompt := epilogueSystemPrompt;
                        responseLength := None |} ;;
       ret (match epilogue with
            | Some text => trim text
            | None => ""
            end))
      (ret "").

Definition STORY_SUMMARY_PROMPT : string :=
  nl
  ++ "You are a summarization assistant for a fictional story. Provide a comprehensive summary of the story arc using at most {{words}} words." ++ nl
  ++ nl
  ++ "Include:" ++ nl
  ++ "- **Character Development**: How each major character has changed and grown" ++ nl
  ++ "- **Key Events**: The most important moments in chronological order" ++ nl
  ++ "- **Important Elements**: Significant objects, locations, and relationships" ++ nl
  ++ "- **Major Themes**: The underlying themes and messages explored" ++ nl
  ++ "- **Resolution Status**: What was resolved and what remains open" ++ nl
  ++ nl
  ++ "Format this as a clear, well-organized narrative summary. Use markdown formatting and section headings to organize the summary." ++ nl
  ++ nl
  ++ "IMPORTANT: Start your response with the heading " ++ dq ++ "**Story Arc Summary**" ++ dq
  ++ " on its own line, followed by a blank line, then write the summary content with your subsection headings." ++ nl.

Definition getStoryTextToSummarize : M string :=
  chat <- gets chat ;;
  settings <- gets settings ;;
  let filteredMessages := nonSystemMessages chat in
  let messagesToSummarize :=
    if Settings.summaryMessageCount settings =? 0
    then filteredMessages
    else sliceFrom (- Settings.summaryMessageCount settings) filteredMessages in
  ret (join (nl ++ nl) (map mes messagesToSummarize)).

(** Unlike [generateEpilogueForStory], the call of [generateRaw] here is
    not inside a [try]. *)
Definition summarizeChatMainForStory (host : Generator) : M string :=
  storyText <- getStoryTextToSummarize ;;
  if negb (truthy (trim storyText)) then ret ""
  else
    settings <- gets settings ;;
    let words :=
      match Settings.summaryWords settings with
      | Some n => n
      | None => 500
      end in
    let systemPrompt :=
      replaceFirst "{{words}}" (JsNumber.decimal words) STORY_SUMMARY_PROMPT in
    summary <- generateRaw host
                 {| prompt := storyText;
                    systemPrompt := systemPrompt;
                    responseLength :=
                      Some (match Settings.summaryMaxTokens settings with
                            | Some n => n
                            | None => 0
                            end) |} ;;
    ret (match summary with
         | Some text => trim text
         | None => ""
         end).

(** ** ArcProgressionController: the event handlers *)

Definition NOTICE_TEXT : string :=
  "**<center>You have reached the end of this story arc. "
  ++ "Feel free to continue, or if you would like to start a new arc, "
  ++ "click Reset Arc in the Story Mode settings.</center>**".

(** The handler of [GENERATION_STARTED]. *)
Definition onGenerationStarted : M unit :=
  modify (set_isLoadingChat false) ;;
  chat <- gets chat ;;
  if (0 <? List.length chat)%nat then
    modify (set_isRegenerating false) ;;  (* fresh generation *)
    updateStoryPrompt
  else
    modify (set_isRegenerating true).

(** The handler of [MESSAGE_SWIPED]. *)
Definition onMessageSwiped : M unit :=
  modify (set_isRegenerating true) ;;
  updateStoryPrompt.

(** The handler of [MESSAGE_REGENERATED], registered when the host has
    that event. *)
Definition onMessageRegenerated : M unit :=
  modify (set_isRegenerating true) ;;
  updateStoryPrompt.

(** The [else if (currentStep === arcLength)] branch of [onMessageReceived]
    is a sequence of three steps.  After an [await] the fields of
    [chatState] are read again from the object in the store. *)

(** Generate and push the epilogue if enabled and not yet shown. *)
Definition epilogueStep (host : Generator) (settings : Settings.t) : M unit :=
  chatState <- getChatStoryState ;;
  when (Settings.epilogueEnabled settings && negb (ChatState.epilogueShown chatState))
    (epilogue <- generateEpilogueForStory host ;;
     when (truthy epilogue)
       (pushStoryMessage epilogue ;;
        chatState <- assignChatState (ChatState.set_epilogueShown true) ;;
        saveChatStoryState chatState)).

(** Generate and push the summary if enabled and not yet shown. *)
Definition summaryStep (host : Generator) (settings : Settings.t) : M unit :=
  chatState <- getChatStoryState ;;
  when (Settings.summaryEnabled settings && negb (ChatState.summaryShown chatState))
    (summary <- summarizeChatMainForStory host ;;
     when (truthy summary)
       (pushStoryMessage summary ;;
        chatState <- assignChatState (ChatState.set_summaryShown true) ;;
        saveChatStoryState chatState)).

(** [conditionsMet]: neither option is enabled, or every enabled one has
    been shown. *)
Definition conditionsMet (settings : Settings.t) (chatState : ChatState.t) : bool :=
  (negb (Settings.epilogueEnabled settings) && negb (Settings.summaryEnabled settings))
  || (Settings.epilogueEnabled settings && ChatState.epilogueShown chatState
      && (negb (Settings.summaryEnabled settings) || ChatState.summaryShown chatState))
  || (Settings.summaryEnabled settings && ChatState.summaryShown chatState
      && (negb (Settings.epilogueEnabled settings) || ChatState.epilogueShown chatState)).

(** Show the end notice if the applicable steps are done. *)
Definition noticeStep (settings : Settings.t) : M unit :=
  chatState <- getChatStoryState ;;
  when (conditionsMet settings chatState) (pushStoryMessage NOTICE_TEXT).

Definition completionSequence (host : Generator) (settings : Settings.t) : M unit :=
  epilogueStep host settings ;;
  summaryStep host settings ;;
  noticeStep settings.

Definition onMessageReceived (host : Generator) (data : EventData) : M unit :=
  settings <- gets settings ;;
  if dataIsUser data then ret tt
  else
    loading <- gets isLoadingChat ;;
    if loading then ret tt
    else
      regenerating <- gets isRegenerating ;;
      if regenerating then modify (set_isRegenerating false)
      else if negb (Settings.enabled settings) || negb (Settings.storyArcEnabled settings)
      then ret tt
      else
        chatState <- getChatStoryState ;;
        if ChatState.currentStep chatState <? ChatState.arcLength chatState then
          chatState <- assignChatState
                         (ChatState.set_currentStep (ChatState.currentStep chatState + 1)) ;;
          saveChatStoryState chatState ;;
          updateStoryPrompt ;;
          updateStatusDisplay
        else if ChatState.currentStep chatState =? ChatState.arcLength chatState then
          completionSequence host settings
        else ret tt.

Definition onChatChanged : M unit :=
  modify (set_isRegenerating false) ;;
  modify (set_isLoadingChat true) ;;
  updateStoryPrompt ;;
  updateStatusDisplay ;;
  modify (fun w => set_loadingTimers (S (loadingTimers w)) w).

(** The callback [onChatChanged] hands to [setTimeout]. *)
Definition onLoadingTimeout : M unit :=
  modify (set_isLoadingChat false) ;;
  modify (fun w => set_loadingTimers (Nat.pred (loadingTimers w)) w).

(** The lifecycle signals of the host, each with what it carries. *)
Inductive Signal : Type :=
| GENERATION_STARTED
| MESSAGE_SWIPED
| MESSAGE_REGENERATED
| MESSAGE_RECEIVED (host : Generator) (data : EventData)
| CHAT_CHANGED
| LOADING_TIMEOUT.

Definition dispatch (signal : Signal) : M unit :=
  match signal with
  | GENERATION_STARTED => onGenerationStarted
  | MESSAGE_SWIPED => onMessageSwiped
  | MESSAGE_REGENERATED => onMessageRegenerated
  | MESSAGE_RECEIVED host data => onMessageReceived host data
  | CHAT_CHANGED => onChatChanged
  | LOADING_TIMEOUT => onLoadingTimeout
  end.

(** The state a signal leaves behind; an exception of a handler is the
    host's to log, the state stays as the handler left it. *)
Definition deliver (signal : Signal) (w : World) : World :=
  worldOf (dispatch signal w).

Definition run (signals : list Signal) (w : World) : World :=
  fold_left (fun w signal => deliver signal w) signals w.

(** The arc state of the current chat as [getChatStoryState] shows it. *)
Definition chatStateOf (w : World) : ChatState.t :=
  match chatMetadata w with
  | Some state => state
  | None => initialChatState (settings w)
  end.

Definition currentStepOf (w : World) : Z := ChatState.currentStep (chatStateOf w).
Definition arcLengthOf (w : World) : Z := ChatState.arcLength (chatStateOf w).

(** A message-received signal that reaches the step counter: an assistant
    message, no chat loading, no pending regeneration, feature and arc
    enabled. *)
Definition counted (w : World) (data : EventData) : bool :=
  negb (dataIsUser data) && negb (isLoadingChat w) && negb (isRegenerating w)
  && Settings.enabled (settings w) && Settings.storyArcEnabled (settings w).

(** ** The effects of the elementary steps, in closed form *)

(** [getChatStoryState]: the metadata holds the state afterwards. *)
Definition touch (w : World) : World :=
  set_chatMetadata (Some (chatStateOf w)) w.

(** [pushStoryMessage text]. *)
Definition pushed (text : string) (w : World) : World :=
  set_rendered (rendered w ++ [storyMessage text])%list
    (set_chat (chat w ++ [storyMessage text])%list w).

(** An assignment [f] to the chat state followed by [saveChatStoryState]. *)
Definition stored (f : ChatState.t -> ChatState.t) (w : World) : World :=
  set_savedMetadata (f (chatStateOf w) :: savedMetadata w)
    (set_chatMetadata (Some (f (chatStateOf w))) w).

(** Whether [buildFullInjection isPreview] throws: the feature is on and
    the story part is to be composed from an entry without a template. *)
Definition injectionThrows (isPreview : bool) (w : World) : bool :=
  Settings.enabled (settings w)
  && match storyPart (settings w) (chatStateOf w) (storyTypes w) isPreview with
     | Some _ => false
     | None => true
     end.

(** The story part when it is composed, nothing otherwise. *)
Definition storySegments (w : World) (isPreview : bool) : list string :=
  match storyPart (settings w) (chatStateOf w) (storyTypes w) isPreview with
  | Some story => story
  | None => []
  end.

(** The text [buildFullInjection isPreview] returns, when it returns. *)
Definition injectionText (isPreview : bool) (w : World) : string :=
  if negb (Settings.enabled (settings w)) then ""
  else join (nl ++ nl)
         (storySegments w isPreview
          ++ stylePart (settings w) (chatStateOf w) (authorStyles w))%list.

(** A handler that has reached the state [w] and then throws, or
    returns. *)
Definition outcome (throws : bool) (w : World) : Res unit :=
  if throws then Threw w else Ok tt w.

Definition clearedPrompt : ExtensionPrompt :=
  {| promptText := ""; promptPosition := NONE; promptDepth := 0; promptRole := None |}.

(** The state [updateStoryPrompt] leaves: when the composition throws, no
    prompt is installed. *)
Definition prompted (w : World) : World :=
  if negb (Settings.enabled (settings w))
  then set_extensionPrompt (Some clearedPrompt) w
  else if injectionThrows false w then touch w
  else if negb (truthy (injectionText false w))
  then set_extensionPrompt (Some clearedPrompt) (touch w)
  else set_extensionPrompt
         (Some {| promptText := injectionText false w;
                  promptPosition := Settings.position (settings w);
                  promptDepth := Settings.depth (settings w);
                  promptRole := Some (Settings.role (settings w)) |})
         (touch w).

(** Two worlds with the same step counter, arc length, settings and
    transient flags. *)
Definition sameArc (w w' : World) : Prop :=
  currentStepOf w' = currentStepOf w
  /\ arcLengthOf w' = arcLengthOf w
  /\ settings w' = settings w
  /\ isRegenerating w' = isRegenerating w
  /\ isLoadingChat w' = isLoadingChat w.

(** The signals that may come between a swipe and the checkpoint that
    follows it without ending the suppression: message-received signals for
    user messages, expiries of the chat-loading timer, further swipes and
    regenerations. *)
Definition beforeCheckpoint (signal : Signal) : bool :=
  match signal with
  | MESSAGE_RECEIVED _ data => dataIsUser data
  | LOADING_TIMEOUT | MESSAGE_SWIPED | MESSAGE_REGENERATED => true
  | _ => false
  end.

(** The signals that may come between the suppressed checkpoint and the
    next one without setting the flag again: message-received signals for
    user messages, expiries of the chat-loading timer, and the
    generation-about-to-start signal of the next generation. *)
Definition afterCheckpoint (signal : Signal) : bool :=
  match signal with
  | MESSAGE_RECEIVED _ data => dataIsUser data
  | LOADING_TIMEOUT | GENERATION_STARTED => true
  | _ => false
  end.

(** Two worlds that differ at most in the installed prompt, the lazily
    initialised metadata and the pending timers. *)
Definition calm (w w' : World) : Prop :=
  sameArc w w' /\ chat w' = chat w /\ savedMetadata w' = savedMetadata w.

(** The signals that set the regeneration flag unconditionally. *)
Definition swipeSignal (signal : Signal) : bool :=
  match signal with
  | MESSAGE_SWIPED | MESSAGE_REGENERATED => true
  | _ => false
  end.

(** ** Templates as the specification reads them

    The specification's TemplateRenderer maps a template, seen as literal
    text interleaved with placeholders [{name}], to the text in which each
    recognized placeholder is replaced by its value and every other one is
    kept.  [renderSpec] is that reading; it is compared below with the chain
    of replacements of the source, [progressText]. *)

Inductive Piece : Type :=
| Lit (text : string)
| Tok (name : string).

Fixpoint noChar (c : ascii) (s : string) : bool :=
  match s with
  | EmptyString => true
  | String a s' => negb (Ascii.eqb a c) && noChar c s'
  end.

(** Literal text holds no opening brace, a placeholder name no brace. *)
Definition wellFormed (p : Piece) : bool :=
  match p with
  | Lit text => noChar "{" text
  | Tok name => noChar "{" name && noChar "}" name
  end.

Definition pieceText (p : Piece) : string :=
  match p with
  | Lit text => text
  | Tok name => String "{" (name ++ "}")
  end.

Definition templateText (pieces : list Piece) : string :=
  fold_right (fun p rest => pieceText p ++ rest) "" pieces.

(** The nine recognized placeholders and the value each one stands for,
    for a step [step] of an arc of length [arcLength] whose phase
    classification is [info]. *)
Definition placeholderValue (step arcLength : Z) (info : PhaseInfo) (name : string)
  : option string :=
  if String.eqb name "currentStep" then Some (JsNumber.decimal step)
  else if String.eqb name "arcLength" then Some (JsNumber.decimal arcLength)
  else if String.eqb name "arcPercent"
       then Some (JsNumber.toString (JsNumber.roundPercent step arcLength))
  else if String.eqb name "phase" then Some (phaseName (phase info))
  else if String.eqb name "positionInPhase" then Some (JsNumber.decimal (positionInPhase info))
  else if String.eqb name "totalInPhase" then Some (JsNumber.decimal (totalInPhase info))
  else if String.eqb name "phasePercent" then Some (JsNumber.toString (percentInPhase info))
  else if String.eqb name "phaseStart" then Some (JsNumber.decimal (phaseStart info))
  else if String.eqb name "phaseEnd" then Some (JsNumber.decimal (phaseEnd info))
  else None.

Definition renderPiece (value : string -> option string) (p : Piece) : string :=
  match p with
  | Lit text => text
  | Tok name =>
      match value name with
      | Some v => v
      | None => pieceText p
      end
  end.

Definition renderSpec (value : string -> option string) (pieces : list Piece) : string :=
  fold_right (fun p rest => renderPiece value p ++ rest) "" pieces.

(** ** The specification's renderer on any text

    A placeholder is an opening brace, a name without braces and a closing
    brace.  [substitute] reads a text from left to right: a placeholder whose
    name has a value is replaced by the value, every other character is
    copied, the opening brace of an unknown placeholder and a brace that
    opens no placeholder included. *)

(** The name of the placeholder an opening brace starts, read from the text
    behind the brace: the text up to the first closing brace, when no
    opening brace comes before it. *)
Fixpoint placeholderName (s : string) : option string :=
  match s with
  | EmptyString => None
  | String c s' =>
      if Ascii.eqb c "}" then Some ""
      else if Ascii.eqb c "{" then None
      else option_map (String c) (placeholderName s')
  end.

(** [skip] counts the characters of a replaced placeholder that remain to
    be passed over. *)
Fixpoint substituteFrom (value : string -> option string) (skip : nat) (s : string)
  : string :=
  match s with
  | EmptyString => EmptyString
  | String c s' =>
      match skip with
      | S k => substituteFrom value k s'
      | O =>
          if Ascii.eqb c "{" then
            match placeholderName s' with
            | Some name =>
                match value name with
                | Some v => v ++ substituteFrom value (S (String.length name)) s'
                | None => String c (substituteFrom value 0 s')
                end
            | None => String c (substituteFrom value 0 s')
            end
          else String c (substituteFrom value 0 s')
      end
  end.

Definition substitute (value : string -> option string) (s : string) : string :=
  substituteFrom value 0 s.

(** The value a table of names and values gives a name. *)
Fixpoint valuesFrom (table : list (string * string)) (name : string) : option string :=
  match table with
  | [] => None
  | (k, v) :: rest => if String.eqb name k then Some v else valuesFrom rest name
  end.

(** The names and values of [buildPhaseInjection], in the order of its
    replacements. *)
Definition placeholderTable (step arcLength : Z) (info : PhaseInfo)
  : list (string * string) :=
  [ ("currentStep", JsNumber.decimal step);
    ("arcLength", JsNumber.decimal arcLength);
    ("arcPercent", JsNumber.toString (JsNumber.roundPercent step arcLength));
    ("phase", phaseName (phase info));
    ("positionInPhase", JsNumber.decimal (positionInPhase info));
    ("totalInPhase", JsNumber.decimal (totalInPhase info));
    ("phasePercent", JsNumber.toString (percentInPhase info));
    ("phaseStart", JsNumber.decimal (phaseStart info));
    ("phaseEnd", JsNumber.decimal (phaseEnd info)) ].

(** One global replacement after the other. *)
Definition replaceEach (table : list (string * string)) (s : string) : string :=
  fold_left (fun text entry => replaceAll (String "{" (fst entry ++ "}")) (snd entry) text)
            table s.

(** [v] occurs in [n]. *)
Fixpoint occursIn (v n : string) : bool :=
  String.prefix v n
  || match n with
     | EmptyString => false
     | String _ n' => occursIn v n'
     end.

Definition noBrace (s : string) : bool := noChar "{" s && noChar "}" s.

(** A table whose replacements do not interfere: names and values hold no
    brace, and no value occurs in a name that is replaced later. *)
Fixpoint chainable (table : list (string * string)) : Prop :=
  match table with
  | [] => True
  | (k, v) :: rest =>
      noBrace k = true /\ noBrace v = true
      /\ (forall n, In n (map fst rest) -> occursIn v n = false)
      /\ chainable rest
  end.

(** The first characters of a decimal numeral. *)
Definition signAndDigits : list ascii :=
  ["-"; "0"; "1"; "2"; "3"; "4"; "5"; "6"; "7"; "8"; "9"]%char.

(** ** Sample catalog, settings and chats *)

(** The progress template [addStoryType] gives a new story type. *)
Definition defaultProgressTemplate : string :=
  "Arc Progress: Step {currentStep}/{arcLength} ({arcPercent}% complete). Phase: {phase} - Message {positionInPhase}/{totalInPhase} ({phasePercent}% through {phase}).".

Definition noirDetective : StoryType :=
  {| storyTypeId := "noir_detective";
     storyTypeName := "Noir Detective";
     storyPrompt := Some "A rain-soaked city, a case nobody wants.";
     progressTemplate := Some defaultProgressTemplate;
     phasePrompts :=
       Some (fun p =>
               match p with
               | setup => Some "Introduce the client and the case."
               | confrontation => Some "Tighten the net; betrayals surface."
               | resolution => Some "Reveal the culprit and the cost."
               end) |}.

(** Scenario D of the specification. *)
Definition scenarioDTemplate : list Piece :=
  [Tok "currentStep"; Lit "/"; Tok "arcLength"; Lit " - "; Tok "unknownToken"].

Definition scenarioDStoryType : StoryType :=
  {| storyTypeId := "scenario_d";
     storyTypeName := "Scenario D";
     storyPrompt := None;
     progressTemplate := Some "{currentStep}/{arcLength} - {unknownToken}";
     phasePrompts := None |}.

Definition hardboiled : AuthorStyle :=
  {| authorStyleId := "hardboiled";
     authorStyleName := "Hardboiled";
     authorPrompt := "Short sentences. Dry wit.";
     nsfwPrompt := None |}.

Definition sampleSettings (epilogue summary : bool) : Settings.t :=
  {| Settings.enabled := true;
     Settings.storyArcEnabled := true;
     Settings.selectedStoryType := "noir_detective";
     Settings.selectedAuthorStyle := "hardboiled";
     Settings.arcLength := 30;
     Settings.currentStep := 0;
     Settings.authorStyleEnabled := true;
     Settings.nsfwEnabled := false;
     Settings.epilogueEnabled := epilogue;
     Settings.summaryEnabled := summary;
     Settings.summaryMessageCount := 0;
     Settings.debugMode := false;
     Settings.position := IN_CHAT;
     Settings.depth := 4;
     Settings.role := SYSTEM;
     Settings.summaryWords := None;
     Settings.summaryMaxTokens := None |}.

Definition sampleChatState (step length : Z) (storyTypeId : string) : ChatState.t :=
  {| ChatState.currentStep := step;
     ChatState.arcStarted := false;
     ChatState.epilogueShown := false;
     ChatState.summaryShown := false;
     ChatState.selectedStoryType := storyTypeId;
     ChatState.selectedAuthorStyle := "hardboiled";
     ChatState.arcLength := length |}.

Definition openingMessages : list Message :=
  [ {| is_user := true; mes := "The door creaks open."; is_system := false;
       name := "User"; force_avatar := None |};
    {| is_user := false; mes := "She stepped in out of the rain."; is_system := false;
       name := "Narrator"; force_avatar := None |} ].

Definition sampleWorld (s : Settings.t) (state : ChatState.t) : World :=
  {| settings := s;
     storyTypes := [noirDetective; scenarioDStoryType];
     authorStyles := [hardboiled];
     isRegenerating := false;
     isLoadingChat := false;
     chat := openingMessages;
     chatMetadata := Some state;
     savedMetadata := [];
     rendered := [];
     extensionPrompt := None;
     loadingTimers := 0 |}.

(** Hosts whose [generateRaw] always rejects, and always resolves to the
    same text. *)
Definition failingHost : Generator := fun _ => Rejects.
Definition constantHost (text : string) : Generator := fun _ => Resolves (Some text).

Definition assistantMessage : EventData := Data false.
Definition userMessage : EventData := Data true.

(** The default progress template, piece by piece. *)
Definition defaultTemplatePieces : list Piece :=
  [ Lit "Arc Progress: Step "; Tok "currentStep"; Lit "/"; Tok "arcLength";
    Lit " ("; Tok "arcPercent"; Lit "% complete). Phase: "; Tok "phase";
    Lit " - Message "; Tok "positionInPhase"; Lit "/"; Tok "totalInPhase";
    Lit " ("; Tok "phasePercent"; Lit "% through "; Tok "phase"; Lit ")." ].

(** The nine placeholder names [buildPhaseInjection] replaces. *)
Definition recognizedPlaceholders : list string :=
  [ "currentStep"; "arcLength"; "arcPercent"; "phase"; "positionInPhase";
    "totalInPhase"; "phasePercent"; "phaseStart"; "phaseEnd" ].

(** Settings with the feature switched off and everything else on. *)
Definition disabledSettings : Settings.t :=
  {| Settings.enabled := false;
     Settings.storyArcEnabled := true;
     Settings.selectedStoryType := "noir_detective";
     Settings.selectedAuthorStyle := "hardboiled";
     Settings.arcLength := 30;
     Settings.currentStep := 0;
     Settings.authorStyleEnabled := true;
     Settings.nsfwEnabled := true;
     Settings.epilogueEnabled := true;
     Settings.summaryEnabled := true;
     Settings.summaryMessageCount := 0;
     Settings.debugMode := true;
     Settings.position := IN_CHAT;
     Settings.depth := 4;
     Settings.role := SYSTEM;
     Settings.summaryWords := None;
     Settings.summaryMaxTokens := None |}.

(** Scenario A: a fresh arc of 15 steps. *)
Definition scenarioAWorld : World :=
  sampleWorld (sampleSettings false false) (sampleChatState 0 15 "noir_detective").

(** Scenario C: the arc of 10 steps is complete, no epilogue, no summary. *)
Definition scenarioCWorld : World :=
  sampleWorld (sampleSettings false false) (sampleChatState 10 10 "noir_detective").

(** A complete arc with both post-arc options enabled. *)
Definition postArcWorld : World :=
  sampleWorld (sampleSettings true true) (sampleChatState 10 10 "noir_detective").

(** A complete arc with only the epilogue enabled. *)
Definition epilogueOnlyWorld : World :=
  sampleWorld (sampleSettings true false) (sampleChatState 10 10 "noir_detective").

(** A running arc of 30 steps, two messages in the chat. *)
Definition runningWorld : World :=
  sampleWorld (sampleSettings false false) (sampleChatState 5 30 "noir_detective").

(** ** Ranges of arc lengths and steps *)

(** The integers [lo], [lo + 1], ..., [lo + n - 1]. *)
Definition rangeZ (lo : Z) (n : nat) : list Z :=
  map (fun i => lo + Z.of_nat i) (seq 0 n).

(** The two phase boundaries of [getPhaseInfo], as it computes them. *)
Definition setupEndOf (arcLength : Z) : Z :=
  JsNumber.floorZ (JsNumber.mul (JsNumber.ofZ arcLength) (JsNumber.literal 33 100)).

Definition confrontationEndOf (arcLength : Z) : Z :=
  JsNumber.floorZ (JsNumber.mul (JsNumber.ofZ arcLength) (JsNumber.literal 66 100)).

(** The order of the phases in an arc. *)
Definition phaseRank (p : Phase) : Z :=
  match p with
  | setup => 0
  | confrontation => 1
  | resolution => 2
  end.

(** [Math.round((p / t) * 100)] is an integer from 0 to 100 nearest to
    [100 p / t]. *)
Definition percentCheck (t p : Z) : bool :=
  match JsNumber.roundPercent p t with
  | JsNumber.Int q => (0 <=? q) && (q <=? 100) && (Z.abs (2 * t * q - 200 * p) <=? t)
  | _ => false
  end.

(** ** Further signals and sample states *)

(** A message-received signal, whatever it carries. *)
Definition messageSignal (signal : Signal) : bool :=
  match signal with
  | MESSAGE_RECEIVED _ _ => true
  | _ => false
  end.

(** A fresh chat: no message yet, no [story_mode] metadata. *)
Definition freshChatWorld : World :=
  {| settings := sampleSettings false false;
     storyTypes := [noirDetective; scenarioDStoryType];
     authorStyles := [hardboiled];
     isRegenerating := false;
     isLoadingChat := true;
     chat := [];
     chatMetadata := None;
     savedMetadata := [];
     rendered := [];
     extensionPrompt := None;
     loadingTimers := 1 |}.

(** A chat that has just been opened: its history is being replayed. *)
Definition loadingWorld : World := set_isLoadingChat true runningWorld.

(** The last [n] elements of a list. *)
Definition lastN {A : Type} (n : nat) (l : list A) : list A :=
  skipn (List.length l - n) l.

(** Two worlds with the same arc state, settings, catalogs, chat, rendered
    messages and saved metadata: they differ at most in the transient
    flags, the installed prompt and the pending timers. *)
Definition sameStory (w w' : World) : Prop :=
  chatStateOf w' = chatStateOf w
  /\ settings w' = settings w
  /\ storyTypes w' = storyTypes w
  /\ authorStyles w' = authorStyles w
  /\ chat w' = chat w
  /\ rendered w' = rendered w
  /\ savedMetadata w' = savedMetadata w.

(** The feature switched off, with a chat of five steps out of thirty. *)
Definition switchedOffWorld : World :=
  sampleWorld disabledSettings (sampleChatState 5 30 "noir_detective").

(** Every non-system message of the chat is empty or whitespace. *)
Fixpoint blank (s : string) : bool :=
  match s with
  | EmptyString => true
  | String c s' => isWhitespace c && blank s'
  end.

Definition noStoryText (chat : list Message) : bool :=
  forallb (fun m => is_system m || blank (mes m)) chat.

(** A complete arc whose chat holds only a system message and a blank
    one. *)
Definition blankChatWorld : World :=
  set_chat
    [ {| is_user := false; mes := "Chat created."; is_system := true;
         name := "System"; force_avatar := None |};
      {| is_user := false; mes := "   "; is_system := false;
         name := "Narrator"; force_avatar := None |} ]
    postArcWorld.

(** A running arc one step before its end. *)
Definition lastStepWorld : World :=
  sampleWorld (sampleSettings false false) (sampleChatState 9 10 "noir_detective").

(** ** The settings dialog: [setupDialogEventListeners]

    The handlers of the dialog assign to [extension_settings[MODULE_NAME]]
    and to the chat state; [saveSettingsDebounced] hands the settings to the
    host and the page updates write to the page, neither changes the state
    of the module. *)

Definition set_settings (s : Settings.t) (w : World) : World :=
  {| settings := s; storyTypes := storyTypes w;
     authorStyles := authorStyles w; isRegenerating := isRegenerating w;
     isLoadingChat := isLoadingChat w; chat := chat w;
     chatMetadata := chatMetadata w; savedMetadata := savedMetadata w;
     rendered := rendered w; extensionPrompt := extensionPrompt w;
     loadingTimers := loadingTimers w |}.

Definition set_storyTypes (l : list StoryType) (w : World) : World :=
  {| settings := settings w; storyTypes := l;
     authorStyles := authorStyles w; isRegenerating := isRegenerating w;
     isLoadingChat := isLoadingChat w; chat := chat w;
     chatMetadata := chatMetadata w; savedMetadata := savedMetadata w;
     rendered := rendered w; extensionPrompt := extensionPrompt w;
     loadingTimers := loadingTimers w |}.

(** Assignments to one field of the settings object and of the chat
    state. *)
Module Assign.
Definition arcLength (n : Z) (s : Settings.t) : Settings.t :=
  {| Settings.enabled := Settings.enabled s;
     Settings.storyArcEnabled := Settings.storyArcEnabled s;
     Settings.selectedStoryType := Settings.selectedStoryType s;
     Settings.selectedAuthorStyle := Settings.selectedAuthorStyle s;
     Settings.arcLength := n;
     Settings.currentStep := Settings.currentStep s;
     Settings.authorStyleEnabled := Settings.authorStyleEnabled s;
     Settings.nsfwEnabled := Settings.nsfwEnabled s;
     Settings.epilogueEnabled := Settings.epilogueEnabled s;
     Settings.summaryEnabled := Settings.summaryEnabled s;
     Settings.summaryMessageCount := Settings.summaryMessageCount s;
     Settings.debugMode := Settings.debugMode s;
     Settings.position := Settings.position s;
     Settings.depth := Settings.depth s;
     Settings.role := Settings.role s;
     Settings.summaryWords := Settings.summaryWords s;
     Settings.summaryMaxTokens := Settings.summaryMaxTokens s |}.

Definition selectedStoryType (id : string) (s : Settings.t) : Settings.t :=
  {| Settings.enabled := Settings.enabled s;
     Settings.storyArcEnabled := Settings.storyArcEnabled s;
     Settings.selectedStoryType := id;
     Settings.selectedAuthorStyle := Settings.selectedAuthorStyle s;
     Settings.arcLength := Settings.arcLength s;
     Settings.currentStep := Settings.currentStep s;
     Settings.authorStyleEnabled := Settings.authorStyleEnabled s;
     Settings.nsfwEnabled := Settings.nsfwEnabled s;
     Settings.epilogueEnabled := Settings.epilogueEnabled s;
     Settings.summaryEnabled := Settings.summaryEnabled s;
     Settings.summaryMessageCount := Settings.summaryMessageCount s;
     Settings.debugMode := Settings.debugMode s;
     Settings.position := Settings.position s;
     Settings.depth := Settings.depth s;
     Settings.role := Settings.role s;
     Settings.summaryWords := Settings.summaryWords s;
     Settings.summaryMaxTokens := Settings.summaryMaxTokens s |}.

Definition chatArcLength (n : Z) (s : ChatState.t) : ChatState.t :=
  {| ChatState.currentStep := ChatState.currentStep s;
     ChatState.arcStarted := ChatState.arcStarted s;
     ChatState.epilogueShown := ChatState.epilogueShown s;
     ChatState.summaryShown := ChatState.summaryShown s;
     ChatState.selectedStoryType := ChatState.selectedStoryType s;
     ChatState.selectedAuthorStyle := ChatState.selectedAuthorStyle s;
     ChatState.arcLength := n |}.

Definition chatArcStarted (b : bool) (s : ChatState.t) : ChatState.t :=
  {| ChatState.currentStep := ChatState.currentStep s;
     ChatState.arcStarted := b;
     ChatState.epilogueShown := ChatState.epilogueShown s;
     ChatState.summaryShown := ChatState.summaryShown s;
     ChatState.selectedStoryType := ChatState.selectedStoryType s;
     ChatState.selectedAuthorStyle := ChatState.selectedAuthorStyle s;
     ChatState.arcLength := ChatState.arcLength s |}.

Definition chatSelectedStoryType (id : string) (s : ChatState.t) : ChatState.t :=
  {| ChatState.currentStep := ChatState.currentStep s;
     ChatState.arcStarted := ChatState.arcStarted s;
     ChatState.epilogueShown := ChatState.epilogueShown s;
     ChatState.summaryShown := ChatState.summaryShown s;
     ChatState.selectedStoryType := id;
     ChatState.selectedAuthorStyle := ChatState.selectedAuthorStyle s;
     ChatState.arcLength := ChatState.arcLength s |}.
End Assign.

(** [updateArcBadgeInDialog] reads the chat state and writes the badge. *)
Definition updateArcBadgeInDialog : M unit :=
  _ <- getChatStoryState ;; ret tt.

(** [updatePreviewInDialog] composes the preview and writes it. *)
Definition updatePreviewInDialog : M unit :=
  _ <- buildFullInjection true ;; ret tt.

(** The [input] handler of [#arc_length_slider]; [value] is the integer
    [parseInt] reads from the slider.  It does not call
    [updateStoryPrompt]. *)
Definition onArcLengthInput (value : Z) : M unit :=
  modify (fun w => set_settings (Assign.arcLength value (settings w)) w) ;;
  chatState <- assignChatState (Assign.chatArcLength value) ;;
  saveChatStoryState chatState ;;
  updateArcBadgeInDialog ;;
  updatePreviewInDialog ;;
  updateStatusDisplay.

(** The [change] handler of [#story_type_select]; [selectedType] is the
    value of the chosen option, empty for "None". *)
Definition onStoryTypeSelect (selectedType : string) : M unit :=
  modify (fun w => set_settings (Assign.selectedStoryType selectedType (settings w)) w) ;;
  chatState <- assignChatState (Assign.chatSelectedStoryType selectedType) ;;
  saveChatStoryState chatState ;;
  updateStoryPrompt ;;
  updatePreviewInDialog ;;
  updateStatusDisplay.

(** The four assignments of the reset button. *)
Definition resetArc (s : ChatState.t) : ChatState.t :=
  ChatState.set_summaryShown false
    (ChatState.set_epilogueShown false
       (Assign.chatArcStarted false (ChatState.set_currentStep 0 s))).

(** The [click] handler of [#reset_arc_btn]; [confirmed] is the answer to
    its [confirm] box. *)
Definition onResetArc (confirmed : bool) : M unit :=
  when confirmed
    (chatState <- assignChatState resetArc ;;
     saveChatStoryState chatState ;;
     updateArcBadgeInDialog ;;
     updateStoryPrompt ;;
     updatePreviewInDialog ;;
     updateStatusDisplay).

(** A running arc whose chat has seen its epilogue. *)
Definition finishedWorld : World :=
  sampleWorld (sampleSettings true false)
    {| ChatState.currentStep := 10;
       ChatState.arcStarted := false;
       ChatState.epilogueShown := true;
       ChatState.summaryShown := false;
       ChatState.selectedStoryType := "noir_detective";
       ChatState.selectedAuthorStyle := "hardboiled";
       ChatState.arcLength := 10 |}.

(** ** The catalogs: lookup, merge, removal, storage

    The story types and the author styles are kept in two arrays handled by
    twin functions; [idOf] and [nameOf] read the [id] and the [name] of an
    entry, a missing one reads as the empty string. *)

Section Catalog.
Context {A : Type} (idOf nameOf : A -> string).

(** [items.find(t => t.id === id)] *)
Definition findById (id : string) (items : list A) : option A :=
  find (fun t => String.eqb (idOf t) id) items.

(** [items.findIndex(t => t.id === id)]; [None] stands for [-1]. *)
Fixpoint findIndex (id : string) (items : list A) : option nat :=
  match items with
  | [] => None
  | t :: rest =>
      if String.eqb (idOf t) id then Some 0%nat
      else option_map S (findIndex id rest)
  end.

(** [items[index] = item] for an index inside the array, the only ones
    [findIndex] gives. *)
Fixpoint assignAt (index : nat) (item : A) (items : list A) : list A :=
  match items, index with
  | [], _ => []
  | _ :: rest, O => item :: rest
  | t :: rest, S i => t :: assignAt i item rest
  end.

(** The body of the merge loops: replace the entry of the same id, or
    push. *)
Definition mergeItem (item : A) (items : list A) : list A :=
  match findIndex (idOf item) items with
  | Some existing => assignAt existing item items
  | None => (items ++ [item])%list
  end.

(** The migration loop at start-up: every entry is merged. *)
Definition mergeAll (incoming items : list A) : list A :=
  fold_left (fun items item => mergeItem item items) incoming items.

(** [!type.id || !type.name] *)
Definition invalidEntry (item : A) : bool :=
  negb (truthy (idOf item)) || negb (truthy (nameOf item)).

(** The loop of [importStoryTypes] and [importAuthorStyles]: an entry
    without id or name throws out of the [forEach]; the boolean tells
    whether that happened.  The entries merged before stay merged. *)
Fixpoint mergeImported (imported items : list A) : list A * bool :=
  match imported with
  | [] => (items, false)
  | item :: rest =>
      if invalidEntry item then (items, true)
      else mergeImported rest (mergeItem item items)
  end.


(** [saveStoryTypesToStorage], [saveAuthorStylesToStorage]: [setItem]
    under the key of the catalog; when the store rejects ([writable] false)
    the error is caught and the key keeps its value. *)
Definition saveToStorage (writable : bool) (items : list A)
    (stored : option (list A)) : option (list A) :=
  if writable then Some items else stored.

(** The catalog in memory and under its key after an import of the parsed
    array [imported]: the store is written only when the loop did not
    throw. *)
Definition importCatalog (writable : bool) (imported items : list A)
    (stored : option (list A)) : list A * option (list A) :=
  let (merged, failed) := mergeImported imported items in
  if failed then (merged, stored)
  else (merged, saveToStorage writable merged stored).

(** [loadStoryTypes], [loadAuthorStyles]: a stored array that is not empty
    is taken; otherwise the packaged file, when it can be fetched ([file]),
    is taken and stored; otherwise nothing changes. *)
Definition loadCatalog (writable : bool) (file stored : option (list A))
    (items : list A) : list A * option (list A) :=
  match stored with
  | Some (t :: rest) => (t :: rest, stored)
  | _ =>
      match file with
      | Some data => (data, saveToStorage writable data stored)
      | None => (items, stored)
      end
  end.

End Catalog.

Definition importStoryTypes :=
  importCatalog (A := StoryType) storyTypeId storyTypeName.

Definition importAuthorStyles :=
  importCatalog (A := AuthorStyle) authorStyleId authorStyleName.

Definition loadStoryTypes := loadCatalog (A := StoryType).

Definition loadAuthorStyles := loadCatalog (A := AuthorStyle).


(** Entries for the import examples. *)
Definition gothicRomance : StoryType :=
  {| storyTypeId := "gothic_romance";
     storyTypeName := "Gothic Romance";
     storyPrompt := Some "A house that remembers.";
     progressTemplate := Some defaultProgressTemplate;
     phasePrompts := None |}.

Definition noirRevised : StoryType :=
  {| storyTypeId := "noir_detective";
     storyTypeName := "Noir Detective (revised)";
     storyPrompt := Some "The case nobody wants comes back.";
     progressTemplate := Some defaultProgressTemplate;
     phasePrompts := None |}.

Definition namelessEntry : StoryType :=
  {| storyTypeId := "nameless";
     storyTypeName := "";
     storyPrompt := None;
     progressTemplate := None;
     phasePrompts := None |}.

(** An entry as the import accepts it, with [id] and [name] and without
    [progressTemplate], and a chat that has it selected after the import. *)
Definition bareStoryType : StoryType :=
  {| storyTypeId := "bare";
     storyTypeName := "Bare";
     storyPrompt := Some "A story told without a progress line.";
     progressTemplate := None;
     phasePrompts := None |}.

Definition bareWorld : World :=
  let w := sampleWorld (sampleSettings false false) (sampleChatState 5 30 "bare") in
  set_storyTypes (fst (importStoryTypes true [bareStoryType] (storyTypes w) None)) w.

(** * Properties *)

(** ** Strings and the replacement scan *)

Lemma append_assoc (a b c : string) : (a ++ b) ++ c = a ++ (b ++ c).
Proof.
  induction a as [|x a IH]; simpl; [reflexivity | now rewrite IH].
Qed.

Lemma append_nil_r (a : string) : a ++ "" = a.
Proof.
  induction a as [|x a IH]; simpl; [reflexivity | now rewrite IH].
Qed.

Lemma prefix_cons (a b : ascii) (p s : string) :
  String.prefix (String a p) (String b s) = Ascii.eqb a b && String.prefix p s.
Proof.
  cbn [String.prefix]. destruct (ascii_dec a b) as [->|ne].
  - now rewrite Ascii.eqb_refl.
  - apply Ascii.eqb_neq in ne. now rewrite ne.
Qed.

Lemma prefix_nil (s : string) : String.prefix "" s = true.
Proof. now destruct s. Qed.

Lemma prefix_append (p t : string) : String.prefix p (p ++ t) = true.
Proof.
  induction p as [|x p IH]; cbn [append].
  - apply prefix_nil.
  - now rewrite prefix_cons, Ascii.eqb_refl, IH.
Qed.

Lemma noChar_append (c : ascii) (a b : string) :
  noChar c (a ++ b) = noChar c a && noChar c b.
Proof.
  induction a as [|x a IH]; cbn [append noChar]; [reflexivity|].
  rewrite IH. now rewrite andb_assoc.
Qed.

(** Text without an opening brace is copied by the scan. *)
Lemma replaceFrom_copy (q rep text rest : string) :
  noChar "{" text = true ->
  replaceFrom (String "{" q) rep 0 (text ++ rest)
  = text ++ replaceFrom (String "{" q) rep 0 rest.
Proof.
  induction text as [|x text IH]; intros Hno; [reflexivity|].
  cbn [noChar] in Hno. apply andb_prop in Hno as [Hx Hrest].
  cbn [append replaceFrom]. rewrite prefix_cons.
  rewrite Ascii.eqb_sym. apply negb_true_iff in Hx. rewrite Hx.
  cbn [andb]. f_equal. exact (IH Hrest).
Qed.

(** A pending match is consumed character by character. *)
Lemma replaceFrom_skip (pat rep u rest : string) :
  replaceFrom pat rep (String.length u) (u ++ rest) = replaceFrom pat rep 0 rest.
Proof.
  induction u as [|x u IH]; cbn [String.length append replaceFrom];
    [reflexivity | exact IH].
Qed.

(** At an occurrence of the pattern the replacement is emitted and the scan
    resumes behind the occurrence. *)
Lemma replaceFrom_match (q rep rest : string) :
  replaceFrom (String "{" q) rep 0 (String "{" q ++ rest)
  = rep ++ replaceFrom (String "{" q) rep 0 rest.
Proof.
  cbn [append replaceFrom].
  rewrite prefix_cons, Ascii.eqb_refl, prefix_append. cbn [andb].
  cbn [String.length Nat.sub]. rewrite Nat.sub_0_r.
  now rewrite replaceFrom_skip.
Qed.

(** Two brace-free names followed by a closing brace: one is a prefix of
    the other only when they are equal. *)
Lemma prefix_name_inv (a b rest : string) :
  noChar "}" a = true -> noChar "}" b = true ->
  String.prefix (a ++ "}") ((b ++ "}") ++ rest) = true -> a = b.
Proof.
  revert b. induction a as [|x a IH]; intros [|y b] Ha Hb Hp;
    cbn [append noChar] in *; try rewrite prefix_cons in Hp.
  - reflexivity.
  - apply andb_prop in Hp as [Hxy _]. apply Ascii.eqb_eq in Hxy. subst y.
    now rewrite Ascii.eqb_refl in Hb.
  - apply andb_prop in Hp as [Hxy _]. apply Ascii.eqb_eq in Hxy. subst x.
    now rewrite Ascii.eqb_refl in Ha.
  - apply andb_prop in Ha as [_ Ha]. apply andb_prop in Hb as [_ Hb].
    apply andb_prop in Hp as [Hxy Hp]. apply Ascii.eqb_eq in Hxy. subst y.
    f_equal. now apply IH.
Qed.

(** A placeholder with another name is left as it is. *)
Lemma replaceFrom_other (name n rep rest : string) :
  noChar "}" name = true -> noChar "{" n = true -> noChar "}" n = true ->
  n <> name ->
  replaceFrom (String "{" (name ++ "}")) rep 0 (String "{" (n ++ "}") ++ rest)
  = String "{" (n ++ "}") ++ replaceFrom (String "{" (name ++ "}")) rep 0 rest.
Proof.
  intros Hname Hopen Hclose Hne.
  cbn [append replaceFrom]. rewrite prefix_cons, Ascii.eqb_refl. cbn [andb].
  destruct (String.prefix (name ++ "}") ((n ++ "}") ++ rest)) eqn:Hp.
  - elim Hne. symmetry. now apply (prefix_name_inv name n rest).
  - f_equal. apply replaceFrom_copy.
    rewrite noChar_append, Hopen. reflexivity.
Qed.

Lemma templateText_cons (p : Piece) (pieces : list Piece) :
  templateText (p :: pieces) = pieceText p ++ templateText pieces.
Proof. reflexivity. Qed.

Lemma renderSpec_cons (value : string -> option string) (p : Piece)
    (pieces : list Piece) :
  renderSpec value (p :: pieces) = renderPiece value p ++ renderSpec value pieces.
Proof. reflexivity. Qed.

(** ** The values substituted hold no brace *)

Lemma uint_noOpen (d : Decimal.uint) :
  noChar "{" (NilEmpty.string_of_uint d) = true.
Proof.
  induction d; cbn [NilEmpty.string_of_uint noChar]; try rewrite IHd; reflexivity.
Qed.

Lemma decimal_noOpen (z : Z) : noChar "{" (JsNumber.decimal z) = true.
Proof.
  unfold JsNumber.decimal, NilZero.string_of_int, NilZero.string_of_uint.
  destruct (Z.to_int z) as [d|d]; cbn [noChar];
    destruct d; try reflexivity; apply uint_noOpen.
Qed.

Lemma toString_noOpen (x : JsNumber.integral) :
  noChar "{" (JsNumber.toString x) = true.
Proof.
  destruct x as [z| |[|]]; try reflexivity. apply decimal_noOpen.
Qed.

Lemma phaseName_noOpen (p : Phase) : noChar "{" (phaseName p) = true.
Proof. destruct p; reflexivity. Qed.

(** Nor do they hold a dollar sign, which [replace] would read as a
    pattern in a replacement string. *)
Lemma placeholderValue_plain (step arcLength : Z) (info : PhaseInfo)
    (name value : string) :
  placeholderValue step arcLength info name = Some value ->
  noChar "{" value = true /\ noChar "$" value = true.
Proof.
  assert (Huint : forall d, noChar "$" (NilEmpty.string_of_uint d) = true).
  { induction d; cbn [NilEmpty.string_of_uint noChar]; try rewrite IHd; reflexivity. }
  assert (Hdecimal : forall z, noChar "$" (JsNumber.decimal z) = true).
  { intros z.
    unfold JsNumber.decimal, NilZero.string_of_int, NilZero.string_of_uint.
    destruct (Z.to_int z) as [d|d]; cbn [noChar];
      destruct d; try reflexivity; apply Huint. }
  assert (HtoString : forall x, noChar "$" (JsNumber.toString x) = true).
  { intros [z| |[|]]; try reflexivity. apply Hdecimal. }
  unfold placeholderValue.
  repeat match goal with
         | |- context [String.eqb name ?k] => destruct (String.eqb name k)
         end;
    intros [= <-]; split;
    auto using decimal_noOpen, toString_noOpen, phaseName_noOpen;
    now destruct (phase info).
Qed.

(** ** Placeholders in any text *)

Lemma placeholderName_some (s name : string) :
  placeholderName s = Some name ->
  noChar "{" name = true /\ noChar "}" name = true
  /\ exists rest, s = name ++ String "}" rest.
Proof.
  revert name. induction s as [|c s IH]; intros name H; [discriminate|].
  cbn [placeholderName] in H.
  destruct (Ascii.eqb c "}") eqn:Hclose.
  - apply Ascii.eqb_eq in Hclose. subst c. injection H as <-.
    repeat split. now exists s.
  - destruct (Ascii.eqb c "{") eqn:Hopen; [discriminate|].
    destruct (placeholderName s) as [n|]; [|discriminate].
    injection H as <-. destruct (IH n eq_refl) as (H1 & H2 & rest & ->).
    cbn [noChar]. rewrite Hopen, Hclose, H1, H2. repeat split. now exists rest.
Qed.

Lemma placeholderName_none (s : string) :
  placeholderName s = None ->
  exists u rest,
    s = u ++ rest /\ noChar "{" u = true /\ noChar "}" u = true
    /\ (rest = "" \/ exists rest', rest = String "{" rest').
Proof.
  induction s as [|c s IH]; intros H.
  - exists "", "". repeat split. now left.
  - cbn [placeholderName] in H.
    destruct (Ascii.eqb c "}") eqn:Hclose; [discriminate|].
    destruct (Ascii.eqb c "{") eqn:Hopen.
    + apply Ascii.eqb_eq in Hopen. subst c.
      exists "", (String "{" s). repeat split. right. now exists s.
    + destruct (placeholderName s) as [n|]; [discriminate|].
      destruct (IH eq_refl) as (u & rest & -> & H1 & H2 & Hrest).
      exists (String c u), rest. cbn [noChar append].
      rewrite Hopen, Hclose, H1, H2. now repeat split.
Qed.

Lemma placeholderName_intro (name rest : string) :
  noChar "{" name = true -> noChar "}" name = true ->
  placeholderName (name ++ String "}" rest) = Some name.
Proof.
  induction name as [|c name IH]; intros H1 H2; [reflexivity|].
  cbn [noChar] in H1, H2.
  apply andb_prop in H1 as [Hopen H1]. apply andb_prop in H2 as [Hclose H2].
  apply negb_true_iff in Hopen, Hclose.
  cbn [append placeholderName]. now rewrite Hclose, Hopen, IH.
Qed.

(** Behind brace-free text the name goes on. *)
Lemma placeholderName_through (u t name : string) :
  noChar "{" u = true -> noChar "}" u = true ->
  placeholderName (u ++ t) = Some name ->
  exists b, name = u ++ b /\ placeholderName t = Some b.
Proof.
  revert name. induction u as [|c u IH]; intros name H1 H2 H.
  - now exists name.
  - cbn [noChar] in H1, H2.
    apply andb_prop in H1 as [Hopen H1]. apply andb_prop in H2 as [Hclose H2].
    apply negb_true_iff in Hopen, Hclose.
    cbn [append placeholderName] in H. rewrite Hclose, Hopen in H.
    destruct (placeholderName (u ++ t)) as [n|] eqn:Hn; [|discriminate].
    injection H as <-. destruct (IH n H1 H2 eq_refl) as (b & -> & Hb).
    now exists b.
Qed.

Lemma substituteFrom_skip (value : string -> option string) (u rest : string) :
  substituteFrom value (String.length u) (u ++ rest) = substituteFrom value 0 rest.
Proof.
  induction u as [|x u IH]; cbn [String.length append substituteFrom];
    [reflexivity | exact IH].
Qed.

(** Text without an opening brace is copied. *)
Lemma substitute_copy (value : string -> option string) (text rest : string) :
  noChar "{" text = true ->
  substitute value (text ++ rest) = text ++ substitute value rest.
Proof.
  unfold substitute. induction text as [|x text IH]; intros Hno; [reflexivity|].
  cbn [noChar] in Hno. apply andb_prop in Hno as [Hx Hrest].
  apply negb_true_iff in Hx. cbn [append substituteFrom]. rewrite Hx.
  f_equal. exact (IH Hrest).
Qed.

(** An opening brace that starts no placeholder with a value is copied. *)
Lemma substitute_brace (value : string -> option string) (s : string) :
  match placeholderName s with
  | Some name => value name
  | None => None
  end = None ->
  substitute value (String "{" s) = String "{" (substitute value s).
Proof.
  unfold substitute. intros H. cbn [substituteFrom]. rewrite Ascii.eqb_refl.
  destruct (placeholderName s) as [name|]; [|reflexivity]. now rewrite H.
Qed.

(** A placeholder with a value is replaced by it. *)
Lemma substitute_hole (value : string -> option string) (name v rest : string) :
  noChar "{" name = true -> noChar "}" name = true ->
  value name = Some v ->
  substitute value (String "{" (name ++ String "}" rest)) = v ++ substitute value rest.
Proof.
  unfold substitute. intros H1 H2 Hv. cbn [substituteFrom].
  rewrite Ascii.eqb_refl, (placeholderName_intro _ _ H1 H2), Hv. f_equal.
  change (S (String.length name)) with (S (String.length name)).
  replace (name ++ String "}" rest) with ((name ++ "}") ++ rest)
    by (rewrite append_assoc; reflexivity).
  replace (S (String.length name)) with (String.length (name ++ "}")).
  - apply substituteFrom_skip.
  - clear. induction name as [|c name IH]; cbn [append String.length];
      [reflexivity | now rewrite IH].
Qed.

(** A placeholder without a value is copied. *)
Lemma substitute_unknown (value : string -> option string) (name rest : string) :
  noChar "{" name = true -> noChar "}" name = true ->
  value name = None ->
  substitute value (String "{" (name ++ String "}" rest))
  = String "{" (name ++ String "}" (substitute value rest)).
Proof.
  intros H1 H2 Hv. rewrite substitute_brace
    by now rewrite (placeholderName_intro _ _ H1 H2).
  f_equal. rewrite substitute_copy by exact H1. reflexivity.
Qed.

Lemma substitute_none (s : string) : substitute (fun _ => None) s = s.
Proof.
  unfold substitute. induction s as [|c s IH]; [reflexivity|].
  cbn [substituteFrom]. rewrite IH.
  destruct (Ascii.eqb c "{"); [|reflexivity].
  now destruct (placeholderName s).
Qed.

(** ** One replacement on any text *)

(** A brace that opens no placeholder is no occurrence of the pattern. *)
Lemma prefix_stray (name u rest : string) :
  noChar "{" name = true -> noChar "}" u = true ->
  rest = "" \/ (exists rest', rest = String "{" rest') ->
  String.prefix (name ++ "}") (u ++ rest) = false.
Proof.
  revert u. induction name as [|x name IH]; intros u Hname Hu Hrest.
  - destruct u as [|c u].
    + destruct Hrest as [-> | [rest' ->]]; [reflexivity|].
      cbn [append]. now rewrite prefix_cons.
    + cbn [noChar] in Hu. apply andb_prop in Hu as [Hc _].
      apply negb_true_iff in Hc. cbn [append]. rewrite prefix_cons.
      now rewrite Ascii.eqb_sym, Hc.
  - cbn [noChar] in Hname. apply andb_prop in Hname as [Hx Hname].
    apply negb_true_iff in Hx. destruct u as [|c u].
    + destruct Hrest as [-> | [rest' ->]]; [reflexivity|].
      cbn [append]. rewrite prefix_cons. now rewrite Hx.
    + cbn [noChar] in Hu. apply andb_prop in Hu as [_ Hu].
      cbn [append]. rewrite prefix_cons. rewrite (IH u Hname Hu Hrest).
      apply andb_false_r.
Qed.

Lemma replaceAll_copy (name rep text rest : string) :
  noChar "{" text = true ->
  replaceAll (String "{" (name ++ "}")) rep (text ++ rest)
  = text ++ replaceAll (String "{" (name ++ "}")) rep rest.
Proof. apply replaceFrom_copy. Qed.

Lemma replaceAll_stray (name rep u rest : string) :
  noChar "{" name = true ->
  noChar "{" u = true -> noChar "}" u = true ->
  rest = "" \/ (exists rest', rest = String "{" rest') ->
  replaceAll (String "{" (name ++ "}")) rep (String "{" (u ++ rest))
  = String "{" (u ++ replaceAll (String "{" (name ++ "}")) rep rest).
Proof.
  intros Hname H1 H2 Hrest. unfold replaceAll at 1. cbn [replaceFrom].
  rewrite prefix_cons, Ascii.eqb_refl, (prefix_stray _ _ _ Hname H2 Hrest).
  cbn [andb]. f_equal. now apply replaceFrom_copy.
Qed.

(** Where the text goes on with an opening brace, the replaced text goes
    on with that brace or with the replacement. *)
Lemma replaceAll_head (name rep rest : string) :
  (exists t, replaceAll (String "{" (name ++ "}")) rep (String "{" rest) = String "{" t)
  \/ (exists t, replaceAll (String "{" (name ++ "}")) rep (String "{" rest) = rep ++ t).
Proof.
  unfold replaceAll. cbn [replaceFrom].
  destruct (String.prefix (String "{" (name ++ "}")) (String "{" rest));
    [right | left]; eauto.
Qed.

Lemma occursIn_intro (a v b : string) : occursIn v (a ++ v ++ b) = true.
Proof.
  induction a as [|c a IH].
  - cbn [append]. destruct (v ++ b) eqn:E; cbn [occursIn];
      rewrite <- E, prefix_append; reflexivity.
  - cbn [append occursIn]. rewrite IH. apply orb_true_r.
Qed.

(** The scan for the other names after one replacement is the scan for all
    names before it. *)
Lemma substitute_after_replace (name rep : string) (value : string -> option string) :
  noBrace name = true -> noBrace rep = true ->
  (forall n, value n <> None -> occursIn rep n = false) ->
  forall s,
    substitute value (replaceAll (String "{" (name ++ "}")) rep s)
    = substitute (fun n => if String.eqb n name then Some rep else value n) s.
Proof.
  intros Hname Hrep Hfresh.
  apply andb_prop in Hname as [Hname1 Hname2].
  apply andb_prop in Hrep as [Hrep1 Hrep2].
  set (value' := fun n => if String.eqb n name then Some rep else value n).
  assert (Hlen : forall k s, (String.length s <= k)%nat ->
             substitute value (replaceAll (String "{" (name ++ "}")) rep s)
             = substitute value' s).
  { induction k as [|k IH]; intros s Hs.
    - destruct s; [reflexivity | cbn [String.length] in Hs; lia].
    - destruct s as [|c s]; [reflexivity|]. cbn [String.length] in Hs.
      destruct (Ascii.eqb c "{") eqn:Hc.
      + apply Ascii.eqb_eq in Hc. subst c.
        destruct (placeholderName s) as [n|] eqn:Hn.
        * destruct (placeholderName_some _ _ Hn) as (Hn1 & Hn2 & rest & ->).
          assert (Hshort : (String.length rest <= k)%nat).
          { clear -Hs. revert Hs. induction n as [|x n IHn]; cbn [append String.length];
              intros; [lia | apply IHn; lia]. }
          destruct (String.eqb_spec n name) as [-> | Hne].
          -- replace (String "{" (name ++ String "}" rest))
               with (String "{" (name ++ "}") ++ rest)
               by (cbn [append]; now rewrite append_assoc).
             unfold replaceAll. rewrite replaceFrom_match.
             fold (replaceAll (String "{" (name ++ "}")) rep rest).
             rewrite substitute_copy by exact Hrep1.
             replace (String "{" (name ++ "}") ++ rest)
               with (String "{" (name ++ String "}" rest))
               by (cbn [append]; now rewrite append_assoc).
             rewrite (substitute_hole value' name rep rest Hname1 Hname2)
               by (unfold value'; now rewrite String.eqb_refl).
             f_equal. now apply IH.
          -- replace (String "{" (n ++ String "}" rest))
               with (String "{" (n ++ "}") ++ rest)
               by (cbn [append]; now rewrite append_assoc).
             unfold replaceAll. rewrite replaceFrom_other by assumption.
             fold (replaceAll (String "{" (name ++ "}")) rep rest).
             replace (String "{" (n ++ "}") ++ rest)
               with (String "{" (n ++ String "}" rest))
               by (cbn [append]; now rewrite append_assoc).
             replace (String "{" (n ++ "}")
                      ++ replaceAll (String "{" (name ++ "}")) rep rest)
               with (String "{" (n ++ String "}"
                                   (replaceAll (String "{" (name ++ "}")) rep rest)))
               by (cbn [append]; now rewrite append_assoc).
             assert (Hv : value' n = value n).
             { unfold value'. apply String.eqb_neq in Hne. now rewrite Hne. }
             destruct (value n) as [v|] eqn:Hvalue.
             ++ rewrite (substitute_hole value n v _ Hn1 Hn2 Hvalue).
                rewrite (substitute_hole value' n v _ Hn1 Hn2)
                  by now rewrite Hv.
                f_equal. now apply IH.
             ++ rewrite (substitute_unknown value n _ Hn1 Hn2 Hvalue).
                rewrite (substitute_unknown value' n _ Hn1 Hn2)
                  by now rewrite Hv.
                do 3 f_equal. now apply IH.
        * destruct (placeholderName_none _ Hn) as (u & rest & -> & Hu1 & Hu2 & Hrest).
          assert (Hshort : (String.length rest <= k)%nat).
          { clear -Hs. revert Hs. induction u as [|x u IHu]; cbn [append String.length];
              intros; [lia | apply IHu; lia]. }
          rewrite (replaceAll_stray name rep u rest Hname1 Hu1 Hu2 Hrest).
          rewrite (substitute_brace value' (u ++ rest)) by now rewrite Hn.
          rewrite (substitute_copy value' u rest Hu1).
          rewrite substitute_brace.
          -- rewrite substitute_copy by exact Hu1. do 2 f_equal. now apply IH.
          -- destruct (placeholderName
                         (u ++ replaceAll (String "{" (name ++ "}")) rep rest))
               as [m|] eqn:Hm; [|reflexivity].
             destruct (placeholderName_through _ _ _ Hu1 Hu2 Hm) as (b & -> & Hb).
             destruct Hrest as [-> | [rest' ->]]; [discriminate|].
             destruct (replaceAll_head name rep rest') as [[t Ht]|[t Ht]];
               rewrite Ht in Hb.
             ++ cbn [placeholderName] in Hb. discriminate.
             ++ destruct (placeholderName_through _ _ _ Hrep1 Hrep2 Hb)
                  as (b' & -> & _).
                destruct (value (u ++ rep ++ b')) eqn:Hvalue; [|reflexivity].
                assert (Hocc : occursIn rep (u ++ rep ++ b') = false)
                  by (apply Hfresh; now rewrite Hvalue).
                now rewrite occursIn_intro in Hocc.
      + assert (Hcopy : noChar "{" (String c "") = true)
          by (cbn [noChar]; now rewrite Hc).
        change (String c s) with (String c "" ++ s).
        rewrite replaceAll_copy by exact Hcopy.
        rewrite !substitute_copy by exact Hcopy. f_equal. apply IH. lia. }
  intros s. now apply (Hlen (String.length s)).
Qed.

Lemma valuesFrom_in (table : list (string * string)) (n : string) :
  valuesFrom table n <> None -> In n (map fst table).
Proof.
  induction table as [|[k v] rest IH]; cbn [valuesFrom map fst In]; [congruence|].
  destruct (String.eqb_spec n k) as [-> | _]; [now left | right; now apply IH].
Qed.

(** On any text the chain of replacements of a table that can be chained
    is the one scan that replaces every placeholder of the table. *)
Lemma replaceEach_substitute (table : list (string * string)) :
  chainable table ->
  forall s, replaceEach table s = substitute (valuesFrom table) s.
Proof.
  induction table as [|[k v] rest IH]; intros Hok s.
  - symmetry. apply substitute_none.
  - destruct Hok as (Hk & Hv & Hfresh & Hrest).
    change (replaceEach ((k, v) :: rest) s)
      with (replaceEach rest (replaceAll (String "{" (k ++ "}")) v s)).
    rewrite (IH Hrest).
    rewrite (substitute_after_replace k v (valuesFrom rest) Hk Hv).
    + reflexivity.
    + intros n Hn. apply Hfresh. now apply valuesFrom_in.
Qed.

(** ** The values of the nine placeholders can be chained *)

Lemma uint_noClose (d : Decimal.uint) :
  noChar "}" (NilEmpty.string_of_uint d) = true.
Proof.
  induction d; cbn [NilEmpty.string_of_uint noChar]; try rewrite IHd; reflexivity.
Qed.

Lemma decimal_noClose (z : Z) : noChar "}" (JsNumber.decimal z) = true.
Proof.
  unfold JsNumber.decimal, NilZero.string_of_int, NilZero.string_of_uint.
  destruct (Z.to_int z) as [d|d]; cbn [noChar];
    destruct d; try reflexivity; apply uint_noClose.
Qed.

Lemma decimal_noBrace (z : Z) : noBrace (JsNumber.decimal z) = true.
Proof. unfold noBrace. now rewrite decimal_noOpen, decimal_noClose. Qed.

Lemma toString_noBrace (x : JsNumber.integral) : noBrace (JsNumber.toString x) = true.
Proof. destruct x as [z| |[|]]; try reflexivity. apply decimal_noBrace. Qed.

Lemma phaseName_noBrace (p : Phase) : noBrace (phaseName p) = true.
Proof. now destruct p. Qed.

(** A decimal numeral starts with a digit or the sign. *)
Lemma decimal_head (z : Z) :
  exists c v, JsNumber.decimal z = String c v /\ In c signAndDigits.
Proof.
  unfold JsNumber.decimal, NilZero.string_of_int, NilZero.string_of_uint, signAndDigits.
  destruct (Z.to_int z) as [d|d].
  - destruct d; cbn [NilEmpty.string_of_uint]; eexists; eexists;
      (split; [reflexivity | cbn [In]; tauto]).
  - eexists; eexists. split; [reflexivity | cbn [In]; tauto].
Qed.

Lemma occursIn_head (c : ascii) (v n : string) :
  occursIn (String c v) n = true -> noChar c n = false.
Proof.
  induction n as [|x n IH]; cbn [occursIn noChar]; [discriminate|].
  rewrite prefix_cons. intros H. apply orb_prop in H as [H|H].
  - apply andb_prop in H as [H _]. apply Ascii.eqb_eq in H. subst x.
    now rewrite Ascii.eqb_refl.
  - rewrite (IH H). apply andb_false_r.
Qed.

Lemma fresh_decimal (z : Z) (names : list string) (n : string) :
  forallb (fun n => forallb (fun c => noChar c n) signAndDigits) names = true ->
  In n names -> occursIn (JsNumber.decimal z) n = false.
Proof.
  intros Hnames Hin.
  pose proof (proj1 (forallb_forall _ _) Hnames n Hin) as Hn. cbv beta in Hn.
  destruct (decimal_head z) as (c & v & -> & Hc).
  pose proof (proj1 (forallb_forall _ _) Hn c Hc) as Hfree. cbv beta in Hfree.
  destruct (occursIn (String c v) n) eqn:Hocc; [|reflexivity].
  apply occursIn_head in Hocc. congruence.
Qed.

Lemma fresh_toString (x : JsNumber.integral) (names : list string) (n : string) :
  forallb (fun n => forallb (fun c => noChar c n) signAndDigits) names = true ->
  forallb (fun n => negb (occursIn "NaN" n) && negb (occursIn "Infinity" n)) names = true ->
  In n names -> occursIn (JsNumber.toString x) n = false.
Proof.
  intros Hdigits Hwords Hin.
  pose proof (proj1 (forallb_forall _ _) Hwords n Hin) as Hn. cbv beta in Hn.
  apply andb_prop in Hn as [Hnan Hinf]. apply negb_true_iff in Hnan, Hinf.
  destruct x as [z| |[|]]; cbn [JsNumber.toString].
  - now apply (fresh_decimal z names).
  - exact Hnan.
  - pose proof (proj1 (forallb_forall _ _) Hdigits n Hin) as Hd. cbv beta in Hd.
    destruct (occursIn "-Infinity" n) eqn:Hocc; [|reflexivity].
    apply occursIn_head in Hocc.
    pose proof (proj1 (forallb_forall _ _) Hd "-"%char (or_introl eq_refl)) as Hfree.
    cbv beta in Hfree. congruence.
  - exact Hinf.
Qed.

Lemma fresh_phaseName (p : Phase) (names : list string) (n : string) :
  forallb (fun n => negb (occursIn "setup" n) && negb (occursIn "confrontation" n)
                    && negb (occursIn "resolution" n)) names = true ->
  In n names -> occursIn (phaseName p) n = false.
Proof.
  intros Hwords Hin.
  pose proof (proj1 (forallb_forall _ _) Hwords n Hin) as Hn. cbv beta in Hn.
  apply andb_prop in Hn as [Hn H3]. apply andb_prop in Hn as [H1 H2].
  apply negb_true_iff in H1, H2, H3. now destruct p.
Qed.

Lemma placeholderTable_chainable (step arcLength : Z) (info : PhaseInfo) :
  chainable (placeholderTable step arcLength info).
Proof.
  unfold placeholderTable. cbn [chainable map fst].
  repeat match goal with
         | |- _ /\ _ => split
         | |- True => exact I
         | |- noBrace (JsNumber.decimal _) = true => apply decimal_noBrace
         | |- noBrace (JsNumber.toString _) = true => apply toString_noBrace
         | |- noBrace (phaseName _) = true => apply phaseName_noBrace
         | |- noBrace _ = true => reflexivity
         | |- forall n, In n ?names -> occursIn (JsNumber.decimal ?z) n = false =>
             intros n Hin; apply (fresh_decimal z names n); [reflexivity | exact Hin]
         | |- forall n, In n ?names -> occursIn (JsNumber.toString ?x) n = false =>
             intros n Hin; apply (fresh_toString x names n);
             [reflexivity | reflexivity | exact Hin]
         | |- forall n, In n ?names -> occursIn (phaseName ?p) n = false =>
             intros n Hin; apply (fresh_phaseName p names n); [reflexivity | exact Hin]
         end.
Qed.

Lemma placeholderTable_values (step arcLength : Z) (info : PhaseInfo) (name : string) :
  valuesFrom (placeholderTable step arcLength info) name
  = placeholderValue step arcLength info name.
Proof. reflexivity. Qed.

(** On any template the nine replacements of [progressText] are the one
    scan [substitute]. *)
Lemma progressText_substitute (template : string) (info : PhaseInfo)
    (chatState : ChatState.t) :
  progressText template info chatState
  = substitute
      (placeholderValue (ChatState.currentStep chatState + 1)
                        (ChatState.arcLength chatState) info)
      template.
Proof.
  change (progressText template info chatState)
    with (replaceEach
            (placeholderTable (ChatState.currentStep chatState + 1)
                              (ChatState.arcLength chatState) info) template).
  rewrite replaceEach_substitute by apply placeholderTable_chainable.
  reflexivity.
Qed.

(** On a template of well-formed pieces the scan is the rendering piece by
    piece. *)
Lemma substitute_pieces (value : string -> option string) (pieces : list Piece) :
  forallb wellFormed pieces = true ->
  substitute value (templateText pieces) = renderSpec value pieces.
Proof.
  induction pieces as [|p pieces IH]; intros Hwf; [reflexivity|].
  cbn [forallb] in Hwf. apply andb_prop in Hwf as [Hp Hrest].
  rewrite templateText_cons, renderSpec_cons, <- (IH Hrest).
  destruct p as [text|n]; cbn [pieceText renderPiece wellFormed] in *.
  - now apply substitute_copy.
  - apply andb_prop in Hp as [H1 H2].
    replace (String "{" (n ++ "}") ++ templateText pieces)
      with (String "{" (n ++ String "}" (templateText pieces)))
      by (cbn [append]; now rewrite append_assoc).
    destruct (value n) as [v|] eqn:Hv.
    + now apply substitute_hole.
    + rewrite (substitute_unknown value n _ H1 H2 Hv).
      cbn [append]. now rewrite append_assoc.
Qed.

(** On a well-formed template the nine replacements of [progressText] are
    the simultaneous substitution [renderSpec]. *)
Lemma progressText_renderSpec (info : PhaseInfo) (chatState : ChatState.t)
    (pieces : list Piece) :
  forallb wellFormed pieces = true ->
  progressText (templateText pieces) info chatState
  = renderSpec
      (placeholderValue (ChatState.currentStep chatState + 1)
                        (ChatState.arcLength chatState) info)
      pieces.
Proof.
  intros Hwf. rewrite progressText_substitute. now apply substitute_pieces.
Qed.

(** ** What [buildFullInjection] returns *)

Lemma getChatStoryState_value (w : World) :
  valueOf (getChatStoryState w) = Some (chatStateOf w).
Proof.
  unfold getChatStoryState, chatStateOf. now destruct (chatMetadata w).
Qed.

Lemma buildFullInjection_cases (isPreview : bool) (w : World) :
  buildFullInjection isPreview w
  = if negb (Settings.enabled (settings w)) then Ok "" (touch w)
    else match storyPart (settings w) (chatStateOf w) (storyTypes w) isPreview with
         | Some story =>
             Ok (join (nl ++ nl)
                   (story ++ stylePart (settings w) (chatStateOf w) (authorStyles w)))
                (touch w)
         | None => Threw (touch w)
         end.
Proof.
  destruct w as [s types styles regenerating loading messages metadata saved shown
                 installed timers].
  unfold buildFullInjection, bind, gets, ret, throw, getChatStoryState, touch, chatStateOf.
  destruct metadata as [state|];
    cbv [settings storyTypes authorStyles chatMetadata set_chatMetadata];
    destruct (Settings.enabled s); cbn [negb]; try reflexivity;
    match goal with |- context [storyPart ?a ?b ?c ?d] => destruct (storyPart a b c d) end;
    reflexivity.
Qed.

Lemma buildFullInjection_value (isPreview : bool) (w : World) :
  valueOf (buildFullInjection isPreview w)
  = if injectionThrows isPreview w then None else Some (injectionText isPreview w).
Proof.
  rewrite buildFullInjection_cases.
  unfold injectionThrows, injectionText, storySegments.
  destruct (Settings.enabled (settings w)); cbn [negb andb]; [|reflexivity].
  now destruct (storyPart (settings w) (chatStateOf w) (storyTypes w) isPreview).
Qed.

Lemma buildFullInjection_threw (isPreview : bool) (w : World) :
  threw (buildFullInjection isPreview w) = injectionThrows isPreview w.
Proof.
  rewrite buildFullInjection_cases. unfold injectionThrows.
  destruct (Settings.enabled (settings w)); cbn [negb andb]; [|reflexivity].
  now destruct (storyPart (settings w) (chatStateOf w) (storyTypes w) isPreview).
Qed.

(** The story part is composed unless an entry without template is to be
    rendered. *)
Lemma storyPart_composes (s : Settings.t) (state : ChatState.t)
    (catalog : list StoryType) (isPreview : bool) :
  storyPart s state catalog isPreview = None ->
  exists storyType,
    find (fun t => String.eqb (storyTypeId t) (ChatState.selectedStoryType state)) catalog
    = Some storyType
    /\ progressTemplate storyType = None
    /\ Settings.storyArcEnabled s = true
    /\ truthy (ChatState.selectedStoryType state) = true
    /\ (ChatState.currentStep state <? ChatState.arcLength state) || isPreview = true.
Proof.
  unfold storyPart, buildPhaseInjection.
  destruct (Settings.storyArcEnabled s); [|discriminate].
  destruct (truthy (ChatState.selectedStoryType state)); [|discriminate].
  cbn [andb].
  destruct (find _ catalog) as [storyType|]; [|discriminate].
  destruct ((ChatState.currentStep state <? ChatState.arcLength state) || isPreview);
    [|discriminate].
  destruct (progressTemplate storyType) eqn:Htemplate; [discriminate|].
  intros _. exists storyType. now repeat split.
Qed.

Lemma storyPart_preview_irrelevant (s : Settings.t) (state : ChatState.t)
    (catalog : list StoryType) :
  ChatState.currentStep state < ChatState.arcLength state
  \/ Settings.storyArcEnabled s = false
  \/ truthy (ChatState.selectedStoryType state) = false
  \/ find (fun t => String.eqb (storyTypeId t) (ChatState.selectedStoryType state)) catalog
     = None ->
  storyPart s state catalog true = storyPart s state catalog false.
Proof.
  unfold storyPart. intros [Hlt|[Hoff|[Hnone|Hdangling]]].
  - apply Z.ltb_lt in Hlt. now rewrite Hlt.
  - now rewrite Hoff.
  - now rewrite Hnone, andb_false_r.
  - now rewrite Hdangling.
Qed.

(** ** PhaseCalculator *)

(** The literals [0.33] and [0.66] as doubles: [0x1.51eb851eb851fp-2] and
    [0x1.51eb851eb851fp-1]. *)
Lemma phase_boundary_literals :
  JsNumber.literal 33 100 = S754_finite false 5944751508129055 (-54)
  /\ JsNumber.literal 66 100 = S754_finite false 5944751508129055 (-53).
Proof. split; vm_compute; reflexivity. Qed.

(** C4. Scenario B: with [arcLength = 30] the boundaries are
    [setupEnd = floor(30 * 0.33) = 9] and [confrontationEnd =
    floor(30 * 0.66) = 19]; the upper bounds are inclusive (steps 9 and 19
    still belong to setup and confrontation); and [getPhaseInfo 20 30] is
    resolution with [phaseStart = 20], [phaseEnd = 30],
    [positionInPhase = 1], [totalInPhase = 11], [percentInPhase = 9]. *)
Theorem scenario_B_phase_of_step_20_of_30 :
  JsNumber.floorZ (JsNumber.mul (JsNumber.ofZ 30) (JsNumber.literal 33 100)) = 9
  /\ JsNumber.floorZ (JsNumber.mul (JsNumber.ofZ 30) (JsNumber.literal 66 100)) = 19
  /\ phase (getPhaseInfo 9 30) = setup
  /\ phase (getPhaseInfo 10 30) = confrontation
  /\ phase (getPhaseInfo 19 30) = confrontation
  /\ getPhaseInfo 20 30
     = {| phase := resolution;
          positionInPhase := 1;
          totalInPhase := 11;
          percentInPhase := JsNumber.Int 9;
          phaseStart := 20;
          phaseEnd := 30 |}.
Proof.
  repeat split; vm_compute; reflexivity.
Qed.

(** C10. The division [positionInPhase / totalInPhase] of [getPhaseInfo]
    is unguarded: for every arc length from 1 to 3 and step 0,
    [setupEnd = floor(arcLength * 0.33) = 0], the phase is setup with
    [phaseEnd = 0] and [totalInPhase = 0], the quotient is [0 / 0 = NaN], and
    [percentInPhase] is not a number (it prints as [NaN]). *)
Theorem phase_percent_is_NaN_for_short_arcs (arcLength : Z) :
  0 < arcLength <= 3 ->
  JsNumber.floorZ (JsNumber.mul (JsNumber.ofZ arcLength) (JsNumber.literal 33 100)) = 0
  /\ JsNumber.div (JsNumber.ofZ 0) (JsNumber.ofZ 0) = S754_nan
  /\ getPhaseInfo 0 arcLength
     = {| phase := setup;
          positionInPhase := 0;
          totalInPhase := 0;
          percentInPhase := JsNumber.NotANumber;
          phaseStart := 1;
          phaseEnd := 0 |}
  /\ JsNumber.toString (percentInPhase (getPhaseInfo 0 arcLength)) = "NaN".
Proof.
  intros Hrange.
  assert (arcLength = 1 \/ arcLength = 2 \/ arcLength = 3) as [-> | [-> | ->]] by lia;
    repeat split; vm_compute; reflexivity.
Qed.

Lemma phase_percent_is_NaN_for_short_arcs_witness :
  0 < 3 <= 3
  /\ percentInPhase (getPhaseInfo 0 3) = JsNumber.NotANumber.
Proof.
  assert (H : 0 < 3 <= 3) by lia.
  split; [exact H|].
  destruct (phase_percent_is_NaN_for_short_arcs 3 H) as [_ [_ [Hinfo _]]].
  rewrite Hinfo. reflexivity.
Defined.

(** ** TemplateRenderer *)

Lemma placeholderValue_recognized (step arcLength : Z) (info : PhaseInfo)
    (name : string) :
  placeholderValue step arcLength info name <> None
  <-> In name recognizedPlaceholders.
Proof.
  unfold placeholderValue, recognizedPlaceholders. cbn [In].
  repeat match goal with
         | |- context [String.eqb name ?k] =>
             destruct (String.eqb_spec name k) as [-> | ?];
             [split; [intros _; tauto | intros _; discriminate]|]
         end.
  split; [intros H; now elim H | intros H; repeat destruct H as [H|H]; congruence].
Qed.

(** C6. On every template, whatever text it is, the progress text of
    [buildPhaseInjection] is the one scan [substitute] of the template: every
    occurrence of each of the nine recognized placeholders is replaced by
    its value, and every other character is copied, be it literal text, a
    placeholder with another name or a brace that opens no placeholder;
    nothing throws.  The recognized names are exactly the nine of
    [recognizedPlaceholders].  On a template made of literal text and
    placeholders that is the rendering piece by piece. *)
Theorem template_rendering_replaces_every_occurrence
    (template : string) (info : PhaseInfo) (chatState : ChatState.t) :
  let value :=
    placeholderValue (ChatState.currentStep chatState + 1)
                     (ChatState.arcLength chatState) info in
  progressText template info chatState = substitute value template
  /\ (forall name rest, In name recognizedPlaceholders ->
        exists v, value name = Some v
                  /\ substitute value (String "{" (name ++ String "}" rest))
                     = v ++ substitute value rest)
  /\ (forall name rest, ~ In name recognizedPlaceholders ->
        noChar "{" name = true -> noChar "}" name = true ->
        substitute value (String "{" (name ++ String "}" rest))
        = String "{" (name ++ String "}" (substitute value rest)))
  /\ (forall text rest, noChar "{" text = true ->
        substitute value (text ++ rest) = text ++ substitute value rest)
  /\ (forall rest, placeholderName rest = None ->
        substitute value (String "{" rest) = String "{" (substitute value rest))
  /\ (forall pieces, forallb wellFormed pieces = true ->
        progressText (templateText pieces) info chatState = renderSpec value pieces
        /\ (forall name, In name recognizedPlaceholders ->
              exists v, value name = Some v /\ renderPiece value (Tok name) = v)
        /\ (forall name, ~ In name recognizedPlaceholders ->
              renderPiece value (Tok name) = String "{" (name ++ "}"))).
Proof.
  intros value.
  assert (Hknown : forall name, In name recognizedPlaceholders ->
                     exists v, value name = Some v).
  { intros name Hin.
    apply (placeholderValue_recognized (ChatState.currentStep chatState + 1)
             (ChatState.arcLength chatState) info) in Hin.
    fold value in Hin. destruct (value name) as [v|]; [now exists v | now elim Hin]. }
  assert (Hunknown : forall name, ~ In name recognizedPlaceholders -> value name = None).
  { intros name Hout. destruct (value name) as [v|] eqn:Hv; [|reflexivity].
    elim Hout.
    apply (placeholderValue_recognized (ChatState.currentStep chatState + 1)
             (ChatState.arcLength chatState) info).
    fold value. now rewrite Hv. }
  split; [apply progressText_substitute|].
  split.
  { intros name rest Hin. destruct (Hknown name Hin) as [v Hv].
    exists v. split; [exact Hv|].
    apply substitute_hole; [| |exact Hv];
      unfold recognizedPlaceholders in Hin; cbn [In] in Hin;
      repeat destruct Hin as [<- | Hin]; try reflexivity; now elim Hin. }
  split.
  { intros name rest Hout H1 H2. apply substitute_unknown; auto. }
  split; [intros text rest; apply substitute_copy|].
  split; [intros rest Hnone; apply substitute_brace; now rewrite Hnone|].
  intros pieces Hwf. split; [now apply progressText_renderSpec|]. split.
  - intros name Hin. destruct (Hknown name Hin) as [v Hv].
    exists v. split; [exact Hv|]. cbn [renderPiece]. now rewrite Hv.
  - intros name Hout. cbn [renderPiece]. now rewrite (Hunknown name Hout).
Qed.

(** Scenario D: ["{currentStep}/{arcLength} - {unknownToken}"] with the
    upcoming step 3 of 10 renders to ["3/10 - {unknownToken}"]; and a
    template with doubled and unclosed braces keeps them. *)
Lemma scenario_D_rendering :
  progressText "{currentStep}/{arcLength} - {unknownToken}" (getPhaseInfo 3 10)
    (sampleChatState 2 10 "scenario_d")
  = "3/10 - {unknownToken}"
  /\ progressText "{{user}} at {currentStep} of {arcLength} {phase" (getPhaseInfo 3 10)
       (sampleChatState 2 10 "scenario_d")
     = "{{user}} at 3 of 10 {phase".
Proof.
  split.
  - destruct (template_rendering_replaces_every_occurrence
                "{currentStep}/{arcLength} - {unknownToken}"
                (getPhaseInfo 3 10) (sampleChatState 2 10 "scenario_d"))
      as [Hrender _].
    rewrite Hrender. vm_compute. reflexivity.
  - destruct (template_rendering_replaces_every_occurrence
                "{{user}} at {currentStep} of {arcLength} {phase"
                (getPhaseInfo 3 10) (sampleChatState 2 10 "scenario_d"))
      as [Hrender _].
    rewrite Hrender. vm_compute. reflexivity.
Defined.

(** ** InjectionComposer *)

(** C5. Whenever [buildFullInjection] emits the story-arc segment (feature
    and arc enabled, the selected story type found with its progress
    template, and the arc not yet complete or preview requested), the
    segment is built for the upcoming step [nextStep = currentStep + 1]: its
    phase text is [buildPhaseInjection] at the classification
    [getPhaseInfo (currentStep + 1) arcLength]; there the progress template
    is rendered with [{currentStep}] standing for [currentStep + 1] and the
    other placeholders for the values of that classification, and the
    guidance is the one of that classification's phase.  When the selected
    entry has no progress template no segment is emitted: the composition
    throws. *)
Theorem story_segment_is_for_next_step
    (w : World) (isPreview : bool) (storyType : StoryType) :
  let s := settings w in
  let chatState := chatStateOf w in
  let nextStep := ChatState.currentStep chatState + 1 in
  let arcLength := ChatState.arcLength chatState in
  let info := getPhaseInfo nextStep arcLength in
  Settings.enabled s = true ->
  Settings.storyArcEnabled s = true ->
  truthy (ChatState.selectedStoryType chatState) = true ->
  find (fun t => String.eqb (storyTypeId t) (ChatState.selectedStoryType chatState))
       (storyTypes w) = Some storyType ->
  (ChatState.currentStep chatState <? arcLength) || isPreview = true ->
  (forall template,
      progressTemplate storyType = Some template ->
      let output :=
        substitute (placeholderValue nextStep arcLength info) template
        ++ nl ++ nl ++ phaseGuidance storyType (phase info) in
      let phaseText :=
        if Settings.debugMode s
        then output ++ debugNote nextStep arcLength (phase info)
        else output in
      buildPhaseInjection s storyType info chatState = Some phaseText
      /\ valueOf (buildFullInjection isPreview w)
         = Some (join (nl ++ nl)
                   (("<story>" ++ nl
                     ++ (buildStoryBlueprint storyType ++ nl ++ nl ++ phaseText)
                     ++ nl ++ "</story>")
                    :: stylePart s chatState (authorStyles w)))
      /\ placeholderValue nextStep arcLength info "currentStep"
         = Some (JsNumber.decimal (ChatState.currentStep chatState + 1))
      /\ placeholderValue nextStep arcLength info "phase" = Some (phaseName (phase info))
      /\ forall pieces,
           template = templateText pieces ->
           forallb wellFormed pieces = true ->
           let rendered :=
             renderSpec (placeholderValue nextStep arcLength info) pieces
             ++ nl ++ nl ++ phaseGuidance storyType (phase info) in
           buildPhaseInjection s storyType info chatState
           = Some (if Settings.debugMode s
                   then rendered ++ debugNote nextStep arcLength (phase info)
                   else rendered))
  /\ (progressTemplate storyType = None ->
      buildPhaseInjection s storyType info chatState = None
      /\ threw (buildFullInjection isPreview w) = true).
Proof.
  intros s chatState nextStep arcLength info Hon Harc Hsel Hfind Hgate.
  assert (Hpart : storyPart s chatState (storyTypes w) isPreview
                  = match buildPhaseInjection s storyType info chatState with
                    | Some phaseText =>
                        Some ["<story>" ++ nl
                              ++ (buildStoryBlueprint storyType ++ nl ++ nl ++ phaseText)
                              ++ nl ++ "</story>"]
                    | None => None
                    end).
  { unfold storyPart. rewrite Harc, Hsel, Hfind. cbn [andb].
    fold arcLength. now rewrite Hgate. }
  split.
  - intros template Htemplate output phaseText.
    assert (Hphase : buildPhaseInjection s storyType info chatState = Some phaseText).
    { unfold buildPhaseInjection. rewrite Htemplate, progressText_substitute.
      reflexivity. }
    split; [exact Hphase|]. split; [|split; [reflexivity|split; [reflexivity|]]].
    + rewrite buildFullInjection_value. unfold injectionThrows, injectionText,
        storySegments. fold s chatState. rewrite Hon, Hpart, Hphase. reflexivity.
    + intros pieces -> Hwf rendered. rewrite Hphase. unfold phaseText, output.
      now rewrite (substitute_pieces _ _ Hwf).
  - intros Hmissing.
    assert (Hphase : buildPhaseInjection s storyType info chatState = None).
    { unfold buildPhaseInjection. now rewrite Hmissing. }
    split; [exact Hphase|].
    rewrite buildFullInjection_threw. unfold injectionThrows. fold s chatState.
    now rewrite Hon, Hpart, Hphase.
Qed.

(** At step 19 of 30 the injected text speaks of step 20, the first
    message of the resolution phase. *)
Lemma story_segment_is_for_next_step_witness :
  valueOf (buildFullInjection false
             (sampleWorld (sampleSettings false false)
                          (sampleChatState 19 30 "noir_detective")))
  = Some ("<story>" ++ nl
          ++ "A rain-soaked city, a case nobody wants." ++ nl ++ nl
          ++ "Arc Progress: Step 20/30 (67% complete). Phase: resolution - Message 1/11 (9% through resolution)."
          ++ nl ++ nl
          ++ "Reveal the culprit and the cost." ++ nl
          ++ "</story>" ++ nl ++ nl
          ++ "<style>" ++ nl ++ "Short sentences. Dry wit." ++ nl ++ "</style>").
Proof.
  destruct (story_segment_is_for_next_step
              (sampleWorld (sampleSettings false false)
                           (sampleChatState 19 30 "noir_detective"))
              false noirDetective eq_refl eq_refl eq_refl eq_refl eq_refl)
    as [Hemitted _].
  destruct (Hemitted defaultProgressTemplate eq_refl) as (_ & Hvalue & _).
  rewrite Hvalue. vm_compute. reflexivity.
Defined.

(** C7. With the feature globally disabled [buildFullInjection] returns
    the empty string, in preview as well and whatever the rest of the state
    is.  Preview only lifts the completion check [currentStep < arcLength]
    of the story-arc segment: when that check passes, or when the segment is
    suppressed for another reason (arc toggle off, no selection, dangling
    id), preview and normal composition have the same result; and in
    preview a found story type yields a segment whatever the step is
    (unless the entry has no progress template, when the composition
    throws). *)
Theorem disabled_feature_gives_empty_injection (w : World) :
  (Settings.enabled (settings w) = false ->
   forall isPreview,
     buildFullInjection isPreview w = Ok "" (touch w)
     /\ valueOf (buildFullInjection isPreview w) = Some "")
  /\ (currentStepOf w < arcLengthOf w
      \/ Settings.storyArcEnabled (settings w) = false
      \/ truthy (ChatState.selectedStoryType (chatStateOf w)) = false
      \/ find (fun t => String.eqb (storyTypeId t)
                          (ChatState.selectedStoryType (chatStateOf w)))
              (storyTypes w) = None ->
      valueOf (buildFullInjection true w) = valueOf (buildFullInjection false w)
      /\ threw (buildFullInjection true w) = threw (buildFullInjection false w))
  /\ (forall storyType,
        Settings.storyArcEnabled (settings w) = true ->
        truthy (ChatState.selectedStoryType (chatStateOf w)) = true ->
        find (fun t => String.eqb (storyTypeId t)
                         (ChatState.selectedStoryType (chatStateOf w)))
             (storyTypes w) = Some storyType ->
        match progressTemplate storyType with
        | Some _ =>
            exists segment,
              storyPart (settings w) (chatStateOf w) (storyTypes w) true
              = Some [segment]
        | None => storyPart (settings w) (chatStateOf w) (storyTypes w) true = None
        end).
Proof.
  split; [|split].
  - intros Hoff isPreview.
    assert (E : buildFullInjection isPreview w = Ok "" (touch w)).
    { rewrite buildFullInjection_cases. now rewrite Hoff. }
    split; [exact E | now rewrite E].
  - intros Hsame. rewrite !buildFullInjection_value, !buildFullInjection_threw.
    unfold injectionThrows, injectionText, storySegments.
    now rewrite (storyPart_preview_irrelevant _ _ _ Hsame).
  - intros storyType Harc Hsel Hfind. unfold storyPart, buildPhaseInjection.
    rewrite Harc, Hsel, Hfind, orb_true_r. cbn [andb].
    destruct (progressTemplate storyType); [eauto | reflexivity].
Qed.

Lemma disabled_feature_gives_empty_injection_witness :
  Settings.enabled disabledSettings = false
  /\ valueOf (buildFullInjection true
                (sampleWorld disabledSettings (sampleChatState 3 30 "noir_detective")))
     = Some "".
Proof.
  split; [reflexivity|].
  destruct (disabled_feature_gives_empty_injection
              (sampleWorld disabledSettings (sampleChatState 3 30 "noir_detective")))
    as [Hempty _].
  exact (proj2 (Hempty eq_refl true)).
Defined.

(** C8. A selected story-type id that is not in the catalog removes the
    story segment and nothing else: the composition returns, without
    throwing, what the style part alone gives, which is the [<style>] block
    when an author style is validly selected.  Symmetrically a dangling
    author-style id removes the style segment and leaves the story part as
    it is: the composition is that of the story part alone, and it throws
    only when the story part does (a found story type without progress
    template), never because of the dangling id. *)
Theorem dangling_selection_suppresses_its_segment (w : World) (isPreview : bool) :
  let s := settings w in
  let chatState := chatStateOf w in
  Settings.enabled s = true ->
  (find (fun t => String.eqb (storyTypeId t) (ChatState.selectedStoryType chatState))
        (storyTypes w) = None ->
   threw (buildFullInjection isPreview w) = false
   /\ buildFullInjection isPreview w
      = Ok (join (nl ++ nl) (stylePart s chatState (authorStyles w))) (touch w)
   /\ forall authorStyle,
        Settings.authorStyleEnabled s = true ->
        truthy (ChatState.selectedAuthorStyle chatState) = true ->
        find (fun a => String.eqb (authorStyleId a)
                         (ChatState.selectedAuthorStyle chatState))
             (authorStyles w) = Some authorStyle ->
        valueOf (buildFullInjection isPreview w)
        = Some ("<style>" ++ nl
                ++ (if Settings.nsfwEnabled s && truthy (orEmpty (nsfwPrompt authorStyle))
                    then authorPrompt authorStyle ++ nl ++ nl
                         ++ orEmpty (nsfwPrompt authorStyle)
                    else authorPrompt authorStyle)
                ++ nl ++ "</style>"))
  /\ (find (fun a => String.eqb (authorStyleId a) (ChatState.selectedAuthorStyle chatState))
           (authorStyles w) = None ->
      buildFullInjection isPreview w
      = match storyPart s chatState (storyTypes w) isPreview with
        | Some story => Ok (join (nl ++ nl) story) (touch w)
        | None => Threw (touch w)
        end)
  /\ (threw (buildFullInjection isPreview w) = true ->
      exists storyType,
        find (fun t => String.eqb (storyTypeId t) (ChatState.selectedStoryType chatState))
             (storyTypes w) = Some storyType
        /\ progressTemplate storyType = None).
Proof.
  intros s chatState Hon.
  assert (E : buildFullInjection isPreview w
              = match storyPart s chatState (storyTypes w) isPreview with
                | Some story =>
                    Ok (join (nl ++ nl) (story ++ stylePart s chatState (authorStyles w)))
                       (touch w)
                | None => Threw (touch w)
                end).
  { rewrite buildFullInjection_cases. fold s chatState. now rewrite Hon. }
  split; [|split].
  - intros Hdangling.
    assert (Hstory : storyPart s chatState (storyTypes w) isPreview = Some []).
    { unfold storyPart. rewrite Hdangling.
      now destruct (Settings.storyArcEnabled s
                    && truthy (ChatState.selectedStoryType chatState)). }
    rewrite E, Hstory. cbn [app threw valueOf].
    split; [reflexivity|]. split; [reflexivity|].
    intros authorStyle Hstyle Hsel Hfind. unfold stylePart.
    rewrite Hstyle, Hsel, Hfind. reflexivity.
  - intros Hdangling.
    assert (Hstyle : stylePart s chatState (authorStyles w) = []).
    { unfold stylePart. rewrite Hdangling.
      now destruct (Settings.authorStyleEnabled s
                    && truthy (ChatState.selectedAuthorStyle chatState)). }
    rewrite E, Hstyle.
    destruct (storyPart s chatState (storyTypes w) isPreview); [|reflexivity].
    now rewrite app_nil_r.
  - rewrite E.
    destruct (storyPart s chatState (storyTypes w) isPreview) eqn:Hpart;
      [discriminate|].
    intros _. destruct (storyPart_composes _ _ _ _ Hpart) as (storyType & H1 & H2 & _).
    now exists storyType.
Qed.

(** Scenario E: the story type ["ghost-42"] is not in the catalog, the
    author style is; the injection is the style block alone. *)
Lemma scenario_E_dangling_story_type :
  valueOf (buildFullInjection false
             (sampleWorld (sampleSettings false false)
                          (sampleChatState 2 10 "ghost-42")))
  = Some ("<style>" ++ nl ++ "Short sentences. Dry wit." ++ nl ++ "</style>").
Proof.
  destruct (dangling_selection_suppresses_its_segment
              (sampleWorld (sampleSettings false false)
                           (sampleChatState 2 10 "ghost-42"))
              false eq_refl) as [Hstory _].
  destruct (Hstory eq_refl) as (_ & _ & Hstyle).
  exact (Hstyle hardboiled eq_refl eq_refl eq_refl).
Defined.

(** ** The elementary steps in closed form *)

Ltac world_cases w :=
  let m := fresh "metadata" in
  destruct w as [? ? ? ? ? ? m ? ? ? ?]; destruct m.

Lemma getChatStoryState_eq (w : World) :
  getChatStoryState w = Ok (chatStateOf w) (touch w).
Proof. world_cases w; reflexivity. Qed.

Lemma chatStateOf_touch (w : World) : chatStateOf (touch w) = chatStateOf w.
Proof. reflexivity. Qed.

Lemma buildFullInjection_eq (isPreview : bool) (w : World) :
  buildFullInjection isPreview w
  = if injectionThrows isPreview w then Threw (touch w)
    else Ok (injectionText isPreview w) (touch w).
Proof.
  rewrite buildFullInjection_cases.
  unfold injectionThrows, injectionText, storySegments.
  destruct (Settings.enabled (settings w)); cbn [negb andb]; [|reflexivity].
  now destruct (storyPart (settings w) (chatStateOf w) (storyTypes w) isPreview).
Qed.

Lemma worldOf_outcome (throws : bool) (w : World) : worldOf (outcome throws w) = w.
Proof. now destruct throws. Qed.

Lemma threw_outcome (throws : bool) (w : World) : threw (outcome throws w) = throws.
Proof. now destruct throws. Qed.

Lemma injectionThrows_disabled (isPreview : bool) (w : World) :
  Settings.enabled (settings w) = false -> injectionThrows isPreview w = false.
Proof. unfold injectionThrows. now intros ->. Qed.

(** [updateStoryPrompt] throws when the composition does, before any
    prompt is installed. *)
Lemma updateStoryPrompt_eq (w : World) :
  updateStoryPrompt w = outcome (injectionThrows false w) (prompted w).
Proof.
  unfold updateStoryPrompt, prompted, bind, gets, setExtensionPrompt, modify.
  destruct (Settings.enabled (settings w)) eqn:Hon; cbn [negb].
  - rewrite buildFullInjection_eq.
    destruct (injectionThrows false w); [reflexivity|]. cbn [outcome].
    destruct (negb (truthy (injectionText false w))); reflexivity.
  - now rewrite (injectionThrows_disabled false w Hon).
Qed.

Lemma updateStatusDisplay_eq (w : World) : updateStatusDisplay w = Ok tt (touch w).
Proof.
  unfold updateStatusDisplay, bind, ret. now rewrite getChatStoryState_eq.
Qed.

Lemma pushStoryMessage_eq (text : string) (w : World) :
  pushStoryMessage text w = Ok tt (pushed text w).
Proof. reflexivity. Qed.

Lemma assign_then_save_eq {A : Type} (f : ChatState.t -> ChatState.t)
    (k : unit -> M A) (w : World) :
  bind (assignChatState f) (fun state => bind (saveChatStoryState state) k) w
  = k tt (stored f w).
Proof.
  unfold assignChatState, saveChatStoryState, bind, modify, ret.
  rewrite getChatStoryState_eq. world_cases w; reflexivity.
Qed.

(** The closed forms leave the step counter's inputs where they were. *)
Lemma chatStateOf_pushed (text : string) (w : World) :
  chatStateOf (pushed text w) = chatStateOf w.
Proof. reflexivity. Qed.

Lemma chatStateOf_stored (f : ChatState.t -> ChatState.t) (w : World) :
  chatStateOf (stored f w) = f (chatStateOf w).
Proof. reflexivity. Qed.

Lemma chatStateOf_prompted (w : World) : chatStateOf (prompted w) = chatStateOf w.
Proof.
  unfold prompted.
  destruct (negb (Settings.enabled (settings w))); [reflexivity|].
  destruct (injectionThrows false w); [reflexivity|].
  destruct (negb (truthy (injectionText false w))); reflexivity.
Qed.

Lemma touch_idempotent (w : World) : touch (touch w) = touch w.
Proof. reflexivity. Qed.

Lemma touch_stored (f : ChatState.t -> ChatState.t) (w : World) :
  touch (stored f w) = stored f w.
Proof. reflexivity. Qed.

(** ** Running a handler step by step *)

Lemma bind_bind {A B C : Type} (m : M A) (k1 : A -> M B) (k2 : B -> M C) (w : World) :
  bind (bind m k1) k2 w = bind m (fun a => bind (k1 a) k2) w.
Proof. unfold bind. now destruct (m w). Qed.

Lemma bind_ret {A B : Type} (a : A) (k : A -> M B) (w : World) :
  bind (ret a) k w = k a w.
Proof. reflexivity. Qed.

Lemma bind_gets {A B : Type} (f : World -> A) (k : A -> M B) (w : World) :
  bind (gets f) k w = k (f w) w.
Proof. reflexivity. Qed.

Lemma bind_modify {B : Type} (f : World -> World) (k : unit -> M B) (w : World) :
  bind (modify f) k w = k tt (f w).
Proof. reflexivity. Qed.

Lemma bind_ok {A B : Type} (m : M A) (k : A -> M B) (w w' : World) (a : A) :
  m w = Ok a w' -> bind m k w = k a w'.
Proof. unfold bind. now intros ->. Qed.

Lemma bind_threw {A B : Type} (m : M A) (k : A -> M B) (w w' : World) :
  m w = Threw w' -> bind m k w = Threw w'.
Proof. unfold bind. now intros ->. Qed.

Lemma bind_getChatStoryState {B : Type} (k : ChatState.t -> M B) (w : World) :
  bind getChatStoryState k w = k (chatStateOf w) (touch w).
Proof. unfold bind. now rewrite getChatStoryState_eq. Qed.

Lemma bind_pushStoryMessage {B : Type} (text : string) (k : unit -> M B) (w : World) :
  bind (pushStoryMessage text) k w = k tt (pushed text w).
Proof. reflexivity. Qed.

Lemma bind_updateStoryPrompt {B : Type} (k : unit -> M B) (w : World) :
  bind updateStoryPrompt k w
  = if injectionThrows false w then Threw (prompted w) else k tt (prompted w).
Proof.
  unfold bind. rewrite updateStoryPrompt_eq. now destruct (injectionThrows false w).
Qed.

Lemma stored_touch (f : ChatState.t -> ChatState.t) (w : World) :
  stored f (touch w) = stored f w.
Proof. reflexivity. Qed.

Lemma touch_prompted_stored (f : ChatState.t -> ChatState.t) (w : World) :
  touch (prompted (stored f w)) = prompted (stored f w).
Proof.
  unfold prompted.
  destruct (negb (Settings.enabled (settings (stored f w)))); [reflexivity|].
  destruct (injectionThrows false (stored f w)); [reflexivity|].
  destruct (negb (truthy (injectionText false (stored f w)))); reflexivity.
Qed.

Ltac mstep :=
  first [ rewrite bind_bind
        | rewrite bind_getChatStoryState
        | rewrite bind_pushStoryMessage
        | rewrite bind_updateStoryPrompt
        | rewrite assign_then_save_eq
        | rewrite bind_gets
        | rewrite bind_modify
        | rewrite bind_ret ];
  cbv beta.

(** ** [generateEpilogueForStory] and [summarizeChatMainForStory] *)

(** The epilogue generator never throws and never writes: a rejection of
    the host is caught and turned into the empty string. *)
Lemma generateEpilogueForStory_returns (host : Generator) (w : World) :
  exists epilogue, generateEpilogueForStory host w = Ok epilogue w.
Proof.
  unfold generateEpilogueForStory. mstep.
  match goal with |- context [if ?c then _ else _] => destruct c end;
    [now eexists|].
  unfold tryCatch, bind, generateRaw.
  match goal with |- context [host ?r] => destruct (host r) as [|text] end;
    now eexists.
Qed.

(** The summary generator does not write either, but a rejection of the
    host leaves it as an exception. *)
Lemma summarizeChatMainForStory_outcome (host : Generator) (w : World) :
  (exists summary, summarizeChatMainForStory host w = Ok summary w)
  \/ summarizeChatMainForStory host w = Threw w.
Proof.
  unfold summarizeChatMainForStory, getStoryTextToSummarize.
  repeat mstep.
  match goal with |- context [if ?c then _ else _] => destruct c end;
    [left; now eexists|].
  mstep. unfold bind, generateRaw.
  match goal with |- context [host ?r] => destruct (host r) as [|text] end;
    [now right | left; now eexists].
Qed.

(** ** The three steps of the completion sequence *)

Lemma epilogueStep_outcome (host : Generator) (s : Settings.t) (w : World) :
  epilogueStep host s w = Ok tt (touch w)
  \/ exists epilogue,
       generateEpilogueForStory host (touch w) = Ok epilogue (touch w)
       /\ truthy epilogue = true
       /\ Settings.epilogueEnabled s = true
       /\ epilogueStep host s w
          = Ok tt (stored (ChatState.set_epilogueShown true) (pushed epilogue (touch w))).
Proof.
  unfold epilogueStep. mstep.
  destruct (Settings.epilogueEnabled s); cbn [andb when]; [|now left].
  destruct (negb (ChatState.epilogueShown (chatStateOf w))); cbn [when]; [|now left].
  destruct (generateEpilogueForStory_returns host (touch w)) as [epilogue He].
  rewrite (bind_ok _ _ _ _ _ He).
  destruct (truthy epilogue) eqn:Htruthy; cbn [when]; [|now left].
  right. exists epilogue. now repeat split.
Qed.

Lemma summaryStep_outcome (host : Generator) (s : Settings.t) (w : World) :
  summaryStep host s w = Ok tt (touch w)
  \/ (summarizeChatMainForStory host (touch w) = Threw (touch w)
      /\ Settings.summaryEnabled s = true
      /\ ChatState.summaryShown (chatStateOf w) = false
      /\ summaryStep host s w = Threw (touch w))
  \/ exists summary,
       summarizeChatMainForStory host (touch w) = Ok summary (touch w)
       /\ truthy summary = true
       /\ Settings.summaryEnabled s = true
       /\ summaryStep host s w
          = Ok tt (stored (ChatState.set_summaryShown true) (pushed summary (touch w))).
Proof.
  unfold summaryStep. mstep.
  destruct (Settings.summaryEnabled s); cbn [andb when]; [|now left].
  destruct (ChatState.summaryShown (chatStateOf w)) eqn:Hshown; cbn [negb when];
    [now left|].
  destruct (summarizeChatMainForStory_outcome host (touch w)) as [[summary Hs]|Hthrow].
  - rewrite (bind_ok _ _ _ _ _ Hs).
    destruct (truthy summary) eqn:Htruthy; cbn [when]; [|now left].
    right; right. exists summary. now repeat split.
  - right; left. rewrite (bind_threw _ _ _ _ Hthrow). now repeat split.
Qed.

Lemma noticeStep_eq (s : Settings.t) (w : World) :
  noticeStep s w
  = Ok tt (if conditionsMet s (chatStateOf w)
           then pushed NOTICE_TEXT (touch w) else touch w).
Proof.
  unfold noticeStep. mstep.
  destruct (conditionsMet s (chatStateOf w)); reflexivity.
Qed.

(** ** The completion sequence leaves the step counter alone *)

Lemma sameArc_refl (w : World) : sameArc w w.
Proof. now repeat split. Qed.

Lemma sameArc_trans (w1 w2 w3 : World) :
  sameArc w1 w2 -> sameArc w2 w3 -> sameArc w1 w3.
Proof.
  unfold sameArc. intros (a1 & a2 & a3 & a4 & a5) (b1 & b2 & b3 & b4 & b5).
  repeat split; congruence.
Qed.

Lemma sameArc_touch (w : World) : sameArc w (touch w).
Proof. now repeat split. Qed.

Lemma sameArc_pushed (text : string) (w : World) : sameArc w (pushed text w).
Proof. now repeat split. Qed.

Lemma sameArc_shown (w : World) :
  sameArc w (stored (ChatState.set_epilogueShown true) w)
  /\ sameArc w (stored (ChatState.set_summaryShown true) w).
Proof. now repeat split. Qed.

Lemma epilogueStep_sameArc (host : Generator) (s : Settings.t) (w : World) :
  threw (epilogueStep host s w) = false
  /\ sameArc w (worldOf (epilogueStep host s w)).
Proof.
  destruct (epilogueStep_outcome host s w) as [E|(e & _ & _ & _ & E)];
    rewrite E; cbn [threw worldOf]; (split; [reflexivity|]).
  - apply sameArc_touch.
  - now repeat split.
Qed.

Lemma summaryStep_sameArc (host : Generator) (s : Settings.t) (w : World) :
  sameArc w (worldOf (summaryStep host s w)).
Proof.
  destruct (summaryStep_outcome host s w)
    as [E|[(_ & _ & _ & E)|(t & _ & _ & _ & E)]];
    rewrite E; cbn [worldOf]; now repeat split.
Qed.

Lemma noticeStep_sameArc (s : Settings.t) (w : World) :
  sameArc w (worldOf (noticeStep s w)).
Proof.
  rewrite noticeStep_eq. cbn [worldOf].
  destruct (conditionsMet s (chatStateOf w)); now repeat split.
Qed.

Lemma worldOf_bind {A B : Type} (m : M A) (k : A -> M B) (w : World) :
  worldOf (bind m k w)
  = match m w with
    | Ok a w' => worldOf (k a w')
    | Threw w' => w'
    end.
Proof. unfold bind. now destruct (m w). Qed.

Lemma completionSequence_sameArc (host : Generator) (s : Settings.t) (w : World) :
  sameArc w (worldOf (completionSequence host s w)).
Proof.
  unfold completionSequence. rewrite worldOf_bind.
  pose proof (epilogueStep_sameArc host s w) as [_ He].
  destruct (epilogueStep host s w) as [[] w1|w1]; cbn [worldOf] in He;
    [|exact He].
  apply (sameArc_trans _ _ _ He). rewrite worldOf_bind.
  pose proof (summaryStep_sameArc host s w1) as Hs.
  destruct (summaryStep host s w1) as [[] w2|w2]; cbn [worldOf] in Hs;
    [|exact Hs].
  apply (sameArc_trans _ _ _ Hs). apply noticeStep_sameArc.
Qed.

(** ** [onMessageReceived], case by case *)

Lemma counted_inv (w : World) (data : EventData) :
  counted w data = true ->
  dataIsUser data = false /\ isLoadingChat w = false /\ isRegenerating w = false
  /\ Settings.enabled (settings w) = true
  /\ Settings.storyArcEnabled (settings w) = true.
Proof.
  unfold counted. intros H.
  repeat (apply andb_prop in H as [H ?]).
  repeat split; try assumption; now apply negb_true_iff.
Qed.

Lemma onMessageReceived_user (host : Generator) (data : EventData) (w : World) :
  dataIsUser data = true -> onMessageReceived host data w = Ok tt w.
Proof.
  intros Huser. unfold onMessageReceived. mstep. now rewrite Huser.
Qed.

Lemma onMessageReceived_loading (host : Generator) (data : EventData) (w : World) :
  dataIsUser data = false -> isLoadingChat w = true ->
  onMessageReceived host data w = Ok tt w.
Proof.
  intros Huser Hloading. unfold onMessageReceived. mstep. rewrite Huser.
  mstep. now rewrite Hloading.
Qed.

Lemma onMessageReceived_suppressed (host : Generator) (data : EventData) (w : World) :
  dataIsUser data = false -> isLoadingChat w = false -> isRegenerating w = true ->
  onMessageReceived host data w = Ok tt (set_isRegenerating false w).
Proof.
  intros Huser Hloading Hregen. unfold onMessageReceived. mstep. rewrite Huser.
  mstep. rewrite Hloading. mstep. now rewrite Hregen.
Qed.

Lemma onMessageReceived_counted (host : Generator) (data : EventData) (w : World) :
  counted w data = true ->
  onMessageReceived host data w
  = if currentStepOf w <? arcLengthOf w then
      outcome
        (injectionThrows false
           (stored (ChatState.set_currentStep (currentStepOf w + 1)) w))
        (touch (prompted (stored (ChatState.set_currentStep (currentStepOf w + 1)) w)))
    else if currentStepOf w =? arcLengthOf w then
      completionSequence host (settings w) (touch w)
    else Ok tt (touch w).
Proof.
  intros Hc. apply counted_inv in Hc as (Huser & Hloading & Hregen & Hon & Harc).
  unfold onMessageReceived. mstep. rewrite Huser.
  mstep. rewrite Hloading. mstep. rewrite Hregen, Hon, Harc. cbn [negb orb].
  mstep. fold (currentStepOf w) (arcLengthOf w).
  destruct (currentStepOf w <? arcLengthOf w).
  - repeat mstep. rewrite stored_touch.
    destruct (injectionThrows false
                (stored (ChatState.set_currentStep (currentStepOf w + 1)) w));
      cbn [outcome]; [now rewrite touch_prompted_stored|].
    now rewrite updateStatusDisplay_eq.
  - now destruct (currentStepOf w =? arcLengthOf w).
Qed.

Lemma savedMetadata_prompted (w : World) :
  savedMetadata (prompted w) = savedMetadata w.
Proof.
  unfold prompted.
  destruct (negb (Settings.enabled (settings w))); [reflexivity|].
  destruct (injectionThrows false w); [reflexivity|].
  destruct (negb (truthy (injectionText false w))); reflexivity.
Qed.

Lemma chatMetadata_touch (w : World) : chatMetadata (touch w) = Some (chatStateOf w).
Proof. reflexivity. Qed.

Lemma touch_initialised (w : World) : chatMetadata w <> None -> touch w = w.
Proof. world_cases w; [reflexivity | intros H; now elim H]. Qed.

Lemma sameArc_prompted (w : World) : sameArc w (prompted w).
Proof.
  unfold prompted.
  destruct (negb (Settings.enabled (settings w))); [now repeat split|].
  destruct (injectionThrows false w); [now repeat split|].
  destruct (negb (truthy (injectionText false w))); now repeat split.
Qed.

(** ** The message-received checkpoint *)

Lemma injectionThrows_inv (isPreview : bool) (w : World) :
  injectionThrows isPreview w = true ->
  exists storyType,
    find (fun t => String.eqb (storyTypeId t)
                     (ChatState.selectedStoryType (chatStateOf w)))
         (storyTypes w) = Some storyType
    /\ progressTemplate storyType = None.
Proof.
  unfold injectionThrows. intros H. apply andb_prop in H as [_ H].
  destruct (storyPart (settings w) (chatStateOf w) (storyTypes w) isPreview) eqn:Hpart;
    [discriminate|].
  destruct (storyPart_composes _ _ _ _ Hpart) as (storyType & H1 & H2 & _).
  now exists storyType.
Qed.

(** C3. At a counted checkpoint (assistant message, no loading, no pending
    regeneration, feature and arc enabled): when [currentStep < arcLength]
    [currentStep] is increased by exactly one and the new state is both
    stored and handed to [saveMetadata]; the handler then returns, unless
    the refresh of the prompt that follows the save throws, which it does
    only when the selected story type has no progress template.  When
    [currentStep > arcLength] it returns having changed nothing (but the
    lazy initialisation of the chat state).  Hence [currentStep <=
    arcLength] is preserved, and [currentStep] never rises above the larger
    of its old value and [arcLength], whatever the host's generator does. *)
Theorem counted_checkpoint_advances_by_one_up_to_arc_length
    (host : Generator) (data : EventData) (w : World) :
  counted w data = true ->
  let r := onMessageReceived host data w in
  let w' := worldOf r in
  let next := ChatState.set_currentStep (currentStepOf w + 1) (chatStateOf w) in
  (currentStepOf w < arcLengthOf w ->
     threw r
     = injectionThrows false
         (stored (ChatState.set_currentStep (currentStepOf w + 1)) w)
     /\ (threw r = true ->
         exists storyType,
           find (fun t => String.eqb (storyTypeId t)
                            (ChatState.selectedStoryType (chatStateOf w)))
                (storyTypes w) = Some storyType
           /\ progressTemplate storyType = None)
     /\ currentStepOf w' = currentStepOf w + 1
     /\ chatMetadata w' = Some next
     /\ savedMetadata w' = next :: savedMetadata w)
  /\ (currentStepOf w > arcLengthOf w ->
        r = Ok tt (touch w)
        /\ chatStateOf w' = chatStateOf w
        /\ savedMetadata w' = savedMetadata w
        /\ chat w' = chat w
        /\ (chatMetadata w <> None -> w' = w))
  /\ (currentStepOf w <= arcLengthOf w -> currentStepOf w' <= arcLengthOf w')
  /\ currentStepOf w' <= Z.max (currentStepOf w) (arcLengthOf w)
  /\ arcLengthOf w' = arcLengthOf w.
Proof.
  intros Hc r w' next. subst r w'. rewrite (onMessageReceived_counted _ _ _ Hc).
  destruct (currentStepOf w <? arcLengthOf w) eqn:Hlt.
  - apply Z.ltb_lt in Hlt. rewrite worldOf_outcome, threw_outcome.
    set (W := touch (prompted (stored
                (ChatState.set_currentStep (currentStepOf w + 1)) w))).
    assert (Hstate : chatStateOf W = next).
    { unfold W. now rewrite chatStateOf_touch, chatStateOf_prompted, chatStateOf_stored. }
    assert (Hmeta : chatMetadata W = Some next).
    { unfold W. rewrite chatMetadata_touch.
      now rewrite chatStateOf_prompted, chatStateOf_stored. }
    assert (Hsaved : savedMetadata W = next :: savedMetadata w).
    { unfold W. change (savedMetadata (touch ?x)) with (savedMetadata x).
      now rewrite savedMetadata_prompted. }
    assert (Hstep : currentStepOf W = currentStepOf w + 1).
    { unfold currentStepOf at 1. now rewrite Hstate. }
    assert (Hlen : arcLengthOf W = arcLengthOf w).
    { unfold arcLengthOf at 1. now rewrite Hstate. }
    rewrite Hstep, Hlen. repeat split; try assumption; try lia.
    intros Hthrows. apply injectionThrows_inv in Hthrows.
    exact Hthrows.
  - apply Z.ltb_ge in Hlt.
    destruct (currentStepOf w =? arcLengthOf w) eqn:Heq.
    + apply Z.eqb_eq in Heq.
      pose proof (completionSequence_sameArc host (settings w) (touch w))
        as (Hstep & Hlen & _).
      change (currentStepOf (touch w)) with (currentStepOf w) in Hstep.
      change (arcLengthOf (touch w)) with (arcLengthOf w) in Hlen.
      rewrite Hstep, Hlen. repeat split; lia.
    + apply Z.eqb_neq in Heq. cbn [worldOf].
      change (currentStepOf (touch w)) with (currentStepOf w).
      change (arcLengthOf (touch w)) with (arcLengthOf w).
      repeat split; try lia. apply touch_initialised.
Qed.

(** Scenario A: [arcLength = 15], [currentStep = 0]; the first qualifying
    message-received signal gives [currentStep = 1], in the setup phase
    with [positionInPhase = 1] and [totalInPhase = 4]. *)
Lemma scenario_A_first_message_counts :
  counted scenarioAWorld assistantMessage = true
  /\ currentStepOf
       (worldOf (onMessageReceived failingHost assistantMessage scenarioAWorld)) = 1
  /\ phase (getPhaseInfo 1 15) = setup
  /\ positionInPhase (getPhaseInfo 1 15) = 1
  /\ totalInPhase (getPhaseInfo 1 15) = 4.
Proof.
  assert (Hc : counted scenarioAWorld assistantMessage = true) by reflexivity.
  split; [exact Hc|].
  destruct (counted_checkpoint_advances_by_one_up_to_arc_length
              failingHost assistantMessage scenarioAWorld Hc) as [Hlt _].
  assert (H : currentStepOf scenarioAWorld < arcLengthOf scenarioAWorld)
    by (vm_compute; reflexivity).
  destruct (Hlt H) as (_ & _ & Hstep & _).
  split; [exact Hstep|]. repeat split; vm_compute; reflexivity.
Defined.

(** ** One-shot suppression of a regeneration *)

Lemma deliver_swipe (signal : Signal) (w : World) :
  swipeSignal signal = true ->
  deliver signal w = prompted (set_isRegenerating true w).
Proof.
  destruct signal; try discriminate; intros _;
    unfold deliver, dispatch, onMessageSwiped, onMessageRegenerated;
    mstep; rewrite updateStoryPrompt_eq; now rewrite worldOf_outcome.
Qed.

Lemma calm_refl (w : World) : calm w w.
Proof. split; [apply sameArc_refl | now split]. Qed.

Lemma calm_trans (w1 w2 w3 : World) : calm w1 w2 -> calm w2 w3 -> calm w1 w3.
Proof.
  intros (Ha & Hc & Hs) (Ha' & Hc' & Hs').
  split; [exact (sameArc_trans _ _ _ Ha Ha') | split; congruence].
Qed.

Lemma calm_prompted (w : World) : calm w (prompted w).
Proof.
  split; [apply sameArc_prompted|]. split; [|apply savedMetadata_prompted].
  unfold prompted.
  destruct (negb (Settings.enabled (settings w))); [reflexivity|].
  destruct (injectionThrows false w); [reflexivity|].
  destruct (negb (truthy (injectionText false w))); reflexivity.
Qed.

Lemma calm_flags (w w' : World) :
  calm w w' ->
  isRegenerating w' = isRegenerating w /\ isLoadingChat w' = isLoadingChat w.
Proof. now intros ((_ & _ & _ & Hr & Hl) & _). Qed.

(** While the flag is set and no chat is loading, a signal of
    [beforeCheckpoint] changes neither the flags nor the arc state. *)
Lemma deliver_before (signal : Signal) (w : World) :
  beforeCheckpoint signal = true ->
  isLoadingChat w = false -> isRegenerating w = true ->
  calm w (deliver signal w).
Proof.
  intros Hb Hload Hregen.
  assert (Hset : calm w (set_isRegenerating true w)).
  { unfold calm, sameArc. cbn. now repeat split. }
  destruct signal as [| | |host data| |]; try discriminate.
  - rewrite deliver_swipe by reflexivity.
    exact (calm_trans _ _ _ Hset (calm_prompted _)).
  - rewrite deliver_swipe by reflexivity.
    exact (calm_trans _ _ _ Hset (calm_prompted _)).
  - cbn [beforeCheckpoint] in Hb. unfold deliver, dispatch.
    rewrite (onMessageReceived_user _ _ _ Hb). apply calm_refl.
  - unfold calm, sameArc. cbn. now repeat split.
Qed.

Lemma run_before (signals : list Signal) (w : World) :
  forallb beforeCheckpoint signals = true ->
  isLoadingChat w = false -> isRegenerating w = true ->
  calm w (run signals w).
Proof.
  revert w. induction signals as [|signal signals IH]; intros w Hb Hload Hregen.
  - apply calm_refl.
  - cbn [forallb] in Hb. apply andb_prop in Hb as [Hsignal Hrest].
    pose proof (deliver_before signal w Hsignal Hload Hregen) as Hone.
    change (run (signal :: signals) w) with (run signals (deliver signal w)).
    apply (calm_trans _ _ _ Hone).
    destruct (calm_flags _ _ Hone) as [Hr Hl].
    apply IH; [exact Hrest | congruence | congruence].
Qed.

(** The handler of [GENERATION_STARTED] on a chat with messages clears
    both transient flags and keeps the arc state. *)
Lemma deliver_generation_started (w : World) :
  chat w <> [] ->
  deliver GENERATION_STARTED w
  = prompted (set_isRegenerating false (set_isLoadingChat false w)).
Proof.
  intros Hchat. unfold deliver, dispatch, onGenerationStarted.
  repeat mstep. cbn [chat set_isLoadingChat].
  destruct (chat w) as [|m rest]; [now elim Hchat|]. cbn [List.length Nat.ltb Nat.leb].
  mstep. rewrite updateStoryPrompt_eq. now rewrite worldOf_outcome.
Qed.

Lemma generation_started_clears_flags (w : World) :
  chat w <> [] ->
  isRegenerating (deliver GENERATION_STARTED w) = false
  /\ isLoadingChat (deliver GENERATION_STARTED w) = false
  /\ currentStepOf (deliver GENERATION_STARTED w) = currentStepOf w.
Proof.
  intros Hchat. rewrite (deliver_generation_started _ Hchat).
  destruct (sameArc_prompted (set_isRegenerating false (set_isLoadingChat false w)))
    as (Hstep & _ & _ & Hregen & Hload).
  now repeat split.
Qed.

(** While no flag is set and the chat has messages, a signal of
    [afterCheckpoint] changes neither the flags nor the arc state. *)
Lemma deliver_after (signal : Signal) (w : World) :
  afterCheckpoint signal = true ->
  isLoadingChat w = false -> isRegenerating w = false -> chat w <> [] ->
  calm w (deliver signal w).
Proof.
  intros Ha Hload Hregen Hchat.
  destruct signal as [| | |host data| |]; try discriminate.
  - rewrite (deliver_generation_started _ Hchat).
    refine (calm_trans _ _ _ _ (calm_prompted _)).
    unfold calm, sameArc. cbn. now repeat split.
  - cbn [afterCheckpoint] in Ha. unfold deliver, dispatch.
    rewrite (onMessageReceived_user _ _ _ Ha). apply calm_refl.
  - unfold calm, sameArc. cbn. now repeat split.
Qed.

Lemma run_after (signals : list Signal) (w : World) :
  forallb afterCheckpoint signals = true ->
  isLoadingChat w = false -> isRegenerating w = false -> chat w <> [] ->
  calm w (run signals w).
Proof.
  revert w. induction signals as [|signal signals IH]; intros w Ha Hload Hregen Hchat.
  - apply calm_refl.
  - cbn [forallb] in Ha. apply andb_prop in Ha as [Hsignal Hrest].
    pose proof (deliver_after signal w Hsignal Hload Hregen Hchat) as Hone.
    change (run (signal :: signals) w) with (run signals (deliver signal w)).
    apply (calm_trans _ _ _ Hone).
    destruct (calm_flags _ _ Hone) as [Hr Hl]. destruct Hone as (_ & Hc & _).
    apply IH; [exact Hrest | congruence | congruence | congruence].
Qed.

Lemma counted_step (host : Generator) (data : EventData) (w : World) :
  counted w data = true ->
  currentStepOf w < arcLengthOf w ->
  currentStepOf (deliver (MESSAGE_RECEIVED host data) w) = currentStepOf w + 1.
Proof.
  intros Hc Hlt. unfold deliver, dispatch.
  rewrite (onMessageReceived_counted _ _ _ Hc).
  apply Z.ltb_lt in Hlt. rewrite Hlt, worldOf_outcome. unfold currentStepOf at 1.
  now rewrite chatStateOf_touch, chatStateOf_prompted, chatStateOf_stored.
Qed.

(** What the code keeps of the one-shot suppression.  After a swipe or
    regenerate signal on a chat with
    messages has set the regeneration flag, with no chat loading: if only
    user message-received signals, expiries of the loading timer and further
    swipes or regenerations are delivered before the next assistant
    message-received signal, that signal is suppressed ([currentStep]
    unchanged, nothing saved, flag cleared); and if then only user
    message-received signals, timer expiries and generation-about-to-start
    signals come before the following assistant message-received signal,
    that one increments [currentStep] by one (feature and arc enabled,
    [currentStep < arcLength]).  A generation-about-to-start signal
    delivered while the flag is still set clears [isRegenerating] as well as
    [isLoadingChat]: it ends the suppression, and the assistant
    message-received signal that follows it is counted. *)
Lemma one_shot_suppression_without_generation_start
    (first : Signal) (before after : list Signal)
    (host1 host2 : Generator) (data1 data2 : EventData) (w : World) :
  swipeSignal first = true ->
  isLoadingChat w = false ->
  chat w <> [] ->
  forallb beforeCheckpoint before = true ->
  forallb afterCheckpoint after = true ->
  dataIsUser data1 = false ->
  dataIsUser data2 = false ->
  let w1 := deliver first w in
  let w2 := deliver (MESSAGE_RECEIVED host1 data1) (run before w1) in
  let w3 := deliver (MESSAGE_RECEIVED host2 data2) (run after w2) in
  isRegenerating w1 = true
  /\ (currentStepOf w2 = currentStepOf w
      /\ savedMetadata w2 = savedMetadata w
      /\ isRegenerating w2 = false)
  /\ (Settings.enabled (settings w) = true ->
      Settings.storyArcEnabled (settings w) = true ->
      currentStepOf w < arcLengthOf w ->
      currentStepOf w3 = currentStepOf w + 1)
  /\ isRegenerating (deliver GENERATION_STARTED (run before w1)) = false
  /\ (Settings.enabled (settings w) = true ->
      Settings.storyArcEnabled (settings w) = true ->
      currentStepOf w < arcLengthOf w ->
      currentStepOf
        (deliver (MESSAGE_RECEIVED host1 data1)
           (deliver GENERATION_STARTED (run before w1)))
      = currentStepOf w + 1).
Proof.
  intros Hfirst Hload Hchat Hb Ha Hd1 Hd2 w1 w2 w3.
  (* the swipe *)
  assert (K1 : calm (set_isRegenerating true w) w1).
  { unfold w1. rewrite (deliver_swipe _ _ Hfirst). apply calm_prompted. }
  destruct (calm_flags _ _ K1) as [Hr1 Hl1].
  cbn [isRegenerating isLoadingChat set_isRegenerating] in Hr1, Hl1.
  rewrite Hload in Hl1.
  (* the signals before the checkpoint *)
  pose proof (run_before before w1 Hb Hl1 Hr1) as K2.
  destruct (calm_flags _ _ K2) as [Hr2 Hl2]. rewrite Hr1 in Hr2. rewrite Hl1 in Hl2.
  pose proof (calm_trans _ _ _ K1 K2) as K12.
  destruct K12 as ((Hs & Hlen & Hset & _ & _) & Hc & Hsaved).
  change (currentStepOf (set_isRegenerating true w)) with (currentStepOf w) in Hs.
  change (arcLengthOf (set_isRegenerating true w)) with (arcLengthOf w) in Hlen.
  cbn [settings chat savedMetadata set_isRegenerating] in Hset, Hc, Hsaved.
  (* the suppressed checkpoint *)
  assert (E2 : w2 = set_isRegenerating false (run before w1)).
  { unfold w2, deliver, dispatch.
    now rewrite (onMessageReceived_suppressed _ _ _ Hd1 Hl2 Hr2). }
  split; [exact Hr1|]. split; [|split].
  - rewrite E2. now repeat split.
  - intros Hon Harc Hlt.
    assert (Hl3 : isLoadingChat w2 = false) by (rewrite E2; exact Hl2).
    assert (Hr3 : isRegenerating w2 = false) by (now rewrite E2).
    assert (Hc3 : chat w2 <> []).
    { rewrite E2. cbn [chat set_isRegenerating]. now rewrite Hc. }
    pose proof (run_after after w2 Ha Hl3 Hr3 Hc3) as K3.
    destruct (calm_flags _ _ K3) as [Hr4 Hl4].
    destruct K3 as ((Hs4 & Hlen4 & Hset4 & _ & _) & _ & _).
    rewrite E2 in Hs4, Hlen4, Hset4.
    change (currentStepOf (set_isRegenerating false ?x)) with (currentStepOf x) in Hs4.
    change (arcLengthOf (set_isRegenerating false ?x)) with (arcLengthOf x) in Hlen4.
    cbn [settings set_isRegenerating] in Hset4. rewrite <- E2 in Hs4, Hlen4, Hset4.
    assert (Hcounted : counted (run after w2) data2 = true).
    { unfold counted. rewrite Hd2, Hl4, Hl3, Hr4, Hr3, Hset4, Hset, Hon, Harc.
      reflexivity. }
    unfold w3. rewrite (counted_step _ _ _ Hcounted); lia.
  - assert (Hc2 : chat (run before w1) <> []) by now rewrite Hc.
    split; [now apply generation_started_clears_flags|].
    intros Hon Harc Hlt. rewrite (deliver_generation_started _ Hc2).
    set (G := prompted _).
    destruct (calm_prompted
                (set_isRegenerating false (set_isLoadingChat false (run before w1))))
      as ((HsG & HlenG & HsetG & HrG & HlG) & _ & _).
    fold G in HsG, HlenG, HsetG, HrG, HlG.
    change (currentStepOf (set_isRegenerating false (set_isLoadingChat false ?x)))
      with (currentStepOf x) in HsG.
    change (arcLengthOf (set_isRegenerating false (set_isLoadingChat false ?x)))
      with (arcLengthOf x) in HlenG.
    cbn [settings isRegenerating isLoadingChat set_isRegenerating set_isLoadingChat]
      in HsetG, HrG, HlG.
    assert (Hcounted : counted G data1 = true).
    { unfold counted. now rewrite Hd1, HlG, HrG, HsetG, Hset, Hon, Harc. }
    rewrite (counted_step _ _ _ Hcounted); lia.
Qed.

(** A swipe, a user message, the regenerated assistant message (suppressed:
    still step 5), then the next generation and its assistant message
    (counted: step 6). *)
Lemma one_shot_suppression_witness :
  currentStepOf
    (run [MESSAGE_SWIPED;
          MESSAGE_RECEIVED failingHost userMessage;
          MESSAGE_RECEIVED failingHost assistantMessage] runningWorld) = 5
  /\ currentStepOf
       (run [MESSAGE_SWIPED;
             MESSAGE_RECEIVED failingHost userMessage;
             MESSAGE_RECEIVED failingHost assistantMessage;
             MESSAGE_RECEIVED failingHost userMessage;
             GENERATION_STARTED;
             MESSAGE_RECEIVED failingHost assistantMessage] runningWorld) = 6.
Proof.
  assert (Hchat : chat runningWorld <> []) by discriminate.
  destruct (one_shot_suppression_without_generation_start
              MESSAGE_SWIPED
              [MESSAGE_RECEIVED failingHost userMessage]
              [MESSAGE_RECEIVED failingHost userMessage; GENERATION_STARTED]
              failingHost failingHost assistantMessage assistantMessage
              runningWorld eq_refl eq_refl Hchat eq_refl eq_refl eq_refl eq_refl)
    as (_ & (Hsuppressed & _) & Hcounted & _).
  split; [exact Hsuppressed|].
  exact (Hcounted eq_refl eq_refl eq_refl).
Defined.

(** The suppression is lost whenever the host announces the regeneration:
    on a chat with messages a swipe or regenerate signal followed by the
    generation-about-to-start signal and the assistant message-received
    signal advances the step counter (feature and arc enabled,
    [currentStep < arcLength]). *)
Lemma announced_regeneration_is_counted
    (first : Signal) (host : Generator) (data : EventData) (w : World) :
  swipeSignal first = true ->
  chat w <> [] ->
  dataIsUser data = false ->
  Settings.enabled (settings w) = true ->
  Settings.storyArcEnabled (settings w) = true ->
  currentStepOf w < arcLengthOf w ->
  currentStepOf (run [first; GENERATION_STARTED; MESSAGE_RECEIVED host data] w)
  = currentStepOf w + 1.
Proof.
  intros Hswipe Hchat Huser Hon Harc Hlt.
  change (run [first; GENERATION_STARTED; MESSAGE_RECEIVED host data] w)
    with (deliver (MESSAGE_RECEIVED host data)
            (deliver GENERATION_STARTED (deliver first w))).
  set (w1 := deliver first w).
  assert (Hcalm : calm (set_isRegenerating true w) w1)
    by (unfold w1; rewrite (deliver_swipe _ _ Hswipe); apply calm_prompted).
  destruct Hcalm as ((Hstep1 & Hlen1 & Hsettings1 & _) & Hchat1 & _).
  assert (Hchat' : chat w1 <> []) by now rewrite Hchat1.
  set (w2 := deliver GENERATION_STARTED w1).
  destruct (generation_started_clears_flags w1 Hchat') as (Hregen & Hload & Hstep2).
  fold w2 in Hregen, Hload, Hstep2.
  assert (Hsame : sameArc (set_isRegenerating false (set_isLoadingChat false w1)) w2)
    by (unfold w2; rewrite (deliver_generation_started _ Hchat'); apply sameArc_prompted).
  destruct Hsame as (_ & Hlen2 & Hsettings2 & _).
  assert (Hc : counted w2 data = true).
  { unfold counted. rewrite Huser, Hload, Hregen, Hsettings2.
    cbn [settings set_isRegenerating set_isLoadingChat]. rewrite Hsettings1.
    cbn [settings set_isRegenerating]. now rewrite Hon, Harc. }
  assert (Hstep : currentStepOf w2 = currentStepOf w)
    by (rewrite Hstep2; exact Hstep1).
  assert (Hlen : arcLengthOf w2 = arcLengthOf w)
    by (rewrite Hlen2; exact Hlen1).
  rewrite (counted_step _ _ _ Hc); rewrite Hstep; [reflexivity|].
  now rewrite Hlen.
Qed.

(** C1 (the code against the claim).  The swipe sets the regeneration flag
    so that the regenerated message is not counted, but on a chat with
    messages the generation-about-to-start signal that precedes every
    generation clears [isRegenerating] together with [isLoadingChat]: the
    first assistant message-received signal after the swipe is counted
    (step 5 becomes 6) instead of suppressed, against the claim, which has
    the suppression hold when that signal comes between the swipe and the
    checkpoint. *)
Theorem generation_start_ends_the_suppression :
  isRegenerating (deliver MESSAGE_SWIPED runningWorld) = true
  /\ chat (deliver MESSAGE_SWIPED runningWorld) <> []
  /\ isRegenerating (run [MESSAGE_SWIPED; GENERATION_STARTED] runningWorld) = false
  /\ currentStepOf runningWorld = 5
  /\ currentStepOf
       (run [MESSAGE_SWIPED;
             GENERATION_STARTED;
             MESSAGE_RECEIVED failingHost assistantMessage] runningWorld) = 6
  /\ currentStepOf
       (run [MESSAGE_SWIPED;
             GENERATION_STARTED;
             MESSAGE_RECEIVED failingHost assistantMessage] runningWorld)
     <> currentStepOf runningWorld.
Proof.
  repeat split; try (vm_compute; reflexivity); vm_compute; discriminate.
Qed.

(** ** The completion sequence *)

(** With neither post-arc option enabled, a counted checkpoint at
    [currentStep = arcLength] appends the end notice and leaves a state in
    which the next checkpoint is counted at [currentStep = arcLength]
    again. *)
Lemma notice_checkpoint (host : Generator) (data : EventData) (w : World) :
  counted w data = true ->
  currentStepOf w = arcLengthOf w ->
  Settings.epilogueEnabled (settings w) = false ->
  Settings.summaryEnabled (settings w) = false ->
  onMessageReceived host data w = Ok tt (pushed NOTICE_TEXT (touch w))
  /\ counted (pushed NOTICE_TEXT (touch w)) data = true
  /\ currentStepOf (pushed NOTICE_TEXT (touch w))
     = arcLengthOf (pushed NOTICE_TEXT (touch w)).
Proof.
  intros Hc Heq Hepilogue Hsummary.
  rewrite (onMessageReceived_counted _ _ _ Hc), Heq, Z.ltb_irrefl, Z.eqb_refl.
  split; [|split; [exact Hc | exact Heq]].
  unfold completionSequence, epilogueStep, summaryStep.
  rewrite Hepilogue, Hsummary. cbn [andb when]. repeat mstep.
  rewrite noticeStep_eq. unfold conditionsMet.
  rewrite Hepilogue, Hsummary. reflexivity.
Qed.

(** C2 (the code against the claim). Scenario C: [arcLength = 10],
    [currentStep = 10], epilogue and summary disabled.  The first counted
    checkpoint appends the single end-of-arc notice and nothing else; the
    state it leaves is again a counted checkpoint at [currentStep =
    arcLength], and the second checkpoint appends the notice a second
    time: nothing records that the notice was shown. *)
Theorem end_notice_is_appended_at_every_checkpoint :
  counted scenarioCWorld assistantMessage = true
  /\ currentStepOf scenarioCWorld = arcLengthOf scenarioCWorld
  /\ chat (run [MESSAGE_RECEIVED failingHost assistantMessage] scenarioCWorld)
     = (chat scenarioCWorld ++ [storyMessage NOTICE_TEXT])%list
  /\ chat (run [MESSAGE_RECEIVED failingHost assistantMessage;
                MESSAGE_RECEIVED failingHost assistantMessage] scenarioCWorld)
     = (chat scenarioCWorld
        ++ [storyMessage NOTICE_TEXT; storyMessage NOTICE_TEXT])%list.
Proof.
  repeat split; vm_compute; reflexivity.
Qed.

(** ** Generation failures at the completion checkpoint *)

(** When the host rejects, or resolves to nothing or to blank text, the
    epilogue generator returns the empty string. *)
Lemma generateEpilogueForStory_failure (host : Generator) (w : World) :
  (forall request,
      host request = Rejects
      \/ host request = Resolves None
      \/ exists text, host request = Resolves (Some text) /\ trim text = "") ->
  generateEpilogueForStory host w = Ok "" w.
Proof.
  intros Hfail. unfold generateEpilogueForStory. mstep.
  match goal with |- context [if ?c then _ else _] => destruct c end;
    [reflexivity|].
  unfold tryCatch, bind, generateRaw.
  match goal with |- context [host ?r] =>
    destruct (Hfail r) as [E|[E|(text & E & Hblank)]]; rewrite E
  end; cbn [ret]; try reflexivity. now rewrite Hblank.
Qed.

(** When the epilogue generator comes back empty at the completion
    checkpoint, the epilogue step appends nothing and saves nothing,
    [epilogueShown] stays false, and the handler goes on to the summary step
    on the unchanged state: its result is the summary step's. *)
Lemma epilogue_failure_skips_only_the_epilogue
    (host : Generator) (data : EventData) (w : World) :
  counted w data = true ->
  currentStepOf w = arcLengthOf w ->
  Settings.epilogueEnabled (settings w) = true ->
  ChatState.epilogueShown (chatStateOf w) = false ->
  generateEpilogueForStory host (touch w) = Ok "" (touch w) ->
  epilogueStep host (settings w) (touch w) = Ok tt (touch w)
  /\ onMessageReceived host data w = summaryStep host (settings w) (touch w)
  /\ ChatState.epilogueShown
       (chatStateOf (worldOf (onMessageReceived host data w))) = false.
Proof.
  intros Hc Heq Hon Hshown Hgen.
  assert (Hstep : epilogueStep host (settings w) (touch w) = Ok tt (touch w)).
  { unfold epilogueStep. mstep. rewrite Hon, chatStateOf_touch, Hshown.
    cbn [andb negb when]. change (touch (touch w)) with (touch w).
    now rewrite (bind_ok _ _ _ _ _ Hgen). }
  assert (Hnotice : forall state,
             ChatState.epilogueShown state = false ->
             conditionsMet (settings w) state = false).
  { intros state Hs. unfold conditionsMet. rewrite Hon, Hs.
    cbn [negb andb orb]. now rewrite andb_false_r. }
  assert (Hrun : onMessageReceived host data w
                 = summaryStep host (settings w) (touch w)).
  { rewrite (onMessageReceived_counted _ _ _ Hc), Heq, Z.ltb_irrefl, Z.eqb_refl.
    unfold completionSequence. rewrite (bind_ok _ _ _ _ _ Hstep).
    destruct (summaryStep_outcome host (settings w) (touch w))
      as [E|[(_ & _ & _ & E)|(t & _ & _ & _ & E)]].
    - rewrite (bind_ok _ _ _ _ _ E), E, noticeStep_eq.
      now rewrite Hnotice by exact Hshown.
    - now rewrite (bind_threw _ _ _ _ E), E.
    - rewrite (bind_ok _ _ _ _ _ E), E, noticeStep_eq.
      now rewrite Hnotice by exact Hshown. }
  split; [exact Hstep|]. split; [exact Hrun|]. rewrite Hrun.
  destruct (summaryStep_outcome host (settings w) (touch w))
    as [E|[(_ & _ & _ & E)|(t & _ & _ & _ & E)]]; rewrite E; exact Hshown.
Qed.

(** C9 (the code against the claim). A complete arc with epilogue and
    summary enabled, and a host whose [generateRaw] rejects every call.  The
    rejection of the epilogue call is caught: the epilogue generator
    returns the empty string, no epilogue is appended and [epilogueShown]
    stays false (with the summary disabled the handler returns and changes
    nothing).  The summary step is then evaluated, its call of [generateRaw]
    rejects as well, and that exception leaves [onMessageReceived]:
    [summarizeChatMainForStory] has no [try] around the call. *)
Theorem summary_rejection_leaves_the_handler :
  generateEpilogueForStory failingHost postArcWorld = Ok "" postArcWorld
  /\ onMessageReceived failingHost assistantMessage epilogueOnlyWorld
     = Ok tt epilogueOnlyWorld
  /\ summarizeChatMainForStory failingHost postArcWorld = Threw postArcWorld
  /\ onMessageReceived failingHost assistantMessage postArcWorld
     = Threw postArcWorld
  /\ ChatState.epilogueShown (chatStateOf postArcWorld) = false.
Proof.
  repeat split; vm_compute; reflexivity.
Qed.

(** * Further properties of the code *)

(** ** Phase boundaries and percentages on the range of the arc-length
       slider *)

Lemma in_rangeZ (lo z : Z) (n : nat) :
  lo <= z < lo + Z.of_nat n -> In z (rangeZ lo n).
Proof.
  intros Hz. unfold rangeZ. apply in_map_iff.
  exists (Z.to_nat (z - lo)). split; [lia|]. apply in_seq. lia.
Qed.

Lemma forallb_rangeZ (f : Z -> bool) (lo : Z) (n : nat) :
  forallb f (rangeZ lo n) = true ->
  forall z, lo <= z < lo + Z.of_nat n -> f z = true.
Proof.
  intros Hall z Hz. rewrite forallb_forall in Hall.
  apply Hall. now apply in_rangeZ.
Qed.

Lemma boundary_floors (arcLength : Z) :
  1 <= arcLength <= 300 ->
  setupEndOf arcLength = 33 * arcLength / 100
  /\ confrontationEndOf arcLength = 66 * arcLength / 100.
Proof.
  intros Hrange.
  assert (Hin : 1 <= arcLength < 1 + Z.of_nat 300) by lia.
  assert (H : (setupEndOf arcLength =? 33 * arcLength / 100)
              && (confrontationEndOf arcLength =? 66 * arcLength / 100) = true).
  { apply (forallb_rangeZ
             (fun n => (setupEndOf n =? 33 * n / 100)
                       && (confrontationEndOf n =? 66 * n / 100))
             1 300); [|exact Hin].
    vm_cast_no_check (eq_refl true). }
  apply andb_prop in H as [H1 H2].
  split; now apply Z.eqb_eq.
Qed.

(** For every arc length the slider can produce, and below it down to 1,
    the boundaries [Math.floor(arcLength * 0.33)] and
    [Math.floor(arcLength * 0.66)], computed in doubles, are the exact
    floors of 33% and 66% of the arc length. *)
Theorem phase_boundaries_are_exact (arcLength : Z) :
  1 <= arcLength <= 300 ->
  setupEndOf arcLength = 33 * arcLength / 100
  /\ confrontationEndOf arcLength = 66 * arcLength / 100.
Proof. exact (boundary_floors arcLength). Qed.

Lemma phase_boundaries_are_exact_witness :
  1 <= 15 <= 300 /\ setupEndOf 15 = 4 /\ confrontationEndOf 15 = 9.
Proof.
  assert (H : 1 <= 15 <= 300) by lia.
  split; [exact H|].
  destruct (phase_boundaries_are_exact 15 H) as [H1 H2].
  rewrite H1, H2. split; reflexivity.
Defined.

Lemma roundPercent_nearest (t p : Z) :
  1 <= t <= 300 -> 0 <= p <= t ->
  exists q, JsNumber.roundPercent p t = JsNumber.Int q
            /\ 0 <= q <= 100
            /\ Z.abs (2 * t * q - 200 * p) <= t.
Proof.
  intros Ht Hp.
  assert (Hin : 1 <= t < 1 + Z.of_nat 300) by lia.
  assert (Hin' : 0 <= p < 0 + Z.of_nat (S (Z.to_nat t))) by lia.
  assert (Hcell : percentCheck t p = true).
  { apply (forallb_rangeZ (percentCheck t) 0 (S (Z.to_nat t))); [|exact Hin'].
    apply (forallb_rangeZ
             (fun t => forallb (percentCheck t) (rangeZ 0 (S (Z.to_nat t))))
             1 300); [|exact Hin].
    vm_cast_no_check (eq_refl true). }
  unfold percentCheck in Hcell.
  destruct (JsNumber.roundPercent p t) as [q| |]; try discriminate.
  apply andb_prop in Hcell as [Hbounds Hnear].
  apply andb_prop in Hbounds as [Hlo Hhi].
  exists q. split; [reflexivity|]. split; lia.
Qed.

(** On that range a percentage [Math.round((p / t) * 100)] with
    [0 <= p <= t] is an integer between 0 and 100 and a nearest integer to
    [100 p / t].  It need not be the one [Math.round] would pick on the exact
    quotient: [23 / 40] is rounded to a double below 0.575, so 57.5 percent
    comes out as 57. *)
Theorem percentages_are_nearest_integers (t p : Z) :
  1 <= t <= 300 -> 0 <= p <= t ->
  (exists q, JsNumber.roundPercent p t = JsNumber.Int q
             /\ 0 <= q <= 100
             /\ Z.abs (2 * t * q - 200 * p) <= t)
  /\ JsNumber.roundPercent 23 40 = JsNumber.Int 57.
Proof.
  intros Ht Hp. split; [now apply roundPercent_nearest | vm_compute; reflexivity].
Qed.

Lemma percentages_are_nearest_integers_witness :
  JsNumber.roundPercent 1 11 = JsNumber.Int 9.
Proof.
  assert (Ht : 1 <= 11 <= 300) by lia.
  assert (Hp : 0 <= 1 <= 11) by lia.
  destruct (percentages_are_nearest_integers 11 1 Ht Hp) as [(q & Hq & _ & _) _].
  rewrite Hq. vm_compute in Hq. now symmetry.
Defined.

(** [getPhaseInfo] on a positive arc length, in terms of its boundaries. *)
Lemma getPhaseInfo_eq (step arcLength : Z) :
  0 < arcLength ->
  getPhaseInfo step arcLength
  = if step <=? setupEndOf arcLength then
      {| phase := setup;
         positionInPhase := step;
         totalInPhase := setupEndOf arcLength - 1 + 1;
         percentInPhase := JsNumber.roundPercent step (setupEndOf arcLength - 1 + 1);
         phaseStart := 1;
         phaseEnd := setupEndOf arcLength |}
    else if step <=? confrontationEndOf arcLength then
      {| phase := confrontation;
         positionInPhase := step - setupEndOf arcLength;
         totalInPhase := confrontationEndOf arcLength - (setupEndOf arcLength + 1) + 1;
         percentInPhase :=
           JsNumber.roundPercent (step - setupEndOf arcLength)
             (confrontationEndOf arcLength - (setupEndOf arcLength + 1) + 1);
         phaseStart := setupEndOf arcLength + 1;
         phaseEnd := confrontationEndOf arcLength |}
    else
      {| phase := resolution;
         positionInPhase := step - confrontationEndOf arcLength;
         totalInPhase := arcLength - (confrontationEndOf arcLength + 1) + 1;
         percentInPhase :=
           JsNumber.roundPercent (step - confrontationEndOf arcLength)
             (arcLength - (confrontationEndOf arcLength + 1) + 1);
         phaseStart := confrontationEndOf arcLength + 1;
         phaseEnd := arcLength |}.
Proof.
  intros Hpos. unfold getPhaseInfo.
  assert (Hle : (arcLength <=? 0) = false) by now apply Z.leb_gt.
  rewrite Hle. fold (setupEndOf arcLength) (confrontationEndOf arcLength).
  destruct (step <=? setupEndOf arcLength); [reflexivity|].
  destruct (step <=? confrontationEndOf arcLength); reflexivity.
Qed.

(** For an arc length from 4 to 300 and a step inside the arc, the
    classification is consistent: the step lies between [phaseStart] and
    [phaseEnd], [positionInPhase] is its 1-based offset in the phase and is
    at most [totalInPhase], the three phases tile [1 .. arcLength] without
    gap, and [percentInPhase] is an integer from 0 to 100. *)
Theorem phase_of_a_step_inside_the_arc (step arcLength : Z) :
  4 <= arcLength <= 300 ->
  1 <= step <= arcLength ->
  let info := getPhaseInfo step arcLength in
  phaseStart info <= step <= phaseEnd info
  /\ positionInPhase info = step - phaseStart info + 1
  /\ 1 <= positionInPhase info <= totalInPhase info
  /\ 1 <= phaseStart info /\ phaseEnd info <= arcLength
  /\ (phase info = setup -> phaseStart info = 1)
  /\ (phase info = confrontation -> phaseStart info = setupEndOf arcLength + 1)
  /\ (phase info = resolution ->
      phaseStart info = confrontationEndOf arcLength + 1 /\ phaseEnd info = arcLength)
  /\ exists q, percentInPhase info = JsNumber.Int q /\ 0 <= q <= 100.
Proof.
  intros Hlen Hstep info. subst info.
  rewrite getPhaseInfo_eq by lia.
  destruct (boundary_floors arcLength) as [Hs Hc]; [lia|].
  assert (Hbounds : 1 <= setupEndOf arcLength < confrontationEndOf arcLength
                    /\ confrontationEndOf arcLength < arcLength).
  { rewrite Hs, Hc. Z.div_mod_to_equations. lia. }
  destruct (step <=? setupEndOf arcLength) eqn:H1;
    [apply Z.leb_le in H1 | apply Z.leb_gt in H1;
     destruct (step <=? confrontationEndOf arcLength) eqn:H2;
     [apply Z.leb_le in H2 | apply Z.leb_gt in H2]];
    cbn [phase positionInPhase totalInPhase percentInPhase phaseStart phaseEnd];
    (repeat split; try lia; try discriminate);
    match goal with
    | |- exists q, JsNumber.roundPercent ?p ?t = _ /\ _ =>
        let Ht := fresh in let Hp := fresh in
        assert (Ht : 1 <= t <= 300) by lia;
        assert (Hp : 0 <= p <= t) by lia;
        destruct (roundPercent_nearest t p Ht Hp) as (q & Hq & Hrange & _);
        exists q; split; [exact Hq | exact Hrange]
    end.
Qed.

Lemma phase_of_a_step_inside_the_arc_witness :
  phaseStart (getPhaseInfo 62 120) <= 62 <= phaseEnd (getPhaseInfo 62 120).
Proof.
  assert (Hlen : 4 <= 120 <= 300) by lia.
  assert (Hstep : 1 <= 62 <= 120) by lia.
  exact (proj1 (phase_of_a_step_inside_the_arc 62 120 Hlen Hstep)).
Defined.

(** The phases come in order and an overrun stays in the resolution: for
    an arc length from 1 to 300, a later step is never classified in an
    earlier phase, every step beyond [arcLength] is classified as resolution
    with [positionInPhase] above [totalInPhase], and no error is raised. *)
Theorem phases_are_ordered_and_overrun_is_resolution (step step' arcLength : Z) :
  1 <= arcLength <= 300 ->
  step <= step' ->
  phaseRank (phase (getPhaseInfo step arcLength))
  <= phaseRank (phase (getPhaseInfo step' arcLength))
  /\ (arcLength < step' ->
      phase (getPhaseInfo step' arcLength) = resolution
      /\ phaseEnd (getPhaseInfo step' arcLength) = arcLength
      /\ totalInPhase (getPhaseInfo step' arcLength)
         < positionInPhase (getPhaseInfo step' arcLength)).
Proof.
  intros Hlen Hle.
  destruct (boundary_floors arcLength Hlen) as [Hs Hc].
  assert (Hbounds : 0 <= setupEndOf arcLength <= confrontationEndOf arcLength
                    /\ confrontationEndOf arcLength < arcLength).
  { rewrite Hs, Hc. Z.div_mod_to_equations. lia. }
  rewrite !getPhaseInfo_eq by lia.
  destruct (step <=? setupEndOf arcLength) eqn:H1;
    destruct (step <=? confrontationEndOf arcLength) eqn:H2;
    destruct (step' <=? setupEndOf arcLength) eqn:H3;
    destruct (step' <=? confrontationEndOf arcLength) eqn:H4;
    rewrite ?Z.leb_le, ?Z.leb_gt in *;
    cbn [phase phaseRank phaseEnd totalInPhase positionInPhase];
    (split; [lia | intros Hover; repeat split; try reflexivity; lia]).
Qed.

Lemma phases_are_ordered_and_overrun_is_resolution_witness :
  phase (getPhaseInfo 35 30) = resolution.
Proof.
  assert (Hlen : 1 <= 30 <= 300) by lia.
  assert (Hle : 20 <= 35) by lia.
  destruct (phases_are_ordered_and_overrun_is_resolution 20 35 30 Hlen Hle)
    as [_ Hover].
  assert (H : 30 < 35) by lia.
  exact (proj1 (Hover H)).
Defined.

(** ** Signals that are not counted *)

Lemma onMessageReceived_disabled (host : Generator) (data : EventData) (w : World) :
  isRegenerating w = false ->
  Settings.enabled (settings w) = false
  \/ Settings.storyArcEnabled (settings w) = false ->
  onMessageReceived host data w = Ok tt w.
Proof.
  intros Hregen Hoff. unfold onMessageReceived. mstep.
  destruct (dataIsUser data); [reflexivity|]. mstep.
  destruct (isLoadingChat w); [reflexivity|]. mstep. rewrite Hregen.
  destruct Hoff as [-> | ->]; [reflexivity|].
  now destruct (Settings.enabled (settings w)).
Qed.

(** While a chat is loading, message-received signals are dropped before
    anything else is looked at: however many of them the host replays, for
    user or assistant messages, the state stays exactly as it was; in
    particular a pending regeneration flag is not consumed, nothing is
    saved, and the generator is not called. *)
Theorem replayed_messages_are_ignored_while_loading
    (signals : list Signal) (w : World) :
  isLoadingChat w = true ->
  forallb messageSignal signals = true ->
  run signals w = w.
Proof.
  intros Hload. induction signals as [|signal signals IH]; intros Hall;
    [reflexivity|].
  cbn [forallb] in Hall. apply andb_prop in Hall as [Hsignal Hrest].
  change (run (signal :: signals) w) with (run signals (deliver signal w)).
  destruct signal as [| | |host data| |]; try discriminate.
  unfold deliver, dispatch.
  destruct (dataIsUser data) eqn:Huser.
  - rewrite (onMessageReceived_user _ _ _ Huser). exact (IH Hrest).
  - rewrite (onMessageReceived_loading _ _ _ Huser Hload). exact (IH Hrest).
Qed.

Lemma replayed_messages_are_ignored_while_loading_witness :
  run [MESSAGE_RECEIVED failingHost assistantMessage;
       MESSAGE_RECEIVED failingHost userMessage;
       MESSAGE_RECEIVED failingHost assistantMessage] loadingWorld
  = loadingWorld.
Proof.
  exact (replayed_messages_are_ignored_while_loading
           [MESSAGE_RECEIVED failingHost assistantMessage;
            MESSAGE_RECEIVED failingHost userMessage;
            MESSAGE_RECEIVED failingHost assistantMessage]
           loadingWorld eq_refl eq_refl).
Defined.

(** ** The first generation of a chat *)

(** On a chat without messages the generation-about-to-start signal marks
    the coming message as not to be counted: it sets the regeneration flag,
    clears the loading flag and leaves the installed prompt as it is; the
    assistant message-received signal that follows leaves the step counter
    and the saved metadata untouched and clears the flag. *)
Theorem greeting_is_not_counted (host : Generator) (data : EventData) (w : World) :
  chat w = [] ->
  dataIsUser data = false ->
  let w1 := deliver GENERATION_STARTED w in
  let w2 := deliver (MESSAGE_RECEIVED host data) w1 in
  w1 = set_isRegenerating true (set_isLoadingChat false w)
  /\ w2 = set_isRegenerating false (set_isLoadingChat false w)
  /\ currentStepOf w2 = currentStepOf w
  /\ savedMetadata w2 = savedMetadata w
  /\ extensionPrompt w2 = extensionPrompt w.
Proof.
  intros Hchat Hdata w1 w2.
  assert (E1 : w1 = set_isRegenerating true (set_isLoadingChat false w)).
  { unfold w1, deliver, dispatch, onGenerationStarted. repeat mstep.
    cbn [chat set_isLoadingChat]. now rewrite Hchat. }
  assert (E2 : w2 = set_isRegenerating false (set_isLoadingChat false w)).
  { unfold w2, deliver, dispatch. rewrite E1.
    now rewrite (onMessageReceived_suppressed _ _ _ Hdata). }
  split; [exact E1|]. split; [exact E2|]. now rewrite E2.
Qed.

Lemma greeting_is_not_counted_witness :
  currentStepOf
    (run [GENERATION_STARTED; MESSAGE_RECEIVED failingHost assistantMessage]
         freshChatWorld) = 0
  /\ isRegenerating
       (run [GENERATION_STARTED; MESSAGE_RECEIVED failingHost assistantMessage]
            freshChatWorld) = false.
Proof.
  destruct (greeting_is_not_counted failingHost assistantMessage freshChatWorld
              eq_refl eq_refl) as (_ & E2 & Hstep & _).
  split; [exact Hstep|].
  change (run [GENERATION_STARTED; MESSAGE_RECEIVED failingHost assistantMessage]
              freshChatWorld)
    with (deliver (MESSAGE_RECEIVED failingHost assistantMessage)
            (deliver GENERATION_STARTED freshChatWorld)).
  now rewrite E2.
Defined.

(** ** The feature switched off *)

Lemma sameStory_refl (w : World) : sameStory w w.
Proof. now repeat split. Qed.

Lemma sameStory_trans (w1 w2 w3 : World) :
  sameStory w1 w2 -> sameStory w2 w3 -> sameStory w1 w3.
Proof.
  unfold sameStory.
  intros (a1 & a2 & a3 & a4 & a5 & a6 & a7) (b1 & b2 & b3 & b4 & b5 & b6 & b7).
  repeat split; congruence.
Qed.

Lemma sameStory_prompted (w : World) : sameStory w (prompted w).
Proof.
  unfold prompted.
  destruct (negb (Settings.enabled (settings w))); [now repeat split|].
  destruct (injectionThrows false w); [now repeat split|].
  destruct (negb (truthy (injectionText false w))); now repeat split.
Qed.

Lemma injectionThrows_sameStory (isPreview : bool) (w w' : World) :
  sameStory w w' -> injectionThrows isPreview w' = injectionThrows isPreview w.
Proof.
  intros (Hstate & Hsettings & Htypes & _). unfold injectionThrows.
  now rewrite Hstate, Hsettings, Htypes.
Qed.

(** When the refresh of the prompt throws, [onChatChanged] is left before
    it starts its timer. *)
Lemma deliver_chat_changed (w : World) :
  deliver CHAT_CHANGED w
  = if injectionThrows false w
    then prompted (set_isLoadingChat true (set_isRegenerating false w))
    else set_loadingTimers (S (loadingTimers w))
           (touch (prompted (set_isLoadingChat true (set_isRegenerating false w)))).
Proof.
  unfold deliver, dispatch, onChatChanged. repeat mstep.
  change (injectionThrows false (set_isLoadingChat true (set_isRegenerating false w)))
    with (injectionThrows false w).
  destruct (injectionThrows false w) eqn:Hthrows; [reflexivity|].
  unfold bind. rewrite updateStatusDisplay_eq. cbn [modify worldOf].
  f_equal.
  unfold prompted.
  change (injectionThrows false (set_isLoadingChat true (set_isRegenerating false w)))
    with (injectionThrows false w).
  rewrite Hthrows. cbn [settings set_isLoadingChat set_isRegenerating].
  destruct (negb (Settings.enabled (settings w))); [reflexivity|].
  match goal with |- context [if ?c then _ else _] => destruct c end; reflexivity.
Qed.

Lemma deliver_inert (signal : Signal) (w : World) :
  Settings.enabled (settings w) = false
  \/ Settings.storyArcEnabled (settings w) = false
  \/ arcLengthOf w < currentStepOf w ->
  sameStory w (deliver signal w).
Proof.
  intros Hinert.
  assert (Hflag : forall b, sameStory w (set_isRegenerating b w))
    by (intros b; now repeat split).
  destruct signal as [| | |host data| |].
  - destruct (chat w) as [|m rest] eqn:Hchat.
    + unfold deliver, dispatch, onGenerationStarted. repeat mstep.
      cbn [chat set_isLoadingChat]. rewrite Hchat. now repeat split.
    + rewrite deliver_generation_started by (rewrite Hchat; discriminate).
      refine (sameStory_trans _ _ _ _ (sameStory_prompted _)). now repeat split.
  - rewrite deliver_swipe by reflexivity.
    exact (sameStory_trans _ _ _ (Hflag true) (sameStory_prompted _)).
  - rewrite deliver_swipe by reflexivity.
    exact (sameStory_trans _ _ _ (Hflag true) (sameStory_prompted _)).
  - unfold deliver, dispatch.
    destruct (dataIsUser data) eqn:Huser;
      [rewrite (onMessageReceived_user _ _ _ Huser); apply sameStory_refl|].
    destruct (isLoadingChat w) eqn:Hload;
      [rewrite (onMessageReceived_loading _ _ _ Huser Hload); apply sameStory_refl|].
    destruct (isRegenerating w) eqn:Hregen;
      [rewrite (onMessageReceived_suppressed _ _ _ Huser Hload Hregen);
       apply Hflag|].
    destruct (Settings.enabled (settings w)) eqn:Hon;
      [|rewrite (onMessageReceived_disabled _ _ _ Hregen (or_introl Hon));
        apply sameStory_refl].
    destruct (Settings.storyArcEnabled (settings w)) eqn:Harc;
      [|rewrite (onMessageReceived_disabled _ _ _ Hregen (or_intror Harc));
        apply sameStory_refl].
    destruct Hinert as [H|[H|Hover]]; try discriminate.
    assert (Hc : counted w data = true)
      by (unfold counted; now rewrite Huser, Hload, Hregen, Hon, Harc).
    rewrite (onMessageReceived_counted _ _ _ Hc).
    assert (Hlt : (currentStepOf w <? arcLengthOf w) = false)
      by (apply Z.ltb_ge; lia).
    assert (Hne : (currentStepOf w =? arcLengthOf w) = false)
      by (apply Z.eqb_neq; lia).
    rewrite Hlt, Hne. now repeat split.
  - rewrite deliver_chat_changed.
    assert (H1 : sameStory w (set_isLoadingChat true (set_isRegenerating false w)))
      by now repeat split.
    pose proof (sameStory_trans _ _ _ H1 (sameStory_prompted _)) as H2.
    destruct (injectionThrows false w); [exact H2|].
    refine (sameStory_trans _ _ _ H2 _). now repeat split.
  - now repeat split.
Qed.

Lemma run_inert (signals : list Signal) (w : World) :
  Settings.enabled (settings w) = false
  \/ Settings.storyArcEnabled (settings w) = false
  \/ arcLengthOf w < currentStepOf w ->
  sameStory w (run signals w).
Proof.
  revert w. induction signals as [|signal signals IH]; intros w Hinert.
  - apply sameStory_refl.
  - change (run (signal :: signals) w) with (run signals (deliver signal w)).
    pose proof (deliver_inert signal w Hinert) as Hone.
    apply (sameStory_trans _ _ _ Hone). apply IH.
    destruct Hone as (Hstate & Hsettings & _).
    unfold arcLengthOf, currentStepOf. now rewrite Hstate, Hsettings.
Qed.

Lemma prompted_switched_off (w : World) :
  Settings.enabled (settings w) = false ->
  prompted w = set_extensionPrompt (Some clearedPrompt) w.
Proof. intros Hoff. unfold prompted. now rewrite Hoff. Qed.

Lemma deliver_switched_off_prompt (signal : Signal) (w : World) :
  Settings.enabled (settings w) = false ->
  extensionPrompt (deliver signal w) = extensionPrompt w
  \/ extensionPrompt (deliver signal w) = Some clearedPrompt.
Proof.
  intros Hoff.
  destruct signal as [| | |host data| |].
  - destruct (chat w) as [|m rest] eqn:Hchat.
    + left. unfold deliver, dispatch, onGenerationStarted. repeat mstep.
      cbn [chat set_isLoadingChat]. now rewrite Hchat.
    + right. rewrite deliver_generation_started by (rewrite Hchat; discriminate).
      now rewrite prompted_switched_off.
  - right. rewrite deliver_swipe by reflexivity. now rewrite prompted_switched_off.
  - right. rewrite deliver_swipe by reflexivity. now rewrite prompted_switched_off.
  - left. unfold deliver, dispatch.
    destruct (dataIsUser data) eqn:Huser;
      [now rewrite (onMessageReceived_user _ _ _ Huser)|].
    destruct (isLoadingChat w) eqn:Hload;
      [now rewrite (onMessageReceived_loading _ _ _ Huser Hload)|].
    destruct (isRegenerating w) eqn:Hregen.
    + now rewrite (onMessageReceived_suppressed _ _ _ Huser Hload Hregen).
    + now rewrite (onMessageReceived_disabled _ _ _ Hregen (or_introl Hoff)).
  - right. rewrite deliver_chat_changed, (injectionThrows_disabled _ _ Hoff).
    now rewrite prompted_switched_off.
  - now left.
Qed.

(** While the feature or the arc toggle is off, no sequence of lifecycle
    signals counts a step, appends or renders a message, or saves metadata:
    arc state, settings, catalogs, chat and saved snapshots stay as they
    were, whatever the generator would answer.  With the feature itself
    off, the installed prompt is either untouched or the cleared one. *)
Theorem switched_off_extension_is_inert (signals : list Signal) (w : World) :
  Settings.enabled (settings w) = false
  \/ Settings.storyArcEnabled (settings w) = false ->
  sameStory w (run signals w)
  /\ (Settings.enabled (settings w) = false ->
      extensionPrompt (run signals w) = extensionPrompt w
      \/ extensionPrompt (run signals w) = Some clearedPrompt).
Proof.
  intros Hoff. split.
  - apply run_inert. destruct Hoff as [H|H]; [now left | right; now left].
  - clear Hoff. revert w.
    induction signals as [|signal signals IH]; intros w Hdisabled; [now left|].
    change (run (signal :: signals) w) with (run signals (deliver signal w)).
    assert (Hsettings : settings (deliver signal w) = settings w).
    { now destruct (deliver_inert signal w (or_introl Hdisabled)) as (_ & H & _). }
    destruct (IH (deliver signal w)) as [E|E]; [now rewrite Hsettings| |now right].
    rewrite E. now apply deliver_switched_off_prompt.
Qed.

Lemma switched_off_extension_is_inert_witness :
  currentStepOf
    (run [MESSAGE_SWIPED; GENERATION_STARTED;
          MESSAGE_RECEIVED failingHost assistantMessage;
          CHAT_CHANGED; LOADING_TIMEOUT;
          MESSAGE_RECEIVED failingHost assistantMessage] switchedOffWorld) = 5.
Proof.
  destruct (switched_off_extension_is_inert
              [MESSAGE_SWIPED; GENERATION_STARTED;
               MESSAGE_RECEIVED failingHost assistantMessage;
               CHAT_CHANGED; LOADING_TIMEOUT;
               MESSAGE_RECEIVED failingHost assistantMessage]
              switchedOffWorld (or_introl eq_refl)) as [(Hstate & _) _].
  unfold currentStepOf. now rewrite Hstate.
Defined.

(** ** Chat changes and the loading timer *)

Lemma chat_changed_state (w : World) :
  isRegenerating (deliver CHAT_CHANGED w) = false
  /\ isLoadingChat (deliver CHAT_CHANGED w) = true
  /\ loadingTimers (deliver CHAT_CHANGED w)
     = (if injectionThrows false w then loadingTimers w else S (loadingTimers w))
  /\ sameStory w (deliver CHAT_CHANGED w).
Proof.
  rewrite deliver_chat_changed.
  destruct (sameArc_prompted (set_isLoadingChat true (set_isRegenerating false w)))
    as (_ & _ & _ & Hregen & Hload).
  assert (H1 : sameStory w (set_isLoadingChat true (set_isRegenerating false w)))
    by now repeat split.
  pose proof (sameStory_trans _ _ _ H1 (sameStory_prompted _)) as H2.
  assert (Htimers : loadingTimers
                      (prompted (set_isLoadingChat true (set_isRegenerating false w)))
                    = loadingTimers w).
  { unfold prompted.
    destruct (negb (Settings.enabled
                      (settings (set_isLoadingChat true (set_isRegenerating false w)))));
      [reflexivity|].
    destruct (injectionThrows false
                (set_isLoadingChat true (set_isRegenerating false w)));
      [reflexivity|].
    destruct (negb (truthy (injectionText false
                              (set_isLoadingChat true (set_isRegenerating false w)))));
      reflexivity. }
  destruct (injectionThrows false w).
  - split; [exact Hregen|]. split; [exact Hload|]. split; [exact Htimers|].
    exact H2.
  - cbn [isRegenerating isLoadingChat loadingTimers set_loadingTimers touch].
    split; [exact Hregen|]. split; [exact Hload|]. split; [reflexivity|].
    refine (sameStory_trans _ _ _ H2 _). now repeat split.
Qed.

(** A chat change clears the regeneration flag and sets the loading flag;
    it keeps the arc state, the chat and the saved snapshots.  It starts
    one more timer, unless the refresh of the prompt throws (the selected
    story type has no progress template): then the handler is left before
    the timer is started.  From then on every message-received signal is
    ignored, until a timer fires or a generation starts: either clears the
    loading flag. *)
Theorem chat_change_opens_a_grace_period (signals : list Signal) (w : World) :
  forallb messageSignal signals = true ->
  let w1 := deliver CHAT_CHANGED w in
  isRegenerating w1 = false
  /\ isLoadingChat w1 = true
  /\ loadingTimers w1
     = (if injectionThrows false w then loadingTimers w else S (loadingTimers w))
  /\ (injectionThrows false w = true ->
      exists storyType,
        find (fun t => String.eqb (storyTypeId t)
                         (ChatState.selectedStoryType (chatStateOf w)))
             (storyTypes w) = Some storyType
        /\ progressTemplate storyType = None)
  /\ sameStory w w1
  /\ run signals w1 = w1
  /\ isLoadingChat (deliver LOADING_TIMEOUT w1) = false
  /\ isLoadingChat (deliver GENERATION_STARTED w1) = false.
Proof.
  intros Hall w1.
  destruct (chat_changed_state w) as (Hregen & Hload & Htimers & Hsame).
  fold w1 in Hregen, Hload, Htimers, Hsame.
  split; [exact Hregen|]. split; [exact Hload|]. split; [exact Htimers|].
  split; [apply injectionThrows_inv|].
  split; [exact Hsame|].
  split.
  { clear Hregen Htimers. revert Hall.
    induction signals as [|signal signals IH]; intros Hall; [reflexivity|].
    cbn [forallb] in Hall. apply andb_prop in Hall as [Hsignal Hrest].
    change (run (signal :: signals) w1) with (run signals (deliver signal w1)).
    destruct signal as [| | |host data| |]; try discriminate.
    unfold deliver at 1, dispatch.
    destruct (dataIsUser data) eqn:Huser.
    - rewrite (onMessageReceived_user _ _ _ Huser). exact (IH Hrest).
    - rewrite (onMessageReceived_loading _ _ _ Huser Hload). exact (IH Hrest). }
  split; [reflexivity|].
  unfold deliver at 1, dispatch, onGenerationStarted. repeat mstep.
  match goal with |- context [if ?c then _ else _] => destruct c end.
  - mstep. rewrite updateStoryPrompt_eq, worldOf_outcome.
    match goal with |- isLoadingChat (prompted ?x) = _ =>
      destruct (sameArc_prompted x) as (_ & _ & _ & _ & H); now rewrite H
    end.
  - reflexivity.
Qed.

Lemma chat_change_opens_a_grace_period_witness :
  run [MESSAGE_RECEIVED failingHost assistantMessage;
       MESSAGE_RECEIVED failingHost assistantMessage]
      (deliver CHAT_CHANGED runningWorld)
  = deliver CHAT_CHANGED runningWorld.
Proof.
  now destruct (chat_change_opens_a_grace_period
                  [MESSAGE_RECEIVED failingHost assistantMessage;
                   MESSAGE_RECEIVED failingHost assistantMessage]
                  runningWorld eq_refl) as (_ & _ & _ & _ & _ & H & _).
Defined.

(** The timers of two chat changes are not told apart: when the chat
    changes twice and the first timer fires, the loading flag is cleared
    although the timer of the second change is still pending, and an
    assistant message received then is counted as a step.  (When the
    refresh of the prompt throws, the chat changes start no timer; a timer
    pending from before has the same effect.) *)
Theorem timer_of_an_earlier_chat_change_ends_the_grace_period
    (host : Generator) (data : EventData) (w : World) :
  dataIsUser data = false ->
  Settings.enabled (settings w) = true ->
  Settings.storyArcEnabled (settings w) = true ->
  currentStepOf w < arcLengthOf w ->
  let w3 := run [CHAT_CHANGED; CHAT_CHANGED; LOADING_TIMEOUT] w in
  isLoadingChat w3 = false
  /\ loadingTimers w3
     = (if injectionThrows false w then Nat.pred (loadingTimers w)
        else S (loadingTimers w))
  /\ currentStepOf (deliver (MESSAGE_RECEIVED host data) w3) = currentStepOf w + 1.
Proof.
  intros Huser Hon Harc Hlt w3.
  set (w1 := deliver CHAT_CHANGED w).
  set (w2 := deliver CHAT_CHANGED w1).
  assert (E3 : w3 = deliver LOADING_TIMEOUT w2) by reflexivity.
  destruct (chat_changed_state w) as (_ & _ & Ht1 & Hs1). fold w1 in Ht1, Hs1.
  destruct (chat_changed_state w1) as (Hr2 & _ & Ht2 & Hs2).
  fold w2 in Hr2, Ht2, Hs2.
  rewrite (injectionThrows_sameStory false _ _ Hs1) in Ht2.
  pose proof (sameStory_trans _ _ _ Hs1 Hs2) as (Hstate & Hsettings & _).
  assert (Hload : isLoadingChat w3 = false) by now rewrite E3.
  assert (Htimers : loadingTimers w3
                    = (if injectionThrows false w then Nat.pred (loadingTimers w)
                       else S (loadingTimers w))).
  { rewrite E3. unfold deliver, dispatch, onLoadingTimeout. repeat mstep.
    cbn [worldOf modify loadingTimers set_loadingTimers set_isLoadingChat].
    rewrite Ht2, Ht1. now destruct (injectionThrows false w). }
  assert (Hstate3 : chatStateOf w3 = chatStateOf w) by now rewrite E3.
  assert (Hsettings3 : settings w3 = settings w) by now rewrite E3.
  assert (Hregen3 : isRegenerating w3 = false) by now rewrite E3.
  split; [exact Hload|]. split; [exact Htimers|].
  assert (Hc : counted w3 data = true).
  { unfold counted. now rewrite Huser, Hload, Hregen3, Hsettings3, Hon, Harc. }
  rewrite (counted_step _ _ _ Hc); unfold currentStepOf, arcLengthOf;
    rewrite Hstate3; [reflexivity | exact Hlt].
Qed.

Lemma timer_of_an_earlier_chat_change_ends_the_grace_period_witness :
  currentStepOf
    (run [CHAT_CHANGED; CHAT_CHANGED; LOADING_TIMEOUT;
          MESSAGE_RECEIVED failingHost assistantMessage] runningWorld) = 6
  /\ loadingTimers (run [CHAT_CHANGED; CHAT_CHANGED; LOADING_TIMEOUT] runningWorld) = 1%nat.
Proof.
  destruct (timer_of_an_earlier_chat_change_ends_the_grace_period
              failingHost assistantMessage runningWorld
              eq_refl eq_refl eq_refl ltac:(vm_compute; reflexivity))
    as (_ & Htimers & Hstep).
  split; [exact Hstep | exact Htimers].
Defined.

(** ** The prompt after the checkpoint that completes the arc *)

Lemma storyPart_complete (s : Settings.t) (state : ChatState.t)
    (catalog : list StoryType) :
  ChatState.arcLength state <= ChatState.currentStep state ->
  storyPart s state catalog false = Some [].
Proof.
  intros Hdone. unfold storyPart.
  match goal with |- (if ?c then _ else _) = _ => destruct c end; [|reflexivity].
  match goal with |- match ?f with _ => _ end = _ => destruct f end; [|reflexivity].
  apply Z.ltb_ge in Hdone. now rewrite Hdone.
Qed.

(** The counted checkpoint that brings [currentStep] to [arcLength]
    refreshes the prompt from the new state, and for that state the story
    segment is no longer composed: what is installed is the style block
    alone, or the cleared prompt when there is no style block.  The model
    is told nothing about the arc from then on, before any epilogue or
    notice has been produced.  This refresh cannot throw: no progress
    template is rendered for a completed arc. *)
Theorem story_segment_is_withdrawn_when_the_arc_completes
    (host : Generator) (data : EventData) (w : World) :
  counted w data = true ->
  currentStepOf w + 1 = arcLengthOf w ->
  let w1 := deliver (MESSAGE_RECEIVED host data) w in
  let style :=
    join (nl ++ nl) (stylePart (settings w) (chatStateOf w) (authorStyles w)) in
  currentStepOf w1 = arcLengthOf w1
  /\ threw (dispatch (MESSAGE_RECEIVED host data) w) = false
  /\ injectionText false w1 = style
  /\ extensionPrompt w1
     = Some (if truthy style
             then {| promptText := style;
                     promptPosition := Settings.position (settings w);
                     promptDepth := Settings.depth (settings w);
                     promptRole := Some (Settings.role (settings w)) |}
             else clearedPrompt).
Proof.
  intros Hc Hlast w1 style.
  pose proof (counted_inv _ _ Hc) as (_ & _ & _ & Hon & _).
  set (x := stored (ChatState.set_currentStep (currentStepOf w + 1)) w).
  assert (Hlt : (currentStepOf w <? arcLengthOf w) = true) by (apply Z.ltb_lt; lia).
  assert (Hdone : ChatState.arcLength (chatStateOf x)
                  <= ChatState.currentStep (chatStateOf x)).
  { unfold x. rewrite chatStateOf_stored. cbn [ChatState.arcLength
      ChatState.currentStep ChatState.set_currentStep].
    unfold currentStepOf, arcLengthOf in Hlast. rewrite <- Hlast.
    unfold currentStepOf. lia. }
  assert (Hcomposes : injectionThrows false x = false).
  { unfold injectionThrows. rewrite (storyPart_complete _ _ _ Hdone).
    apply andb_false_r. }
  assert (E1 : w1 = touch (prompted x)).
  { unfold w1, deliver, dispatch. rewrite (onMessageReceived_counted _ _ _ Hc).
    rewrite Hlt. apply worldOf_outcome. }
  assert (Hx : injectionText false x = style).
  { unfold injectionText, storySegments. change (settings x) with (settings w).
    rewrite Hon. cbn [negb]. now rewrite (storyPart_complete _ _ _ Hdone). }
  destruct (sameStory_prompted x) as (Hstate & Hsettings & Htypes & Hstyles & _).
  split; [|split; [|split]].
  - rewrite E1. unfold currentStepOf, arcLengthOf.
    rewrite chatStateOf_touch, Hstate. unfold x. rewrite chatStateOf_stored.
    cbn [ChatState.arcLength ChatState.currentStep ChatState.set_currentStep].
    exact Hlast.
  - unfold dispatch. rewrite (onMessageReceived_counted _ _ _ Hc), Hlt.
    fold x. now rewrite threw_outcome.
  - rewrite <- Hx, E1. unfold injectionText, storySegments.
    change (settings (touch (prompted x))) with (settings (prompted x)).
    change (storyTypes (touch (prompted x))) with (storyTypes (prompted x)).
    change (authorStyles (touch (prompted x))) with (authorStyles (prompted x)).
    now rewrite chatStateOf_touch, Hstate, Hsettings, Htypes, Hstyles.
  - rewrite E1. change (extensionPrompt (touch (prompted x)))
      with (extensionPrompt (prompted x)).
    unfold prompted. change (settings x) with (settings w).
    rewrite Hon, Hcomposes, Hx.
    cbn [negb]. now destruct (truthy style).
Qed.

Lemma story_segment_is_withdrawn_when_the_arc_completes_witness :
  promptText
    (match extensionPrompt
             (deliver (MESSAGE_RECEIVED failingHost assistantMessage) lastStepWorld)
     with
     | Some installed => installed
     | None => clearedPrompt
     end)
  = "<style>" ++ nl ++ "Short sentences. Dry wit." ++ nl ++ "</style>".
Proof.
  destruct (story_segment_is_withdrawn_when_the_arc_completes
              failingHost assistantMessage lastStepWorld eq_refl eq_refl)
    as (_ & _ & _ & Hprompt).
  rewrite Hprompt. vm_compute. reflexivity.
Defined.

(** ** The completion sequence when the generations succeed *)

Lemma generateEpilogueForStory_chat (host : Generator) (w w' : World) :
  chat w' = chat w ->
  valueOf (generateEpilogueForStory host w')
  = valueOf (generateEpilogueForStory host w).
Proof.
  intros Hchat. unfold generateEpilogueForStory. repeat mstep. rewrite Hchat.
  match goal with |- context [if ?c then _ else _] => destruct c end;
    [reflexivity|].
  unfold tryCatch, bind, generateRaw.
  match goal with |- context [host ?r] => destruct (host r) as [|text] end;
    reflexivity.
Qed.

Lemma summarizeChatMainForStory_chat (host : Generator) (w w' : World) :
  chat w' = chat w -> settings w' = settings w ->
  valueOf (summarizeChatMainForStory host w')
  = valueOf (summarizeChatMainForStory host w).
Proof.
  intros Hchat Hsettings.
  unfold summarizeChatMainForStory, getStoryTextToSummarize.
  repeat mstep. rewrite Hchat, Hsettings.
  match goal with |- context [if ?c then _ else _] => destruct c end;
    [reflexivity|].
  repeat mstep. rewrite Hsettings. unfold bind, generateRaw.
  match goal with |- context [host ?r] => destruct (host r) as [|text] end;
    reflexivity.
Qed.

Lemma epilogueStep_done (host : Generator) (s : Settings.t) (w : World) :
  ChatState.epilogueShown (chatStateOf w) = true ->
  epilogueStep host s w = Ok tt (touch w).
Proof.
  intros Hshown. unfold epilogueStep. mstep. rewrite Hshown.
  now rewrite andb_false_r.
Qed.

Lemma summaryStep_done (host : Generator) (s : Settings.t) (w : World) :
  ChatState.summaryShown (chatStateOf w) = true ->
  summaryStep host s w = Ok tt (touch w).
Proof.
  intros Hshown. unfold summaryStep. mstep. rewrite Hshown.
  now rewrite andb_false_r.
Qed.

Lemma epilogueStep_success (host : Generator) (s : Settings.t) (w : World)
    (epilogue : string) :
  Settings.epilogueEnabled s = true ->
  ChatState.epilogueShown (chatStateOf w) = false ->
  valueOf (generateEpilogueForStory host w) = Some epilogue ->
  truthy epilogue = true ->
  epilogueStep host s w
  = Ok tt (stored (ChatState.set_epilogueShown true) (pushed epilogue (touch w))).
Proof.
  intros Hon Hshown Hvalue Htruthy.
  destruct (epilogueStep_outcome host s w) as [E|(e & Hgen & _ & _ & E)].
  - exfalso. revert E. unfold epilogueStep. mstep. rewrite Hon, Hshown.
    cbn [andb negb when].
    destruct (generateEpilogueForStory_returns host (touch w)) as [e He].
    rewrite (bind_ok _ _ _ _ _ He).
    assert (e = epilogue) as ->.
    { rewrite <- (generateEpilogueForStory_chat host w (touch w) eq_refl), He in Hvalue.
      now injection Hvalue. }
    rewrite Htruthy. cbn [when]. repeat mstep. intros E.
    apply (f_equal (fun r => List.length (chat (worldOf r)))) in E.
    cbn in E. rewrite length_app in E. cbn in E. lia.
  - assert (e = epilogue) as ->.
    { rewrite <- (generateEpilogueForStory_chat host w (touch w) eq_refl), Hgen in Hvalue.
      now injection Hvalue. }
    exact E.
Qed.

Lemma summaryStep_success (host : Generator) (s : Settings.t) (w : World)
    (summary : string) :
  Settings.summaryEnabled s = true ->
  ChatState.summaryShown (chatStateOf w) = false ->
  valueOf (summarizeChatMainForStory host w) = Some summary ->
  truthy summary = true ->
  summaryStep host s w
  = Ok tt (stored (ChatState.set_summaryShown true) (pushed summary (touch w))).
Proof.
  intros Hon Hshown Hvalue Htruthy.
  rewrite <- (summarizeChatMainForStory_chat host w (touch w) eq_refl eq_refl)
    in Hvalue.
  unfold summaryStep. mstep. rewrite Hon, Hshown. cbn [andb negb when].
  destruct (summarizeChatMainForStory_outcome host (touch w)) as [[t Ht]|Ht];
    rewrite Ht in Hvalue; [|discriminate].
  injection Hvalue as ->. rewrite (bind_ok _ _ _ _ _ Ht), Htruthy.
  cbn [when]. now repeat mstep.
Qed.

(** When the arc is complete with both post-arc options enabled and both
    generations give text, one counted checkpoint appends, in this order,
    the epilogue, the summary (generated from the chat that already holds
    the epilogue) and the end notice; it sets and saves [epilogueShown],
    then [summaryShown], and leaves the step counter alone.  The next
    counted checkpoint does not call the generator again whatever it would
    answer: it appends the end notice only. *)
Theorem completed_arc_gets_epilogue_summary_and_notice
    (host later : Generator) (data : EventData) (w : World)
    (epilogue summary : string) :
  counted w data = true ->
  currentStepOf w = arcLengthOf w ->
  Settings.epilogueEnabled (settings w) = true ->
  Settings.summaryEnabled (settings w) = true ->
  ChatState.epilogueShown (chatStateOf w) = false ->
  ChatState.summaryShown (chatStateOf w) = false ->
  valueOf (generateEpilogueForStory host w) = Some epilogue ->
  truthy epilogue = true ->
  valueOf (summarizeChatMainForStory host (pushed epilogue w)) = Some summary ->
  truthy summary = true ->
  let w1 := deliver (MESSAGE_RECEIVED host data) w in
  let posted :=
    [storyMessage epilogue; storyMessage summary; storyMessage NOTICE_TEXT] in
  chat w1 = (chat w ++ posted)%list
  /\ rendered w1 = (rendered w ++ posted)%list
  /\ chatStateOf w1
     = ChatState.set_summaryShown true
         (ChatState.set_epilogueShown true (chatStateOf w))
  /\ savedMetadata w1
     = (chatStateOf w1 :: ChatState.set_epilogueShown true (chatStateOf w)
          :: savedMetadata w)%list
  /\ deliver (MESSAGE_RECEIVED later data) w1 = pushed NOTICE_TEXT w1.
Proof.
  intros Hc Heq He Hs Heshown Hsshown Hepilogue Hte Hsummary Hts w1 posted.
  set (w2 := stored (ChatState.set_epilogueShown true) (pushed epilogue (touch w))).
  set (w3 := stored (ChatState.set_summaryShown true) (pushed summary (touch w2))).
  assert (Hstep1 : epilogueStep host (settings w) (touch w) = Ok tt w2).
  { rewrite (epilogueStep_success host (settings w) (touch w) epilogue);
      [reflexivity | exact He | exact Heshown | | exact Hte].
    now rewrite (generateEpilogueForStory_chat host w (touch w) eq_refl). }
  assert (Hstep2 : summaryStep host (settings w) w2 = Ok tt w3).
  { rewrite (summaryStep_success host (settings w) w2 summary);
      [reflexivity | exact Hs | exact Hsshown | | exact Hts].
    now rewrite (summarizeChatMainForStory_chat host (pushed epilogue w) w2
                   eq_refl eq_refl). }
  assert (Hmet : forall state,
             ChatState.epilogueShown state = true ->
             ChatState.summaryShown state = true ->
             conditionsMet (settings w) state = true).
  { intros state H1 H2. unfold conditionsMet. rewrite He, Hs, H1, H2. reflexivity. }
  assert (E1 : w1 = pushed NOTICE_TEXT w3).
  { unfold w1, deliver, dispatch.
    rewrite (onMessageReceived_counted _ _ _ Hc), Heq, Z.ltb_irrefl, Z.eqb_refl.
    unfold completionSequence.
    rewrite (bind_ok _ _ _ _ _ Hstep1), (bind_ok _ _ _ _ _ Hstep2), noticeStep_eq.
    rewrite Hmet by reflexivity. reflexivity. }
  assert (Hstate : chatStateOf w1
                   = ChatState.set_summaryShown true
                       (ChatState.set_epilogueShown true (chatStateOf w)))
    by now rewrite E1.
  split; [|split; [|split; [|split]]].
  - rewrite E1. unfold posted. cbn. now rewrite <- !app_assoc.
  - rewrite E1. unfold posted. cbn. now rewrite <- !app_assoc.
  - exact Hstate.
  - rewrite Hstate. now rewrite E1.
  - assert (Hc1 : counted w1 data = true) by now rewrite E1.
    assert (Heq1 : currentStepOf w1 = arcLengthOf w1).
    { unfold currentStepOf, arcLengthOf. rewrite Hstate. exact Heq. }
    assert (Htouch : touch w1 = w1) by now rewrite E1.
    unfold deliver, dispatch.
    rewrite (onMessageReceived_counted _ _ _ Hc1), Heq1, Z.ltb_irrefl, Z.eqb_refl.
    unfold completionSequence. rewrite Htouch.
    assert (Hsettings : settings w1 = settings w) by now rewrite E1.
    rewrite (bind_ok _ _ _ _ _ (epilogueStep_done later _ w1
               ltac:(now rewrite Hstate))).
    rewrite Htouch.
    rewrite (bind_ok _ _ _ _ _ (summaryStep_done later _ w1
               ltac:(now rewrite Hstate))).
    rewrite Htouch, noticeStep_eq, Htouch, Hsettings.
    rewrite Hmet by now rewrite Hstate. reflexivity.
Qed.

Lemma completed_arc_gets_epilogue_summary_and_notice_witness :
  chat (deliver (MESSAGE_RECEIVED (constantHost "  **Epilogue** The rain stopped. ")
                                  assistantMessage) postArcWorld)
  = (chat postArcWorld
     ++ [storyMessage "**Epilogue** The rain stopped.";
         storyMessage "**Epilogue** The rain stopped.";
         storyMessage NOTICE_TEXT])%list.
Proof.
  now destruct (completed_arc_gets_epilogue_summary_and_notice
                  (constantHost "  **Epilogue** The rain stopped. ") failingHost
                  assistantMessage postArcWorld
                  "**Epilogue** The rain stopped." "**Epilogue** The rain stopped."
                  eq_refl eq_refl eq_refl eq_refl eq_refl eq_refl
                  eq_refl eq_refl eq_refl eq_refl) as [H _].
Defined.

(** ** What is handed to the summary generator *)

Lemma sliceFrom_last {A : Type} (count : Z) (l : list A) :
  0 < count -> sliceFrom (- count) l = lastN (Z.to_nat count) l.
Proof.
  intros Hpos. unfold sliceFrom, lastN.
  assert (Hneg : (- count <? 0) = true) by (apply Z.ltb_lt; lia).
  rewrite Hneg. f_equal. lia.
Qed.

Lemma lastN_all {A : Type} (l : list A) : lastN (List.length l) l = l.
Proof. unfold lastN. now rewrite Nat.sub_diag. Qed.

Lemma lastN_snoc {A : Type} (n : nat) (l : list A) (x : A) :
  lastN (S n) (l ++ [x])%list = (lastN n l ++ [x])%list.
Proof.
  unfold lastN. rewrite length_app. cbn [List.length].
  replace (List.length l + 1 - S n)%nat with (List.length l - n)%nat by lia.
  rewrite skipn_app.
  replace (List.length l - n - List.length l)%nat with 0%nat by lia.
  reflexivity.
Qed.

Lemma in_lastN {A : Type} (n : nat) (l : list A) (x : A) :
  In x (lastN n l) -> In x l.
Proof.
  unfold lastN. intros Hin.
  rewrite <- (firstn_skipn (List.length l - n) l). apply in_or_app. now right.
Qed.

Lemma getStoryTextToSummarize_eq (w : World) :
  0 <= Settings.summaryMessageCount (settings w) ->
  getStoryTextToSummarize w
  = Ok (join (nl ++ nl)
          (map mes
             (lastN (if Settings.summaryMessageCount (settings w) =? 0
                     then List.length (nonSystemMessages (chat w))
                     else Z.to_nat (Settings.summaryMessageCount (settings w)))
                    (nonSystemMessages (chat w))))) w.
Proof.
  intros Hcount. unfold getStoryTextToSummarize. repeat mstep.
  destruct (Settings.summaryMessageCount (settings w) =? 0) eqn:Hzero.
  - now rewrite lastN_all.
  - apply Z.eqb_neq in Hzero. rewrite sliceFrom_last by lia. reflexivity.
Qed.

(** The text handed to the summary generator, for a message count that is
    not negative: the messages that are not system messages and have text
    are kept in chat order; a count of 0 takes all of them, a count [N > 0]
    the last [N], or all when there are fewer; their texts are joined by a
    blank line.  Nothing is written. *)
Theorem summary_input_is_the_last_story_messages (w : World) :
  0 <= Settings.summaryMessageCount (settings w) ->
  let count := Settings.summaryMessageCount (settings w) in
  let stories := nonSystemMessages (chat w) in
  let n := if count =? 0 then List.length stories else Z.to_nat count in
  getStoryTextToSummarize w = Ok (join (nl ++ nl) (map mes (lastN n stories))) w
  /\ List.length (lastN n stories) = Nat.min n (List.length stories)
  /\ (exists dropped, stories = (dropped ++ lastN n stories)%list)
  /\ (forall m, In m (lastN n stories) ->
                In m (chat w) /\ is_system m = false /\ mes m <> "").
Proof.
  intros Hcount count stories n.
  split; [exact (getStoryTextToSummarize_eq w Hcount)|].
  split; [unfold lastN; rewrite length_skipn; lia|].
  split.
  - exists (firstn (List.length stories - n) stories). unfold lastN.
    now rewrite firstn_skipn.
  - intros m Hin. apply in_lastN in Hin. unfold stories, nonSystemMessages in Hin.
    apply filter_In in Hin as [Hin Hkeep].
    apply andb_prop in Hkeep as [Hsystem Htext].
    split; [exact Hin|]. split; [now apply negb_true_iff|].
    intros Hempty. unfold truthy in Htext. rewrite Hempty in Htext. discriminate.
Qed.

Lemma summary_input_is_the_last_story_messages_witness :
  getStoryTextToSummarize postArcWorld
  = Ok ("The door creaks open." ++ nl ++ nl ++ "She stepped in out of the rain.")
       postArcWorld.
Proof.
  destruct (summary_input_is_the_last_story_messages postArcWorld
              ltac:(vm_compute; discriminate)) as [H _].
  rewrite H. vm_compute. reflexivity.
Defined.

(** A message pushed by [pushStoryMessage] with some text is always the
    last piece of the text handed to the summary generator afterwards,
    whatever the message count (0 or positive): the summary of a completed
    arc covers the epilogue that was just appended. *)
Theorem pushed_story_message_ends_the_summary_input (text : string) (w : World) :
  truthy text = true ->
  0 <= Settings.summaryMessageCount (settings w) ->
  let count := Settings.summaryMessageCount (settings w) in
  let stories := nonSystemMessages (chat w) in
  let n := if count =? 0 then List.length stories else Nat.pred (Z.to_nat count) in
  (pushStoryMessage text ;; getStoryTextToSummarize) w
  = Ok (join (nl ++ nl) (map mes (lastN n stories) ++ [text])%list) (pushed text w).
Proof.
  intros Htruthy Hcount count stories n. mstep.
  rewrite getStoryTextToSummarize_eq by exact Hcount.
  change (settings (pushed text w)) with (settings w).
  change (chat (pushed text w)) with (chat w ++ [storyMessage text])%list.
  assert (Hstories : nonSystemMessages (chat w ++ [storyMessage text])%list
                     = (stories ++ [storyMessage text])%list).
  { unfold nonSystemMessages. rewrite filter_app. cbn [filter storyMessage
      is_system mes negb andb]. now rewrite Htruthy. }
  rewrite Hstories. f_equal. f_equal.
  assert (Hlast : forall k, lastN (S k) (stories ++ [storyMessage text])%list
                            = (lastN k stories ++ [storyMessage text])%list)
    by (intros k; apply lastN_snoc).
  unfold n. fold count. destruct (count =? 0) eqn:Hzero.
  - rewrite length_app. cbn [List.length].
    replace (List.length stories + 1)%nat with (S (List.length stories)) by lia.
    rewrite Hlast, map_app. reflexivity.
  - apply Z.eqb_neq in Hzero.
    replace (Z.to_nat count) with (S (Nat.pred (Z.to_nat count))) by (unfold count in *; lia).
    rewrite Hlast, map_app. reflexivity.
Qed.

Lemma pushed_story_message_ends_the_summary_input_witness :
  valueOf ((pushStoryMessage "**Epilogue** The rain stopped." ;;
            getStoryTextToSummarize) postArcWorld)
  = Some ("The door creaks open." ++ nl ++ nl
          ++ "She stepped in out of the rain." ++ nl ++ nl
          ++ "**Epilogue** The rain stopped.").
Proof.
  rewrite (pushed_story_message_ends_the_summary_input
             "**Epilogue** The rain stopped." postArcWorld eq_refl
             ltac:(vm_compute; discriminate)).
  vm_compute. reflexivity.
Defined.

(** ** A complete arc in a chat without story text *)

Lemma trimStart_blank (s : string) : blank s = true -> trimStart s = "".
Proof.
  induction s as [|c s IH]; [reflexivity|]. cbn [blank trimStart].
  intros H. apply andb_prop in H as [Hc Hs]. rewrite Hc. now apply IH.
Qed.

Lemma trim_blank (s : string) : blank s = true -> trim s = "".
Proof. intros H. unfold trim. now rewrite trimStart_blank. Qed.

Lemma blank_append (a b : string) : blank (a ++ b) = blank a && blank b.
Proof.
  induction a as [|c a IH]; [reflexivity|].
  cbn [append blank]. now rewrite IH, andb_assoc.
Qed.

Lemma blank_join (parts : list string) :
  forallb blank parts = true -> blank (join (nl ++ nl) parts) = true.
Proof.
  induction parts as [|part parts IH]; [reflexivity|].
  cbn [forallb]. intros H. apply andb_prop in H as [Hpart Hparts].
  destruct parts as [|next parts]; [exact Hpart|].
  change (join (nl ++ nl) (part :: next :: parts))
    with (part ++ (nl ++ nl) ++ join (nl ++ nl) (next :: parts)).
  rewrite !blank_append, Hpart, (IH Hparts). reflexivity.
Qed.

Lemma noStoryText_blank (messages : list Message) (k : nat) :
  noStoryText messages = true ->
  trim (join (nl ++ nl) (map mes (skipn k (nonSystemMessages messages)))) = "".
Proof.
  intros Hnone. apply trim_blank, blank_join.
  apply forallb_forall. intros text Hin.
  apply in_map_iff in Hin as (m & <- & Hin).
  assert (Hm : In m (nonSystemMessages messages)).
  { rewrite <- (firstn_skipn k (nonSystemMessages messages)).
    apply in_or_app. now right. }
  apply filter_In in Hm as [Hm Hkeep].
  apply andb_prop in Hkeep as [Hsystem _].
  unfold noStoryText in Hnone.
  pose proof (proj1 (forallb_forall _ _) Hnone m Hm) as Hblank.
  apply negb_true_iff in Hsystem. cbv beta in Hblank.
  now rewrite Hsystem in Hblank.
Qed.

(** When every message of the chat is a system message or is empty or
    whitespace, neither generator calls the host: both return the empty
    string, for every host.  A counted checkpoint at the end of the arc with
    a post-arc option still to be shown then appends nothing (no epilogue,
    no summary, no end notice), sets no flag, saves nothing and throws
    nothing, even when the host would reject. *)
Theorem chat_without_story_text_completes_silently
    (host : Generator) (data : EventData) (w : World) :
  noStoryText (chat w) = true ->
  counted w data = true ->
  currentStepOf w = arcLengthOf w ->
  (Settings.epilogueEnabled (settings w) = true
   /\ ChatState.epilogueShown (chatStateOf w) = false)
  \/ (Settings.summaryEnabled (settings w) = true
      /\ ChatState.summaryShown (chatStateOf w) = false) ->
  generateEpilogueForStory host w = Ok "" w
  /\ summarizeChatMainForStory host w = Ok "" w
  /\ onMessageReceived host data w = Ok tt (touch w).
Proof.
  intros Hnone Hc Heq Hpending.
  assert (Hepilogue : forall x, chat x = chat w ->
                                generateEpilogueForStory host x = Ok "" x).
  { intros x Hchat. unfold generateEpilogueForStory. mstep. rewrite Hchat.
    unfold sliceFrom. now rewrite (noStoryText_blank _ _ Hnone). }
  assert (Hsummary : forall x, chat x = chat w ->
                               summarizeChatMainForStory host x = Ok "" x).
  { intros x Hchat. unfold summarizeChatMainForStory, getStoryTextToSummarize.
    repeat mstep. rewrite Hchat.
    destruct (Settings.summaryMessageCount (settings x) =? 0).
    - change (nonSystemMessages (chat w))
        with (skipn 0 (nonSystemMessages (chat w))).
      now rewrite (noStoryText_blank _ _ Hnone).
    - unfold sliceFrom. now rewrite (noStoryText_blank _ _ Hnone). }
  split; [now apply Hepilogue|]. split; [now apply Hsummary|].
  rewrite (onMessageReceived_counted _ _ _ Hc), Heq, Z.ltb_irrefl, Z.eqb_refl.
  assert (Hstep1 : epilogueStep host (settings w) (touch w) = Ok tt (touch w)).
  { destruct (epilogueStep_outcome host (settings w) (touch w))
      as [E|(e & Hgen & Htruthy & _)]; [exact E|].
    change (touch (touch w)) with (touch w) in Hgen.
    rewrite (Hepilogue (touch w) eq_refl) in Hgen.
    injection Hgen as <-. discriminate. }
  assert (Hstep2 : summaryStep host (settings w) (touch w) = Ok tt (touch w)).
  { destruct (summaryStep_outcome host (settings w) (touch w))
      as [E|[(Hthrow & _)|(t & Hgen & Htruthy & _)]]; [exact E| |];
      change (touch (touch w)) with (touch w) in *.
    - rewrite (Hsummary (touch w) eq_refl) in Hthrow. discriminate.
    - rewrite (Hsummary (touch w) eq_refl) in Hgen.
      injection Hgen as <-. discriminate. }
  unfold completionSequence.
  rewrite (bind_ok _ _ _ _ _ Hstep1), (bind_ok _ _ _ _ _ Hstep2), noticeStep_eq.
  rewrite chatStateOf_touch.
  assert (Hmet : conditionsMet (settings w) (chatStateOf w) = false).
  { unfold conditionsMet.
    destruct Hpending as [[Hon Hshown]|[Hon Hshown]]; rewrite Hon, Hshown;
      cbn [negb andb orb]; rewrite ?andb_false_r; cbn [orb];
      rewrite ?andb_false_r; reflexivity. }
  now rewrite Hmet.
Qed.

Lemma chat_without_story_text_completes_silently_witness :
  onMessageReceived failingHost assistantMessage blankChatWorld
  = Ok tt blankChatWorld.
Proof.
  now destruct (chat_without_story_text_completes_silently
                  failingHost assistantMessage blankChatWorld
                  eq_refl eq_refl eq_refl (or_introl (conj eq_refl eq_refl)))
    as (_ & _ & H).
Defined.

(** ** The settings dialog *)

Lemma injectionText_sameStory (isPreview : bool) (w w' : World) :
  sameStory w w' -> injectionText isPreview w' = injectionText isPreview w.
Proof.
  intros (Hstate & Hsettings & Htypes & Hstyles & _).
  unfold injectionText, storySegments.
  now rewrite Hstate, Hsettings, Htypes, Hstyles.
Qed.

(** Two states with the same story get the same prompt from a refresh; a
    refresh that throws leaves each its own. *)
Lemma extensionPrompt_prompted (w w' : World) :
  sameStory w w' ->
  (injectionThrows false w = true -> extensionPrompt w' = extensionPrompt w) ->
  extensionPrompt (prompted w') = extensionPrompt (prompted w).
Proof.
  intros Hsame Hkept.
  pose proof (injectionText_sameStory false _ _ Hsame) as Htext.
  pose proof (injectionThrows_sameStory false _ _ Hsame) as Hthrows.
  destruct Hsame as (_ & Hsettings & _). unfold prompted.
  rewrite Hsettings, Htext, Hthrows.
  destruct (negb (Settings.enabled (settings w))); [reflexivity|].
  destruct (injectionThrows false w); [now apply Hkept|].
  destruct (negb (truthy (injectionText false w))); reflexivity.
Qed.

(** Refreshing the prompt twice installs what refreshing it once does. *)
Lemma extensionPrompt_prompted_twice (w : World) :
  extensionPrompt (prompted (prompted w)) = extensionPrompt (prompted w).
Proof.
  destruct (injectionThrows false w) eqn:Hthrows.
  - assert (Hon : Settings.enabled (settings w) = true).
    { unfold injectionThrows in Hthrows. now apply andb_prop in Hthrows as [H _]. }
    assert (E : prompted w = touch w)
      by (unfold prompted; now rewrite Hon, Hthrows).
    rewrite E. unfold prompted.
    change (settings (touch w)) with (settings w).
    change (injectionThrows false (touch w)) with (injectionThrows false w).
    now rewrite Hon, Hthrows.
  - apply (extensionPrompt_prompted _ _ (sameStory_prompted w)).
    rewrite Hthrows. discriminate.
Qed.

Lemma bind_buildFullInjection {B : Type} (isPreview : bool) (k : string -> M B)
    (w : World) :
  bind (buildFullInjection isPreview) k w
  = if injectionThrows isPreview w then Threw (touch w)
    else k (injectionText isPreview w) (touch w).
Proof.
  unfold bind. rewrite buildFullInjection_eq.
  now destruct (injectionThrows isPreview w).
Qed.

(** A composition that throws for the prompt throws for the preview. *)
Lemma injectionThrows_preview (w : World) :
  injectionThrows false w = true -> injectionThrows true w = true.
Proof.
  unfold injectionThrows, storyPart.
  destruct (Settings.enabled (settings w)); [|discriminate]. cbn [andb].
  destruct (Settings.storyArcEnabled (settings w)
            && truthy (ChatState.selectedStoryType (chatStateOf w)));
    [|discriminate].
  destruct (find _ (storyTypes w)); [|discriminate].
  rewrite orb_true_r.
  destruct (ChatState.currentStep (chatStateOf w)
            <? ChatState.arcLength (chatStateOf w));
    [trivial | discriminate].
Qed.


(** The slider handler throws when the preview cannot be composed; the
    state has been stored by then. *)
Lemma onArcLengthInput_eq (value : Z) (w : World) :
  let w1 := stored (Assign.chatArcLength value)
              (set_settings (Assign.arcLength value (settings w)) w) in
  onArcLengthInput value w = outcome (injectionThrows true w1) w1.
Proof.
  intros w1.
  unfold onArcLengthInput, updateArcBadgeInDialog, updatePreviewInDialog.
  repeat mstep. rewrite bind_buildFullInjection. fold w1.
  change (injectionThrows true (touch w1)) with (injectionThrows true w1).
  destruct (injectionThrows true w1); [reflexivity|].
  mstep. now rewrite updateStatusDisplay_eq.
Qed.

(** The reset handler throws when the prompt or the preview cannot be
    composed; the state has been stored by then. *)
Lemma onResetArc_eq (w : World) :
  onResetArc true w
  = outcome (injectionThrows true (stored resetArc w)) (prompted (stored resetArc w)).
Proof.
  unfold onResetArc, when, updateArcBadgeInDialog, updatePreviewInDialog.
  repeat mstep. change (touch (stored resetArc w)) with (stored resetArc w).
  set (x := stored resetArc w).
  pose proof (injectionThrows_preview x) as Hpreview.
  destruct (injectionThrows false x).
  - now rewrite (Hpreview eq_refl).
  - rewrite bind_buildFullInjection.
    rewrite (injectionThrows_sameStory true _ _ (sameStory_prompted x)).
    unfold x. rewrite !touch_prompted_stored. fold x.
    destruct (injectionThrows true x); [reflexivity|].
    mstep. rewrite updateStatusDisplay_eq. unfold x.
    now rewrite !touch_prompted_stored.
Qed.

Lemma onArcLengthInput_state (value : Z) (w : World) :
  arcLengthOf (worldOf (onArcLengthInput value w)) = value
  /\ currentStepOf (worldOf (onArcLengthInput value w)) = currentStepOf w
  /\ chat (worldOf (onArcLengthInput value w)) = chat w.
Proof.
  rewrite onArcLengthInput_eq. cbv zeta. rewrite worldOf_outcome.
  split; [reflexivity|]. split; [world_cases w; reflexivity | reflexivity].
Qed.

(** The reset button, once confirmed, puts the step counter of the chat
    back to 0 and clears [arcStarted], [epilogueShown] and [summaryShown];
    it keeps the arc length and the selections, hands the new state to
    [saveMetadata] and refreshes the prompt for it.  The handler throws
    exactly when the preview cannot be composed for the new state (the
    selected story type has no progress template); the state has been
    stored by then.  The next counted checkpoint is step 1 of the arc.
    Without the confirmation nothing changes. *)
Theorem reset_arc_starts_the_arc_again
    (host : Generator) (data : EventData) (w : World) :
  let w1 := worldOf (onResetArc true w) in
  onResetArc false w = Ok tt w
  /\ threw (onResetArc true w) = injectionThrows true (stored resetArc w)
  /\ chatStateOf w1 = resetArc (chatStateOf w)
  /\ currentStepOf w1 = 0
  /\ arcLengthOf w1 = arcLengthOf w
  /\ ChatState.epilogueShown (chatStateOf w1) = false
  /\ ChatState.summaryShown (chatStateOf w1) = false
  /\ ChatState.selectedStoryType (chatStateOf w1)
     = ChatState.selectedStoryType (chatStateOf w)
  /\ savedMetadata w1 = (chatStateOf w1 :: savedMetadata w)%list
  /\ extensionPrompt w1 = extensionPrompt (prompted w1)
  /\ (counted w data = true -> 0 < arcLengthOf w ->
      currentStepOf (deliver (MESSAGE_RECEIVED host data) w1) = 1).
Proof.
  intros w1. unfold w1. rewrite onResetArc_eq, worldOf_outcome, threw_outcome.
  pose proof (sameStory_prompted (stored resetArc w)) as Hsame.
  assert (Hstate : chatStateOf (prompted (stored resetArc w))
                   = resetArc (chatStateOf w))
    by now rewrite chatStateOf_prompted, chatStateOf_stored.
  split; [reflexivity|]. split; [reflexivity|]. split; [exact Hstate|].
  unfold currentStepOf, arcLengthOf. rewrite Hstate.
  split; [reflexivity|]. split; [reflexivity|]. split; [reflexivity|].
  split; [reflexivity|]. split; [reflexivity|].
  split; [now rewrite savedMetadata_prompted|].
  split; [symmetry; apply extensionPrompt_prompted_twice|].
  intros Hc Hpos.
  destruct (sameArc_prompted (stored resetArc w)) as (_ & _ & Hsettings & Hregen & Hload).
  assert (Hc1 : counted (prompted (stored resetArc w)) data = true).
  { unfold counted in *. now rewrite Hsettings, Hregen, Hload. }
  fold (currentStepOf (deliver (MESSAGE_RECEIVED host data) (prompted (stored resetArc w)))).
  rewrite (counted_step _ _ _ Hc1); unfold currentStepOf, arcLengthOf;
    rewrite Hstate; [reflexivity|exact Hpos].
Qed.

Lemma reset_arc_starts_the_arc_again_witness :
  currentStepOf
    (deliver (MESSAGE_RECEIVED failingHost assistantMessage)
       (worldOf (onResetArc true finishedWorld))) = 1.
Proof.
  destruct (reset_arc_starts_the_arc_again failingHost assistantMessage finishedWorld)
    as (_ & _ & _ & _ & _ & _ & _ & _ & _ & _ & Hnext).
  apply Hnext; [reflexivity | vm_compute; reflexivity].
Defined.

(** The arc-length slider stores its value as the default of new chats and
    as the arc length of the current chat, which it hands to
    [saveMetadata]; the step counter is kept.  It does not refresh the
    installed prompt, which still speaks of the old arc length; the prompt
    catches up at the next generation-about-to-start signal on a chat with
    messages.  The handler throws exactly when the preview cannot be
    composed for the new state; the state has been stored by then. *)
Theorem arc_length_slider_updates_the_state_not_the_prompt (value : Z) (w : World) :
  let w1 := worldOf (onArcLengthInput value w) in
  threw (onArcLengthInput value w) = injectionThrows true w1
  /\ arcLengthOf w1 = value
  /\ Settings.arcLength (settings w1) = value
  /\ currentStepOf w1 = currentStepOf w
  /\ savedMetadata w1 = (chatStateOf w1 :: savedMetadata w)%list
  /\ chat w1 = chat w
  /\ extensionPrompt w1 = extensionPrompt w
  /\ (chat w <> [] ->
      extensionPrompt (deliver GENERATION_STARTED w1) = extensionPrompt (prompted w1)).
Proof.
  intros w1. unfold w1. rewrite onArcLengthInput_eq. cbv zeta.
  rewrite worldOf_outcome, threw_outcome.
  split; [reflexivity|]. split; [reflexivity|]. split; [reflexivity|].
  split; [world_cases w; reflexivity|].
  split; [reflexivity|]. split; [reflexivity|]. split; [reflexivity|].
  intros Hchat. rewrite deliver_generation_started by exact Hchat.
  apply extensionPrompt_prompted; [now repeat split | reflexivity].
Qed.

Lemma arc_length_slider_updates_the_state_not_the_prompt_witness :
  extensionPrompt
    (deliver GENERATION_STARTED (worldOf (onArcLengthInput 12 runningWorld)))
  = extensionPrompt (prompted (worldOf (onArcLengthInput 12 runningWorld))).
Proof.
  destruct (arc_length_slider_updates_the_state_not_the_prompt 12 runningWorld)
    as (_ & _ & _ & _ & _ & _ & _ & Hnext).
  apply Hnext. discriminate.
Defined.

(** When the slider is moved below the step the chat has reached, the arc
    can neither advance nor complete: whatever signals follow, the step
    counter, the chat and the saved metadata stay as the slider left them;
    no epilogue, summary or end notice is ever appended and the generator is
    not called. *)
Theorem arc_shortened_below_the_step_never_completes
    (value : Z) (signals : list Signal) (w : World) :
  value < currentStepOf w ->
  let w1 := worldOf (onArcLengthInput value w) in
  arcLengthOf w1 < currentStepOf w1
  /\ sameStory w1 (run signals w1)
  /\ chat (run signals w1) = chat w.
Proof.
  intros Hbelow w1.
  destruct (onArcLengthInput_state value w) as (Hlength & Hstep & Hchat).
  fold w1 in Hlength, Hstep, Hchat.
  assert (Hover : arcLengthOf w1 < currentStepOf w1) by lia.
  pose proof (run_inert signals w1 (or_intror (or_intror Hover))) as Hsame.
  split; [exact Hover|]. split; [exact Hsame|].
  destruct Hsame as (_ & _ & _ & _ & H & _). now rewrite H.
Qed.

Lemma arc_shortened_below_the_step_never_completes_witness :
  chat (run [GENERATION_STARTED; MESSAGE_RECEIVED failingHost assistantMessage;
             GENERATION_STARTED; MESSAGE_RECEIVED failingHost assistantMessage]
            (worldOf (onArcLengthInput 5 scenarioCWorld)))
  = chat scenarioCWorld.
Proof.
  now destruct (arc_shortened_below_the_step_never_completes 5
                  [GENERATION_STARTED; MESSAGE_RECEIVED failingHost assistantMessage;
                   GENERATION_STARTED; MESSAGE_RECEIVED failingHost assistantMessage]
                  scenarioCWorld ltac:(vm_compute; reflexivity)) as (_ & _ & H).
Defined.

(** ** The catalogs *)

Section CatalogProperties.
Context {A : Type} (idOf nameOf : A -> string).

Lemma mergeItem_cons (item t : A) (rest : list A) :
  mergeItem idOf item (t :: rest)
  = if String.eqb (idOf t) (idOf item) then item :: rest
    else t :: mergeItem idOf item rest.
Proof using idOf.
  unfold mergeItem. cbn [findIndex].
  destruct (String.eqb (idOf t) (idOf item)); [reflexivity|].
  destruct (findIndex idOf (idOf item) rest); reflexivity.
Qed.

Lemma findById_mergeItem (id : string) (item : A) (items : list A) :
  findById idOf id (mergeItem idOf item items)
  = if String.eqb (idOf item) id then Some item else findById idOf id items.
Proof using idOf.
  induction items as [|t rest IH].
  - reflexivity.
  - rewrite mergeItem_cons. unfold findById in *.
    destruct (String.eqb (idOf t) (idOf item)) eqn:Hsame.
    + apply String.eqb_eq in Hsame. cbn [find]. rewrite Hsame.
      now destruct (String.eqb (idOf item) id).
    + cbn [find]. rewrite IH.
      destruct (String.eqb (idOf t) id) eqn:Ht; [|reflexivity].
      apply String.eqb_eq in Ht. subst id. now rewrite String.eqb_sym, Hsame.
Qed.

Lemma findById_snoc (id : string) (items : list A) (item : A) :
  findById idOf id (items ++ [item])
  = match findById idOf id items with
    | Some t => Some t
    | None => if String.eqb (idOf item) id then Some item else None
    end.
Proof using idOf.
  unfold findById. induction items as [|t rest IH]; [reflexivity|].
  cbn [app find]. now destruct (String.eqb (idOf t) id).
Qed.

Lemma findById_mergeAll (id : string) (incoming items : list A) :
  findById idOf id (mergeAll idOf incoming items)
  = match findById idOf id (rev incoming) with
    | Some t => Some t
    | None => findById idOf id items
    end.
Proof using idOf.
  revert items. induction incoming as [|item incoming IH]; intros items.
  - reflexivity.
  - change (mergeAll idOf (item :: incoming) items)
      with (mergeAll idOf incoming (mergeItem idOf item items)).
    rewrite IH, findById_mergeItem. cbn [rev]. rewrite findById_snoc.
    destruct (findById idOf id (rev incoming)); [reflexivity|].
    now destruct (String.eqb (idOf item) id).
Qed.

Lemma mergeImported_valid (imported items : list A) :
  forallb (fun t => negb (invalidEntry idOf nameOf t)) imported = true ->
  mergeImported idOf nameOf imported items = (mergeAll idOf imported items, false).
Proof.
  revert items. induction imported as [|item imported IH]; intros items Hvalid.
  - reflexivity.
  - cbn [forallb] in Hvalid. apply andb_prop in Hvalid as [Hitem Hrest].
    apply negb_true_iff in Hitem. cbn [mergeImported]. rewrite Hitem.
    now rewrite IH.
Qed.

Lemma mergeImported_invalid (valid rest items : list A) (bad : A) :
  forallb (fun t => negb (invalidEntry idOf nameOf t)) valid = true ->
  invalidEntry idOf nameOf bad = true ->
  mergeImported idOf nameOf (valid ++ bad :: rest) items
  = (mergeAll idOf valid items, true).
Proof.
  revert items. induction valid as [|item valid IH]; intros items Hvalid Hbad.
  - cbn [app mergeImported]. now rewrite Hbad.
  - cbn [forallb] in Hvalid. apply andb_prop in Hvalid as [Hitem Hrest].
    apply negb_true_iff in Hitem. cbn [app mergeImported]. rewrite Hitem.
    now rewrite IH.
Qed.

Lemma ids_mergeItem (item : A) (items : list A) :
  (In (idOf item) (map idOf items) ->
   map idOf (mergeItem idOf item items) = map idOf items)
  /\ (~ In (idOf item) (map idOf items) ->
      map idOf (mergeItem idOf item items) = (map idOf items ++ [idOf item])%list).
Proof using idOf.
  induction items as [|t rest [IHin IHout]].
  - split; [intros []|reflexivity].
  - rewrite mergeItem_cons.
    destruct (String.eqb (idOf t) (idOf item)) eqn:Hsame.
    + apply String.eqb_eq in Hsame. split.
      * intros _. cbn [map]. now rewrite Hsame.
      * intros Hout. elim Hout. left. exact Hsame.
    + apply String.eqb_neq in Hsame. split.
      * intros [Hhead|Hin]; [now elim Hsame|]. cbn [map]. now rewrite IHin.
      * intros Hout. cbn [map app]. rewrite IHout; [reflexivity|].
        intros Hin. apply Hout. now right.
Qed.

Lemma ids_mergeItem_cases (item : A) (items : list A) :
  (In (idOf item) (map idOf items)
   /\ map idOf (mergeItem idOf item items) = map idOf items)
  \/ (~ In (idOf item) (map idOf items)
      /\ map idOf (mergeItem idOf item items) = (map idOf items ++ [idOf item])%list).
Proof using idOf.
  destruct (in_dec string_dec (idOf item) (map idOf items)) as [Hin|Hout].
  - left. split; [exact Hin | now apply ids_mergeItem].
  - right. split; [exact Hout | now apply ids_mergeItem].
Qed.

(** An import whose entries all have an id and a name merges every entry,
    in order: afterwards the entry found under an id is the last imported
    entry with that id, and the entry the catalog had when no imported
    entry has that id.  The start-up migration runs the same loop without
    the validation. *)
Theorem import_replaces_by_id (imported items : list A) :
  forallb (fun t => negb (invalidEntry idOf nameOf t)) imported = true ->
  mergeImported idOf nameOf imported items = (mergeAll idOf imported items, false)
  /\ forall id,
       findById idOf id (mergeAll idOf imported items)
       = match findById idOf id (rev imported) with
         | Some t => Some t
         | None => findById idOf id items
         end.
Proof.
  intros Hvalid. split; [now apply mergeImported_valid|].
  intros id. apply findById_mergeAll.
Qed.

(** Merging keeps the entries of the catalog at their positions and
    appends the entries with new ids after them; the ids of the result are
    those of the catalog and of the incoming entries; and when the ids of
    the catalog are pairwise different they still are afterwards, even when
    an id occurs several times among the incoming entries. *)
Theorem merge_keeps_positions_and_unique_ids (incoming items : list A) :
  (exists added,
      map idOf (mergeAll idOf incoming items) = (map idOf items ++ added)%list)
  /\ (forall id,
        In id (map idOf (mergeAll idOf incoming items))
        <-> In id (map idOf items) \/ In id (map idOf incoming))
  /\ (NoDup (map idOf items) -> NoDup (map idOf (mergeAll idOf incoming items))).
Proof using idOf.
  clear nameOf.
  revert items. induction incoming as [|item incoming IH]; intros items.
  - split; [exists []; now rewrite app_nil_r|].
    split; [intros id; cbn; tauto | trivial].
  - change (mergeAll idOf (item :: incoming) items)
      with (mergeAll idOf incoming (mergeItem idOf item items)).
    destruct (IH (mergeItem idOf item items)) as ([added Hadded] & Hmem & Huniq).
    destruct (ids_mergeItem_cases item items) as [[Hin Hids]|[Hout Hids]];
      rewrite Hids in *.
    + split; [now exists added|]. split; [|exact Huniq].
      intros id. rewrite Hmem. cbn [map In]. split.
      * intros [H|H]; [now left | right; now right].
      * intros [H|[H|H]]; [now left | subst id; now left | now right].
    + split; [exists (idOf item :: added); rewrite Hadded, <- app_assoc; reflexivity|].
      split.
      * intros id. rewrite Hmem, in_app_iff. cbn [map In]. tauto.
      * intros Hnodup. apply Huniq.
        apply NoDup_rev in Hnodup. rewrite <- (rev_involutive (_ ++ _)).
        apply NoDup_rev. rewrite rev_app_distr. cbn [rev app].
        constructor; [|exact Hnodup]. now rewrite <- in_rev.
Qed.

(** An entry without id or name stops the import where it stands: the
    entries before it are already merged into the catalog in memory, the
    entries after it are not looked at, and the store is not written.  The
    catalog in memory then differs from the stored one, which is what the
    next start loads. *)
Theorem failed_import_is_partial
    (writable : bool) (valid rest items : list A) (bad : A)
    (stored : option (list A)) :
  forallb (fun t => negb (invalidEntry idOf nameOf t)) valid = true ->
  invalidEntry idOf nameOf bad = true ->
  importCatalog idOf nameOf writable (valid ++ bad :: rest) items stored
  = (mergeAll idOf valid items, stored)
  /\ forall file t kept,
       stored = Some (t :: kept) ->
       fst (loadCatalog writable file
              (snd (importCatalog idOf nameOf writable (valid ++ bad :: rest)
                      items stored)) [])
       = (t :: kept)%list.
Proof.
  intros Hvalid Hbad.
  assert (E : importCatalog idOf nameOf writable (valid ++ bad :: rest) items stored
              = (mergeAll idOf valid items, stored)).
  { unfold importCatalog. now rewrite (mergeImported_invalid _ _ _ _ Hvalid Hbad). }
  split; [exact E|]. intros file t kept Hstored. rewrite E. cbn [snd].
  now rewrite Hstored.
Qed.

(** What was saved is what the next start loads, unless the catalog was
    empty: an empty stored array counts as nothing stored, and the packaged
    file is loaded and stored again (or, when it cannot be fetched, the
    catalog stays as it is). *)
Theorem saved_catalog_is_loaded_back_unless_empty
    (writable : bool) (file stored : option (list A)) (items current : list A) :
  let saved := saveToStorage true items stored in
  (items <> [] -> loadCatalog writable file saved current = (items, saved))
  /\ (items = [] ->
      loadCatalog writable file saved current
      = match file with
        | Some data => (data, saveToStorage writable data saved)
        | None => (current, saved)
        end).
Proof.
  cbn [saveToStorage]. split.
  - intros Hitems. destruct items as [|t rest]; [now elim Hitems | reflexivity].
  - intros ->. reflexivity.
Qed.

End CatalogProperties.

Lemma import_replaces_by_id_witness :
  findById storyTypeId "noir_detective"
    (fst (importStoryTypes true [gothicRomance; noirRevised]
            [noirDetective; scenarioDStoryType] None))
  = Some noirRevised.
Proof.
  destruct (import_replaces_by_id storyTypeId storyTypeName
              [gothicRomance; noirRevised] [noirDetective; scenarioDStoryType]
              eq_refl) as [Hmerged Hfind].
  unfold importStoryTypes, importCatalog. rewrite Hmerged. cbn [fst].
  rewrite Hfind. reflexivity.
Defined.

Lemma merge_keeps_positions_and_unique_ids_witness :
  NoDup (map storyTypeId
           (mergeAll storyTypeId [gothicRomance; noirRevised; gothicRomance]
              [noirDetective; scenarioDStoryType])).
Proof.
  destruct (merge_keeps_positions_and_unique_ids storyTypeId
              [gothicRomance; noirRevised; gothicRomance]
              [noirDetective; scenarioDStoryType]) as (_ & _ & Huniq).
  apply Huniq. cbn [map storyTypeId noirDetective scenarioDStoryType].
  constructor; [intros [H|[]]; discriminate|].
  constructor; [intros []|constructor].
Defined.

Lemma failed_import_is_partial_witness :
  importStoryTypes true [gothicRomance; namelessEntry; noirRevised]
    [noirDetective] (Some [noirDetective])
  = ([noirDetective; gothicRomance], Some [noirDetective]).
Proof.
  destruct (failed_import_is_partial storyTypeId storyTypeName true
              [gothicRomance] [noirRevised] [noirDetective] namelessEntry
              (Some [noirDetective]) eq_refl eq_refl) as [H _].
  exact H.
Defined.

Lemma saved_catalog_is_loaded_back_unless_empty_witness :
  loadStoryTypes true (Some [noirDetective]) (saveToStorage true [] None) []
  = ([noirDetective], Some [noirDetective]).
Proof.
  destruct (saved_catalog_is_loaded_back_unless_empty true
              (Some [noirDetective]) None (@nil StoryType) [])
    as [_ Hempty].
  exact (Hempty eq_refl).
Defined.

(** ** Deleting a story type *)





(** ** Selecting a story type *)

(** The selection handler throws when the prompt or the preview cannot be
    composed for the new selection; the state has been stored by then. *)
Lemma onStoryTypeSelect_eq (selectedType : string) (w : World) :
  let w1 := stored (Assign.chatSelectedStoryType selectedType)
              (set_settings (Assign.selectedStoryType selectedType (settings w)) w) in
  onStoryTypeSelect selectedType w = outcome (injectionThrows true w1) (prompted w1).
Proof.
  intros w1. unfold onStoryTypeSelect, updatePreviewInDialog.
  repeat mstep. fold w1. change (touch w1) with w1.
  pose proof (injectionThrows_preview w1) as Hpreview.
  destruct (injectionThrows false w1).
  - now rewrite (Hpreview eq_refl).
  - rewrite bind_buildFullInjection.
    rewrite (injectionThrows_sameStory true _ _ (sameStory_prompted w1)).
    unfold w1. rewrite !touch_prompted_stored. fold w1.
    destruct (injectionThrows true w1); [reflexivity|].
    mstep. rewrite updateStatusDisplay_eq. unfold w1.
    now rewrite !touch_prompted_stored.
Qed.

(** Choosing a story type in the dialog changes the selection of the
    current chat and the default of chats opened later, hands the chat state
    to [saveMetadata] and refreshes the prompt for the new selection.  It
    does not restart the arc: step counter, arc length and the epilogue and
    summary flags stay as they are.  The handler throws exactly when the
    preview cannot be composed for the new selection, which needs an entry
    of that id without a progress template; the selection has been stored
    by then.  Choosing "None" leaves the style block as the whole
    injection. *)
Theorem story_type_selection_keeps_the_arc (selectedType : string) (w : World) :
  let w1 := worldOf (onStoryTypeSelect selectedType w) in
  threw (onStoryTypeSelect selectedType w) = injectionThrows true w1
  /\ (threw (onStoryTypeSelect selectedType w) = true ->
      exists storyType,
        find (fun t => String.eqb (storyTypeId t) selectedType) (storyTypes w)
        = Some storyType
        /\ progressTemplate storyType = None)
  /\ chatStateOf w1 = Assign.chatSelectedStoryType selectedType (chatStateOf w)
  /\ ChatState.selectedStoryType (initialChatState (settings w1)) = selectedType
  /\ currentStepOf w1 = currentStepOf w
  /\ arcLengthOf w1 = arcLengthOf w
  /\ savedMetadata w1 = (chatStateOf w1 :: savedMetadata w)%list
  /\ extensionPrompt w1 = extensionPrompt (prompted w1)
  /\ (selectedType = "" ->
      injectionText false w1
      = if Settings.enabled (settings w)
        then join (nl ++ nl) (stylePart (settings w) (chatStateOf w) (authorStyles w))
        else "").
Proof.
  intros w1. unfold w1. rewrite onStoryTypeSelect_eq. cbv zeta.
  rewrite worldOf_outcome, threw_outcome.
  set (w0 := set_settings (Assign.selectedStoryType selectedType (settings w)) w).
  set (x := stored (Assign.chatSelectedStoryType selectedType) w0).
  pose proof (sameStory_prompted x) as Hsame.
  assert (Hstate0 : chatStateOf x
                    = Assign.chatSelectedStoryType selectedType (chatStateOf w))
    by (world_cases w; reflexivity).
  assert (Hstate : chatStateOf (prompted x)
                   = Assign.chatSelectedStoryType selectedType (chatStateOf w))
    by now rewrite chatStateOf_prompted.
  assert (Hsettings : settings (prompted x)
                      = Assign.selectedStoryType selectedType (settings w))
    by now destruct Hsame as (_ & H & _).
  split; [symmetry; apply (injectionThrows_sameStory true _ _ Hsame)|].
  split.
  { intros Hthrows.
    destruct (injectionThrows_inv _ _ Hthrows) as (storyType & Hfind & Hnone).
    exists storyType. split; [|exact Hnone].
    rewrite Hstate0 in Hfind. exact Hfind. }
  split; [exact Hstate|].
  split; [now rewrite Hsettings|].
  unfold currentStepOf, arcLengthOf. rewrite Hstate.
  split; [reflexivity|]. split; [reflexivity|].
  split; [rewrite savedMetadata_prompted; unfold x; cbn [savedMetadata stored
            set_savedMetadata]; fold x; now rewrite <- Hstate0|].
  split; [symmetry; apply extensionPrompt_prompted_twice|].
  intros ->. rewrite (injectionText_sameStory false _ _ Hsame).
  unfold injectionText, storySegments. rewrite Hstate0.
  change (settings x) with (Assign.selectedStoryType "" (settings w)).
  change (authorStyles x) with (authorStyles w).
  cbn [Settings.enabled Assign.selectedStoryType].
  destruct (Settings.enabled (settings w)); [|reflexivity]. cbn [negb].
  unfold storyPart. cbn [ChatState.selectedStoryType Assign.chatSelectedStoryType
    truthy String.eqb negb]. rewrite andb_false_r. reflexivity.
Qed.

Lemma story_type_selection_keeps_the_arc_witness :
  injectionText false (worldOf (onStoryTypeSelect "" runningWorld))
  = "<style>" ++ nl ++ "Short sentences. Dry wit." ++ nl ++ "</style>".
Proof.
  destruct (story_type_selection_keeps_the_arc "" runningWorld)
    as (_ & _ & _ & _ & _ & _ & _ & _ & Hnone).
  rewrite (Hnone eq_refl). vm_compute. reflexivity.
Defined.

(** ** The epilogue *)

Lemma sliceFrom_last_twenty {A : Type} (l : list A) :
  sliceFrom (-20) l = lastN 20 l.
Proof. exact (sliceFrom_last 20 l eq_refl). Qed.

(** The epilogue generator looks at the last twenty messages that are not
    system messages and have text, and at nothing else of the state: two
    states that agree on them give the same epilogue for the same host.  It
    never throws and leaves the state as it is. *)
Theorem epilogue_depends_only_on_the_last_twenty_story_messages
    (host : Generator) (w w' : World) :
  lastN 20 (nonSystemMessages (chat w')) = lastN 20 (nonSystemMessages (chat w)) ->
  valueOf (generateEpilogueForStory host w')
  = valueOf (generateEpilogueForStory host w)
  /\ threw (generateEpilogueForStory host w) = false
  /\ worldOf (generateEpilogueForStory host w) = w
  /\ (List.length (lastN 20 (nonSystemMessages (chat w))) <= 20)%nat.
Proof.
  intros Hsame. split; [|split; [|split]].
  - unfold generateEpilogueForStory. repeat mstep.
    rewrite !sliceFrom_last_twenty, Hsame.
    match goal with |- context [if ?c then _ else _] => destruct c end;
      [reflexivity|].
    unfold tryCatch, bind, generateRaw.
    match goal with |- context [host ?r] => destruct (host r) as [|text] end;
      reflexivity.
  - destruct (generateEpilogueForStory_returns host w) as [e He]. now rewrite He.
  - destruct (generateEpilogueForStory_returns host w) as [e He]. now rewrite He.
  - unfold lastN. rewrite length_skipn. lia.
Qed.

Lemma epilogue_depends_only_on_the_last_twenty_story_messages_witness :
  valueOf (generateEpilogueForStory (constantHost " The end. ")
             (set_chat ({| is_user := false; mes := "Chat created.";
                           is_system := true; name := "System";
                           force_avatar := None |} :: openingMessages)
                runningWorld))
  = valueOf (generateEpilogueForStory (constantHost " The end. ") runningWorld).
Proof.
  now destruct (epilogue_depends_only_on_the_last_twenty_story_messages
                  (constantHost " The end. ") runningWorld
                  (set_chat ({| is_user := false; mes := "Chat created.";
                                is_system := true; name := "System";
                                force_avatar := None |} :: openingMessages)
                     runningWorld)
                  eq_refl) as [H _].
Defined.

(** When the epilogue generation fails (the host rejects, or resolves to
    nothing or to blank text) at the end of an arc with the epilogue enabled
    and the summary disabled, the checkpoint appends nothing, not even the
    end notice, and [epilogueShown] stays false; the next counted checkpoint
    asks the host again, and when that generation gives text it appends the
    epilogue and then the end notice. *)
Theorem failed_epilogue_is_retried_at_the_next_checkpoint
    (host later : Generator) (data : EventData) (w : World) (epilogue : string) :
  counted w data = true ->
  currentStepOf w = arcLengthOf w ->
  Settings.epilogueEnabled (settings w) = true ->
  Settings.summaryEnabled (settings w) = false ->
  ChatState.epilogueShown (chatStateOf w) = false ->
  (forall request,
      host request = Rejects
      \/ host request = Resolves None
      \/ exists text, host request = Resolves (Some text) /\ trim text = "") ->
  valueOf (generateEpilogueForStory later w) = Some epilogue ->
  truthy epilogue = true ->
  let w2 := run [MESSAGE_RECEIVED host data; MESSAGE_RECEIVED later data] w in
  deliver (MESSAGE_RECEIVED host data) w = touch w
  /\ chat w2 = (chat w ++ [storyMessage epilogue; storyMessage NOTICE_TEXT])%list
  /\ ChatState.epilogueShown (chatStateOf w2) = true
  /\ currentStepOf w2 = currentStepOf w.
Proof.
  intros Hc Heq Hon Hoff Hshown Hfail Hvalue Htruthy w2.
  assert (Hskip : forall h x, summaryStep h (settings w) x = Ok tt (touch x)).
  { intros h x. unfold summaryStep. mstep. now rewrite Hoff. }
  assert (E1 : deliver (MESSAGE_RECEIVED host data) w = touch w).
  { unfold deliver, dispatch.
    destruct (epilogue_failure_skips_only_the_epilogue host data w Hc Heq Hon Hshown
                (generateEpilogueForStory_failure host (touch w) Hfail))
      as (_ & Hrun & _).
    now rewrite Hrun, Hskip. }
  set (w1 := stored (ChatState.set_epilogueShown true) (pushed epilogue (touch w))).
  assert (E2 : w2 = pushed NOTICE_TEXT w1).
  { unfold w2.
    change (run [MESSAGE_RECEIVED host data; MESSAGE_RECEIVED later data] w)
      with (deliver (MESSAGE_RECEIVED later data)
              (deliver (MESSAGE_RECEIVED host data) w)).
    rewrite E1. unfold deliver, dispatch.
    assert (Hc1 : counted (touch w) data = true) by exact Hc.
    rewrite (onMessageReceived_counted _ _ _ Hc1).
    change (currentStepOf (touch w)) with (currentStepOf w).
    change (arcLengthOf (touch w)) with (arcLengthOf w).
    rewrite Heq, Z.ltb_irrefl, Z.eqb_refl. unfold completionSequence.
    change (settings (touch w)) with (settings w).
    change (touch (touch w)) with (touch w).
    rewrite (bind_ok _ _ _ _ _
               (epilogueStep_success later (settings w) (touch w) epilogue Hon Hshown
                  ltac:(now rewrite (generateEpilogueForStory_chat later w (touch w) eq_refl))
                  Htruthy)).
    change (stored (ChatState.set_epilogueShown true)
              (pushed epilogue (touch (touch w)))) with w1.
    rewrite (bind_ok _ _ _ _ _ (Hskip later w1)), noticeStep_eq.
    assert (Hmet : conditionsMet (settings w) (chatStateOf (touch w1)) = true).
    { unfold conditionsMet. rewrite Hon, Hoff. reflexivity. }
    rewrite Hmet. reflexivity. }
  split; [exact E1|]. rewrite E2.
  split; [cbn; now rewrite <- app_assoc|]. split; reflexivity.
Qed.

Lemma failed_epilogue_is_retried_at_the_next_checkpoint_witness :
  chat (run [MESSAGE_RECEIVED failingHost assistantMessage;
             MESSAGE_RECEIVED (constantHost "**Epilogue** The rain stopped.")
                              assistantMessage] epilogueOnlyWorld)
  = (chat epilogueOnlyWorld
     ++ [storyMessage "**Epilogue** The rain stopped."; storyMessage NOTICE_TEXT])%list.
Proof.
  now destruct (failed_epilogue_is_retried_at_the_next_checkpoint
                  failingHost (constantHost "**Epilogue** The rain stopped.")
                  assistantMessage epilogueOnlyWorld "**Epilogue** The rain stopped."
                  eq_refl eq_refl eq_refl eq_refl eq_refl
                  (fun _ => or_introl eq_refl) eq_refl eq_refl) as (_ & H & _).
Defined.

(** ** A story type without progress template *)

(** The import takes an entry that has an id and a name and no progress
    template.  Once a chat has it selected, composing the injection throws,
    for the prompt and for the preview; the counted checkpoint stores the
    next step and then throws in the refresh of the prompt; a chat change
    throws before it starts its timer. *)
Example imported_entry_without_template_throws :
  importStoryTypes true [bareStoryType] [noirDetective; scenarioDStoryType] None
  = ([noirDetective; scenarioDStoryType; bareStoryType],
     Some [noirDetective; scenarioDStoryType; bareStoryType])
  /\ storyTypes bareWorld = [noirDetective; scenarioDStoryType; bareStoryType]
  /\ threw (buildFullInjection false bareWorld) = true
  /\ threw (buildFullInjection true bareWorld) = true
  /\ threw (updateStoryPrompt bareWorld) = true
  /\ threw (dispatch (MESSAGE_RECEIVED failingHost assistantMessage) bareWorld) = true
  /\ currentStepOf (deliver (MESSAGE_RECEIVED failingHost assistantMessage) bareWorld) = 6
  /\ threw (dispatch CHAT_CHANGED bareWorld) = true
  /\ loadingTimers (deliver CHAT_CHANGED bareWorld) = 0%nat
  /\ isLoadingChat (deliver CHAT_CHANGED bareWorld) = true.
Proof. repeat split; vm_compute; reflexivity. Qed.
